(** * Social simulation: the individual, the population aggregator and the
      round orchestrator

    A shallow embedding of [core/agent.py], [core/society.py] and
    [core/simulation.py].

    Conventions of the embedding.
    - Python floats are taken as exact rationals ([Q]); numeric equalities are
      stated up to [Qeq] ([==]).  Where a property turns on the rounding of
      binary floating point, the function has a second embedding on binary64
      numbers, named with the suffix [_binary64].
    - The string enumerations ['male'|'female'], ['low'|'middle'|'high'],
      ['P'|'F'|'U'] and the five policy-lever names are inductive types.
    - Objects mutated in place become explicit state: an [Agent] record that
      the methods return updated, and a [Society] record that owns the list of
      agents.  The elite circle holds references to the very same agent
      objects; it is kept as a list of positions in the agent list, so that a
      vote reads the members' current attributes.
    - The two ambient generators (Python's [random] and [numpy.random]) are
      oracles: a sequence of draws and a cursor each. *)

From Stdlib Require Import QArith Qround Qabs Lqa ZArith List Lia Bool.
From Stdlib Require Import Sorted Permutation.
From Stdlib Require Import Floats.
Import ListNotations.

Open Scope Q_scope.

(** ** Numbers *)

Definition Qltb (x y : Q) : bool := negb (Qle_bool y x).

(** Python's [max(a, b)] and [min(a, b)] on two arguments: the first argument
    is kept unless the second is strictly better. *)
Definition py_max (a b : Q) : Q := if Qltb a b then b else a.
Definition py_min (a b : Q) : Q := if Qltb b a then b else a.

(** [np.clip(x, lo, hi)] is [minimum(maximum(x, lo), hi)]. *)
Definition np_clip (x lo hi : Q) : Q := py_min (py_max x lo) hi.

(** Python's [sum] of a list of numbers, starting from 0. *)
Definition py_sum (l : list Q) : Q := fold_left Qplus l 0.

Definition len {A} (l : list A) : Q := inject_Z (Z.of_nat (length l)).

(** [np.mean]. *)
Definition np_mean (l : list Q) : Q := py_sum l / len l.

(** Python's [int(x)]: truncation towards zero. *)
Definition py_int (x : Q) : Z := if Qltb x 0 then Qceiling x else Qfloor x.

(** ** The individual ([core/agent.py]) *)

Inductive Gender := male | female.
Inductive ClassLevel := low | middle | high.
Inductive Ideology := P | F | U.

Definition Gender_eqb (a b : Gender) : bool :=
  match a, b with male, male | female, female => true | _, _ => false end.

Definition ClassLevel_eqb (a b : ClassLevel) : bool :=
  match a, b with
  | low, low | middle, middle | high, high => true
  | _, _ => false
  end.

Definition Ideology_eqb (a b : Ideology) : bool :=
  match a, b with P, P | F, F | U, U => true | _, _ => false end.

(** [ideology_values = {'P': 1, 'F': -1, 'U': 0}] *)
Definition ideology_values (i : Ideology) : Z :=
  match i with P => 1 | F => -1 | U => 0 end.

(** A sanction effect is a dict; the three [current_*] keys are absent until
    [update_sanction_effects] writes them. *)
Record SanctionEffect := mkEffect {
  intensity : Q;
  start_round : Z;
  duration : Z;
  power_loss : Q;
  wealth_loss : Q;
  current_intensity : option Q;
  current_power_loss : option Q;
  current_wealth_loss : option Q
}.

Record Agent := mkAgent {
  id : nat;
  gender : Gender;
  class_level : ClassLevel;
  care_skill : Q;
  competition_skill : Q;
  wealth : Q;
  power : Q;
  ideology : Ideology;
  ideology_value : Z;
  sanction_effects : list SanctionEffect;
  last_ideology_change : Z;
  wealth_history : list Q;
  power_history : list Q;
  ideology_history : list Ideology
}.

(** Attribute assignments [agent.f = v]. *)
Definition set_wealth (a : Agent) (v : Q) : Agent :=
  mkAgent (id a) (gender a) (class_level a) (care_skill a)
    (competition_skill a) v (power a) (ideology a) (ideology_value a)
    (sanction_effects a) (last_ideology_change a) (wealth_history a)
    (power_history a) (ideology_history a).

Definition set_power (a : Agent) (v : Q) : Agent :=
  mkAgent (id a) (gender a) (class_level a) (care_skill a)
    (competition_skill a) (wealth a) v (ideology a) (ideology_value a)
    (sanction_effects a) (last_ideology_change a) (wealth_history a)
    (power_history a) (ideology_history a).

Definition set_care_skill (a : Agent) (v : Q) : Agent :=
  mkAgent (id a) (gender a) (class_level a) v
    (competition_skill a) (wealth a) (power a) (ideology a) (ideology_value a)
    (sanction_effects a) (last_ideology_change a) (wealth_history a)
    (power_history a) (ideology_history a).

Definition set_competition_skill (a : Agent) (v : Q) : Agent :=
  mkAgent (id a) (gender a) (class_level a) (care_skill a)
    v (wealth a) (power a) (ideology a) (ideology_value a)
    (sanction_effects a) (last_ideology_change a) (wealth_history a)
    (power_history a) (ideology_history a).

Definition set_class_level (a : Agent) (c : ClassLevel) : Agent :=
  mkAgent (id a) (gender a) c (care_skill a)
    (competition_skill a) (wealth a) (power a) (ideology a) (ideology_value a)
    (sanction_effects a) (last_ideology_change a) (wealth_history a)
    (power_history a) (ideology_history a).

Definition set_sanction_effects (a : Agent) (l : list SanctionEffect) : Agent :=
  mkAgent (id a) (gender a) (class_level a) (care_skill a)
    (competition_skill a) (wealth a) (power a) (ideology a) (ideology_value a)
    l (last_ideology_change a) (wealth_history a)
    (power_history a) (ideology_history a).

Definition _calculate_power (a : Agent) : Q :=
  0.5 * wealth a + 0.25 * competition_skill a + 0.25 * care_skill a.

Definition update_wealth (a : Agent) (new_wealth : Q) : Agent :=
  let w := py_max 0.01 new_wealth in
  mkAgent (id a) (gender a) (class_level a) (care_skill a)
    (competition_skill a) w (power a) (ideology a) (ideology_value a)
    (sanction_effects a) (last_ideology_change a) (wealth_history a ++ [w])
    (power_history a) (ideology_history a).

Definition update_power (a : Agent) : Agent :=
  let p := _calculate_power a in
  mkAgent (id a) (gender a) (class_level a) (care_skill a)
    (competition_skill a) (wealth a) p (ideology a) (ideology_value a)
    (sanction_effects a) (last_ideology_change a) (wealth_history a)
    (power_history a ++ [p]) (ideology_history a).

(** [change_ideology] returns the agent after the call and the reported
    boolean. *)
Definition change_ideology (a : Agent) (new_ideology : Ideology)
    (current_round : Z) : Agent * bool :=
  if (3 <=? current_round - last_ideology_change a)%Z then
    (mkAgent (id a) (gender a) (class_level a) (care_skill a)
       (competition_skill a) (wealth a) (power a) new_ideology
       (ideology_values new_ideology)
       (sanction_effects a) current_round (wealth_history a)
       (power_history a) (ideology_history a ++ [new_ideology]), true)
  else (a, false).

Definition add_sanction_effect (a : Agent) (intensity : Q)
    (current_round : Z) : Agent :=
  let effect :=
    mkEffect intensity current_round 3 (intensity * 0.08) (intensity * 0.03)
      None None None in
  set_sanction_effects a (sanction_effects a ++ [effect]).

(** The body of the loop of [update_sanction_effects] for one effect: [Some]
    of the rewritten effect when it stays active, [None] when it is dropped. *)
Definition decay_effect (current_round : Z) (effect : SanctionEffect)
    : option SanctionEffect :=
  let rounds_passed := (current_round - start_round effect)%Z in
  if (rounds_passed <? duration effect)%Z then
    let decay_factor := 0.5 ^ rounds_passed in
    Some (mkEffect (intensity effect) (start_round effect) (duration effect)
            (power_loss effect) (wealth_loss effect)
            (Some (intensity effect * decay_factor))
            (Some (power_loss effect * decay_factor))
            (Some (wealth_loss effect * decay_factor)))
  else None.

Fixpoint active_effects (current_round : Z) (l : list SanctionEffect)
    : list SanctionEffect :=
  match l with
  | [] => []
  | effect :: rest =>
      match decay_effect current_round effect with
      | Some e => e :: active_effects current_round rest
      | None => active_effects current_round rest
      end
  end.

Definition update_sanction_effects (a : Agent) (current_round : Z) : Agent :=
  set_sanction_effects a (active_effects current_round (sanction_effects a)).

(** [effect.get(key, 0)] *)
Definition get_or_0 (o : option Q) : Q :=
  match o with Some v => v | None => 0 end.

Record SanctionTotals := mkTotals {
  total_power_loss : Q;
  total_wealth_loss : Q
}.

Definition get_total_sanction_effects (a : Agent) : SanctionTotals :=
  mkTotals
    (py_sum (map (fun effect => get_or_0 (current_power_loss effect))
               (sanction_effects a)))
    (py_sum (map (fun effect => get_or_0 (current_wealth_loss effect))
               (sanction_effects a))).

Definition learn_from_successful_agent (a successful_agent : Agent)
    (learning_rate : Q) : Agent :=
  let skill_diff := care_skill successful_agent - care_skill a in
  let a1 := set_care_skill a (care_skill a + learning_rate * skill_diff) in
  let a2 := set_care_skill a1 (np_clip (care_skill a1) 0 1.0) in
  let skill_diff := competition_skill successful_agent - competition_skill a2 in
  let a3 :=
    set_competition_skill a2
      (competition_skill a2 + learning_rate * skill_diff) in
  set_competition_skill a3 (np_clip (competition_skill a3) 0 1.0).

(** [class_averages] is a dict keyed by the three class names. *)
Definition check_class_mobility (a : Agent) (class_averages : ClassLevel -> Q)
    : ClassLevel :=
  let current_class := class_level a in
  if ClassLevel_eqb current_class low
     && Qltb (class_averages middle * 1.5) (wealth a) then middle
  else if ClassLevel_eqb current_class middle
     && Qltb (class_averages high * 1.5) (wealth a) then high
  else if ClassLevel_eqb current_class high
     && Qltb (wealth a) (class_averages high * 0.6) then middle
  else if ClassLevel_eqb current_class middle
     && Qltb (wealth a) (class_averages middle * 0.6) then low
  else current_class.

(** ** The population aggregator ([core/society.py]) *)

Inductive PolicyName :=
  | competition_reward
  | care_reward
  | tax_redistribution
  | attribution_bias
  | social_sanction.

Definition PolicyName_eqb (a b : PolicyName) : bool :=
  match a, b with
  | competition_reward, competition_reward
  | care_reward, care_reward
  | tax_redistribution, tax_redistribution
  | attribution_bias, attribution_bias
  | social_sanction, social_sanction => true
  | _, _ => false
  end.

(** The recognised options read by the core.  Options read with
    [config.get(key, default)] are optional. *)
Record Config := mkConfig {
  total_population : Z;
  male_care_skill_mean : Q;
  male_competition_skill_mean : Q;
  female_care_skill_mean : Q;
  female_competition_skill_mean : Q;
  skill_std_dev : Q;
  initial_lever : PolicyName -> option Q;
  base_growth_rate : option Q;
  learning_rate : option Q;
  sanction_trigger_threshold : option Q;
  max_rounds : Z;
  random_seed : Z
}.

(** [config.get(key, default)] *)
Definition get_default (o : option Q) (default : Q) : Q :=
  match o with Some v => v | None => default end.

Record ClassStat := mkClassStat {
  count : nat;
  avg_wealth : Q;
  avg_power : Q;
  male_count : nat;
  female_count : nat
}.

Record MobilityChange := mkChange {
  agent_id : nat;
  from_class : ClassLevel;
  to_class : ClassLevel;
  change_wealth : Q
}.

Inductive EventBody :=
  | policy_change (policy : PolicyName) (old_value new_value change : Q)
  | social (success : bool) (total_care_skill threshold : Q)
  | economic (winners_count total_participants : nat)
  | class_mobility (changes : list MobilityChange) (total_changes : nat).

Record Event := mkEvent {
  body : EventBody;
  round : Z
}.

(** [gender_stats] (which needs square roots for [np.std]) and
    [ideology_stats] are reporting outputs that no mechanism reads; they are
    not part of the state below. *)
Record Society := mkSociety {
  agents : list Agent;
  config : Config;
  current_round : Z;
  policy_levers : PolicyName -> Q;
  core_decision_circle : list nat;
  event_history : list Event;
  social_equality : Q;
  average_wealth : Q;
  average_power : Q;
  average_ideology : Q;
  class_stats : ClassLevel -> ClassStat
}.

Definition set_agents (s : Society) (l : list Agent) : Society :=
  mkSociety l (config s) (current_round s) (policy_levers s)
    (core_decision_circle s) (event_history s) (social_equality s)
    (average_wealth s) (average_power s) (average_ideology s) (class_stats s).

Definition set_current_round (s : Society) (r : Z) : Society :=
  mkSociety (agents s) (config s) r (policy_levers s)
    (core_decision_circle s) (event_history s) (social_equality s)
    (average_wealth s) (average_power s) (average_ideology s) (class_stats s).

(** [policy_levers[policy_name] = new_value] *)
Definition set_policy_lever (s : Society) (policy_name : PolicyName)
    (new_value : Q) : Society :=
  mkSociety (agents s) (config s) (current_round s)
    (fun k => if PolicyName_eqb k policy_name then new_value
              else policy_levers s k)
    (core_decision_circle s) (event_history s) (social_equality s)
    (average_wealth s) (average_power s) (average_ideology s) (class_stats s).

Definition set_core_decision_circle (s : Society) (c : list nat) : Society :=
  mkSociety (agents s) (config s) (current_round s) (policy_levers s)
    c (event_history s) (social_equality s)
    (average_wealth s) (average_power s) (average_ideology s) (class_stats s).

Definition set_social_equality (s : Society) (v : Q) : Society :=
  mkSociety (agents s) (config s) (current_round s) (policy_levers s)
    (core_decision_circle s) (event_history s) v
    (average_wealth s) (average_power s) (average_ideology s) (class_stats s).

Definition set_class_stats (s : Society) (c : ClassLevel -> ClassStat)
    : Society :=
  mkSociety (agents s) (config s) (current_round s) (policy_levers s)
    (core_decision_circle s) (event_history s) (social_equality s)
    (average_wealth s) (average_power s) (average_ideology s) c.

Definition _update_basic_stats (s : Society) : Society :=
  match agents s with
  | [] => s
  | _ =>
      let wealths := map wealth (agents s) in
      let powers := map power (agents s) in
      let ideologies :=
        map (fun a => inject_Z (ideology_value a)) (agents s) in
      mkSociety (agents s) (config s) (current_round s) (policy_levers s)
        (core_decision_circle s) (event_history s) (social_equality s)
        (np_mean wealths) (np_mean powers) (np_mean ideologies)
        (class_stats s)
  end.

Definition _update_class_stats (s : Society) : Society :=
  let class_groups (c : ClassLevel) :=
    filter (fun a => ClassLevel_eqb (class_level a) c) (agents s) in
  set_class_stats s (fun c =>
    match class_groups c with
    | [] => mkClassStat 0 0 0 0 0
    | group =>
        mkClassStat (length group)
          (np_mean (map wealth group))
          (np_mean (map power group))
          (length (filter (fun a => Gender_eqb (gender a) male) group))
          (length (filter (fun a => Gender_eqb (gender a) female) group))
    end).

(** The double loop of [_calculate_gini_coefficient], accumulating in the
    order of the source. *)
Definition total_diff (wealths : list Q) : Q :=
  fold_left
    (fun acc wi => fold_left (fun acc wj => acc + Qabs (wi - wj)) wealths acc)
    wealths 0.

Definition _calculate_gini_coefficient (wealths : list Q) : Q :=
  if (length wealths <? 2)%nat then 0
  else
    let n := len wealths in
    let mean_wealth := np_mean wealths in
    if Qeq_bool mean_wealth 0 then 0
    else
      let gini := total_diff wealths / (2 * n * n * mean_wealth) in
      py_min 1.0 gini.

(** The value [_calculate_social_equality] stores, as a function of the
    members' wealths. *)
Definition equality_index (wealths : list Q) : Q :=
  match wealths with
  | [] => 0
  | _ =>
      let gini := _calculate_gini_coefficient wealths in
      py_max 0 (py_min 1 (1 - gini))
  end.

Definition _calculate_social_equality (s : Society) : Society :=
  set_social_equality s (equality_index (map wealth (agents s))).

Definition update_statistics (s : Society) : Society :=
  _calculate_social_equality (_update_class_stats (_update_basic_stats s)).

(** [sorted(l, key=..., reverse=True)]: a stable sort, descending by key;
    members with equal keys keep their original order. *)
Fixpoint insert_desc {A} (key : A -> Q) (x : A) (l : list A) : list A :=
  match l with
  | [] => [x]
  | y :: l' =>
      if Qltb (key x) (key y) then y :: insert_desc key x l'
      else x :: y :: l'
  end.

Fixpoint sorted_desc {A} (key : A -> Q) (l : list A) : list A :=
  match l with
  | [] => []
  | x :: l' => insert_desc key x (sorted_desc key l')
  end.

(** [enumerate]: the agents with their positions. *)
Fixpoint enumerate_from {A} (i : nat) (l : list A) : list (nat * A) :=
  match l with
  | [] => []
  | x :: l' => (i, x) :: enumerate_from (S i) l'
  end.

Definition enumerate {A} (l : list A) : list (nat * A) := enumerate_from 0 l.

(** Positions of the agents, ranked by power descending. *)
Definition ranked_by_power (l : list Agent) : list nat :=
  map fst (sorted_desc (fun ia => power (snd ia)) (enumerate l)).

Definition circle_size (s : Society) : Z :=
  Z.max 1 (py_int (len (agents s) * 0.05)).

Definition update_core_decision_circle (s : Society) : Society :=
  set_core_decision_circle s
    (firstn (Z.to_nat (circle_size s)) (ranked_by_power (agents s))).

(** The agent objects a list of references denotes. *)
Definition deref (l : list Agent) (refs : list nat) : list Agent :=
  flat_map (fun i => match nth_error l i with Some a => [a] | None => [] end)
    refs.

Definition circle_members (s : Society) : list Agent :=
  deref (agents s) (core_decision_circle s).

Definition _get_policy_preference (s : Society) (agent : Agent)
    (policy_name : PolicyName) : Z :=
  match policy_name with
  | competition_reward =>
      if Ideology_eqb (ideology agent) P
         || Qltb 0.6 (competition_skill agent) then 1
      else if Ideology_eqb (ideology agent) F
         || Qltb 0.6 (care_skill agent) then -1
      else 0
  | care_reward =>
      if Ideology_eqb (ideology agent) F
         || Qltb 0.6 (care_skill agent) then 1
      else if Ideology_eqb (ideology agent) P
         || Qltb 0.6 (competition_skill agent) then -1
      else 0
  | tax_redistribution =>
      if Ideology_eqb (ideology agent) F
         || Qltb (wealth agent) (average_wealth s) then 1
      else if Ideology_eqb (ideology agent) P
         || Qltb (average_wealth s * 1.5) (wealth agent) then -1
      else 0
  | attribution_bias =>
      if Ideology_eqb (ideology agent) P
         || (Gender_eqb (gender agent) male
             && Qltb (average_power s) (power agent)) then 1
      else if Ideology_eqb (ideology agent) F
         || Gender_eqb (gender agent) female then -1
      else 0
  | social_sanction =>
      if Qltb (Qabs (inject_Z (ideology_value agent) - average_ideology s)) 0.2
      then 1 else -1
  end%Z.

Definition policy_bounds (policy_name : PolicyName) : Q * Q :=
  match policy_name with
  | competition_reward => (0.5, 2.0)
  | care_reward => (0.5, 2.0)
  | tax_redistribution => (0, 0.8)
  | attribution_bias => (0, 1)
  | social_sanction => (0, 1)
  end.

Definition add_event (s : Society) (e : EventBody) : Society :=
  mkSociety (agents s) (config s) (current_round s) (policy_levers s)
    (core_decision_circle s)
    (event_history s ++ [mkEvent e (current_round s)])
    (social_equality s)
    (average_wealth s) (average_power s) (average_ideology s) (class_stats s).

(** ** The ambient random generators

    Neither [random_seed] nor any other option reaches a generator: the core
    draws from the process-wide states of [random] and [numpy.random] as it
    finds them.  A generator state is an oracle, the sequence of its future
    variates together with a cursor: uniform variates in [0,1) for [random],
    and for [numpy.random] uniform variates where a uniform law is sampled and
    standard normal variates where [normal] is. *)

Record RandomState := mkRandom {
  py_draws : nat -> Q;
  py_pos : nat;
  np_draws : nat -> Q;
  np_pos : nat
}.

Definition Rand (A : Type) : Type := RandomState -> A * RandomState.

Definition ret {A} (x : A) : Rand A := fun g => (x, g).

Definition bind {A B} (c : Rand A) (k : A -> Rand B) : Rand B :=
  fun g => let (x, g') := c g in k x g'.

Notation "x <- c ;; k" := (bind c (fun x => k))
  (at level 61, c at next level, right associativity).

Fixpoint mapM {A B} (f : A -> Rand B) (l : list A) : Rand (list B) :=
  match l with
  | [] => ret []
  | x :: l' => y <- f x ;; ys <- mapM f l' ;; ret (y :: ys)
  end.

(** [random.random()] *)
Definition random_random : Rand Q := fun g =>
  (py_draws g (py_pos g),
   mkRandom (py_draws g) (S (py_pos g)) (np_draws g) (np_pos g)).

(** The next variate of [numpy.random]. *)
Definition np_next : Rand Q := fun g =>
  (np_draws g (np_pos g),
   mkRandom (py_draws g) (py_pos g) (np_draws g) (S (np_pos g))).

(** An index below [n] from a uniform variate. *)
Definition index_below (n : nat) (u : Q) : nat :=
  Nat.min (Z.to_nat (Qfloor (u * inject_Z (Z.of_nat n)))) (n - 1).

Definition randbelow (n : nat) : Rand nat :=
  u <- random_random ;; ret (index_below n u).

(** [random.randint(a, b)] *)
Definition random_randint (a b : Z) : Rand Z :=
  j <- randbelow (Z.to_nat (b - a + 1)) ;; ret (a + Z.of_nat j)%Z.

(** [random.choice(seq)]; [None] stands for the IndexError on an empty
    sequence. *)
Definition random_choice {A} (seq : list A) : Rand (option A) :=
  match seq with
  | [] => ret None
  | _ => j <- randbelow (length seq) ;; ret (nth_error seq j)
  end.

(** [l[j] = v] *)
Fixpoint list_set {A} (l : list A) (j : nat) (v : A) : list A :=
  match l, j with
  | [], _ => []
  | _ :: l', O => v :: l'
  | x :: l', S j' => x :: list_set l' j' v
  end.

(** [random.sample(population, k)], the pool branch that CPython takes for a
    population of at most 21 elements: [i] counts the selections made. *)
Fixpoint sample_pool {A} (pool : list A) (n : nat) (k : nat) (i : nat)
    : Rand (list A) :=
  match k with
  | O => ret []
  | S k' =>
      j <- randbelow (n - i) ;;
      match nth_error pool j, nth_error pool (n - i - 1) with
      | Some picked, Some last =>
          rest <- sample_pool (list_set pool j last) n k' (S i) ;;
          ret (picked :: rest)
      | _, _ => ret []
      end
  end.

Definition random_sample {A} (population : list A) (k : nat) : Rand (list A) :=
  sample_pool population (length population) k 0.

(** [random.shuffle(x)]: for [i] from [len(x) - 1] down to 1, swap [x[i]]
    with [x[randbelow(i + 1)]]. *)
Fixpoint shuffle_from {A} (x : list A) (i : nat) : Rand (list A) :=
  match i with
  | O => ret x
  | S i' =>
      j <- randbelow (S i) ;;
      match nth_error x i, nth_error x j with
      | Some xi, Some xj => shuffle_from (list_set (list_set x i xj) j xi) i'
      | _, _ => ret x
      end
  end.

Definition random_shuffle {A} (x : list A) : Rand (list A) :=
  shuffle_from x (length x - 1).

(** [np.random.normal(loc, scale)] *)
Definition np_random_normal (loc scale : Q) : Rand Q :=
  z <- np_next ;; ret (loc + scale * z).

(** [np.random.uniform(low, high)] *)
Definition np_random_uniform (low high : Q) : Rand Q :=
  u <- np_next ;; ret (low + (high - low) * u).

(** [np.random.choice(a)] on the three ideologies. *)
Definition np_random_choice {A} (a : list A) (default : A) : Rand A :=
  u <- np_next ;; ret (nth (index_below (length a) u) a default).

(** ** Construction of an individual ([Agent.__init__]) *)

Definition _initialize_skills (g : Gender) (c : Config) : Rand (Q * Q) :=
  let '(care_mean, comp_mean) :=
    match g with
    | male => (male_care_skill_mean c, male_competition_skill_mean c)
    | female => (female_care_skill_mean c, female_competition_skill_mean c)
    end in
  let std_dev := skill_std_dev c in
  care <- np_random_normal care_mean std_dev ;;
  comp <- np_random_normal comp_mean std_dev ;;
  ret (np_clip care
         (if Gender_eqb g male then 0.1 else 0.2)
         (if Gender_eqb g male then 0.9 else 1.0),
       np_clip comp
         (if Gender_eqb g female then 0.1 else 0.2)
         (if Gender_eqb g female then 0.9 else 1.0)).

Definition _initialize_wealth (cl : ClassLevel) : Rand Q :=
  let '(mean, std, min_val, max_val) :=
    match cl with
    | low => (0.2, 0.1, 0.05, 0.35)
    | middle => (0.5, 0.15, 0.2, 0.8)
    | high => (0.8, 0.1, 0.6, 1.0)
    end in
  w <- np_random_normal mean std ;;
  ret (np_clip w min_val max_val).

Definition _initialize_ideology : Rand Ideology :=
  np_random_choice [P; F; U] P.

(** The object [Agent.__init__] leaves once the skills, the wealth and the
    ideology are drawn: power from the formula, no sanction, histories of one
    entry. *)
Definition fresh_agent (ident : nat) (g : Gender) (cl : ClassLevel)
    (care comp w : Q) (i : Ideology) : Agent :=
  let a0 := mkAgent ident g cl care comp w 0 P 0 [] 0 [] [] [] in
  let p := _calculate_power a0 in
  mkAgent ident g cl care comp w p i (ideology_values i) [] 0 [w] [p] [i].

(** [Agent(gender, class_level, config)]; the identifier, a fresh UUID in the
    source, is the rank of creation. *)
Definition new_Agent (ident : nat) (g : Gender) (cl : ClassLevel) (c : Config)
    : Rand Agent :=
  skills <- _initialize_skills g c ;;
  w <- _initialize_wealth cl ;;
  i <- _initialize_ideology ;;
  ret (fresh_agent ident g cl (fst skills) (snd skills) w i).

(** ** Voting ([SocietyState.vote_on_policy]) *)

Definition vote_on_policy (s : Society) (policy_name : PolicyName) : Rand Q :=
  match core_decision_circle s with
  | [] => ret (policy_levers s policy_name)
  | _ =>
      let votes :=
        map (fun agent => _get_policy_preference s agent policy_name)
          (circle_members s) in
      let votes_increase := length (filter (fun v => 0 <? v)%Z votes) in
      let votes_decrease := length (filter (fun v => v <? 0)%Z votes) in
      let votes_maintain := length (filter (fun v => v =? 0)%Z votes) in
      let current_value := policy_levers s policy_name in
      new_value <-
        (if (votes_decrease <? votes_increase)%nat
            && (votes_maintain <? votes_increase)%nat then
           u <- np_random_uniform 0.05 0.2 ;;
           let adjustment := py_min 0.2 u in
           ret (current_value * (1 + adjustment))
         else if (votes_increase <? votes_decrease)%nat
            && (votes_maintain <? votes_decrease)%nat then
           u <- np_random_uniform 0.05 0.2 ;;
           let adjustment := py_min 0.2 u in
           ret (current_value * (1 - adjustment))
         else ret current_value) ;;
      let '(min_val, max_val) := policy_bounds policy_name in
      let new_value :=
        if Qltb max_val new_value then max_val + (new_value - max_val) * 0.1
        else if Qltb new_value min_val then
          min_val + (min_val - new_value) * 0.1
        else new_value in
      ret (py_max min_val (py_min max_val new_value))
  end.

(** [SocietyState(agents, config)] *)
Definition default_lever (k : PolicyName) : Q :=
  match k with
  | competition_reward => 1.5
  | care_reward => 1.0
  | tax_redistribution => 0.3
  | attribution_bias => 0.6
  | social_sanction => 0.4
  end.

(** The attributes as [__init__] first assigns them, before the circle and
    the statistics are computed. *)
Definition blank_SocietyState (l : list Agent) (c : Config) : Society :=
  mkSociety l c 0
    (fun k => get_default (initial_lever c k) (default_lever k))
    [] [] 0.0 0.0 0.0 0.0 (fun _ => mkClassStat 0 0 0 0 0).

Definition new_SocietyState (l : list Agent) (c : Config) : Society :=
  update_statistics (update_core_decision_circle (blank_SocietyState l c)).

(** ** The round orchestrator ([core/simulation.py]) *)

(** [Agent.to_dict] and [SocietyState.to_dict]: the snapshot of a round. *)
Record AgentDict := mkAgentDict {
  d_id : nat;
  d_gender : Gender;
  d_class_level : ClassLevel;
  d_wealth : Q;
  d_power : Q;
  d_care_skill : Q;
  d_competition_skill : Q;
  d_ideology : Ideology;
  d_ideology_value : Z;
  d_sanction_effects_count : nat;
  d_last_ideology_change : Z
}.

Definition Agent_to_dict (a : Agent) : AgentDict :=
  mkAgentDict (id a) (gender a) (class_level a) (wealth a) (power a)
    (care_skill a) (competition_skill a) (ideology a) (ideology_value a)
    (length (sanction_effects a)) (last_ideology_change a).

Record Snapshot := mkSnapshot {
  snap_current_round : Z;
  snap_social_equality : Q;
  snap_average_wealth : Q;
  snap_average_power : Q;
  snap_average_ideology : Q;
  snap_policy_levers : PolicyName -> Q;
  snap_class_stats : ClassLevel -> ClassStat;
  snap_core_decision_circle : list AgentDict;
  snap_event_history : list Event;
  snap_agents : list AgentDict
}.

Definition to_dict (s : Society) : Snapshot :=
  mkSnapshot (current_round s) (social_equality s) (average_wealth s)
    (average_power s) (average_ideology s) (policy_levers s) (class_stats s)
    (map Agent_to_dict (circle_members s)) (event_history s)
    (map Agent_to_dict (agents s)).

(** [self.agents] and [self.society.agents] are one list object; the
    simulation is its society and the snapshots recorded so far. *)
Record SocialSimulation := mkSimulation {
  society : Society;
  rounds : list Snapshot
}.

(** [[(gender, class_level)] * k] *)
Definition times {A} (x : A) (k : Z) : list A := repeat x (Z.to_nat k).

Fixpoint create_agents (ident : nat) (combos : list (Gender * ClassLevel))
    (c : Config) : Rand (list Agent) :=
  match combos with
  | [] => ret []
  | (g, cl) :: rest =>
      agent <- new_Agent ident g cl c ;;
      others <- create_agents (S ident) rest c ;;
      ret (agent :: others)
  end.

Definition _initialize_society (c : Config) : Rand SocialSimulation :=
  let total := total_population c in
  let low_count := py_int (inject_Z total * 0.6) in
  let middle_count := py_int (inject_Z total * 0.3) in
  let high_count := (total - low_count - middle_count)%Z in
  let gender_class_combinations :=
    flat_map
      (fun '(cl, class_count) =>
         let class_male := py_int (inject_Z class_count * 0.5) in
         let class_female := (class_count - class_male)%Z in
         times (male, cl) class_male ++ times (female, cl) class_female)
      [(low, low_count); (middle, middle_count); (high, high_count)] in
  shuffled <- random_shuffle gender_class_combinations ;;
  l <- create_agents 0 shuffled c ;;
  let s := new_SocietyState l c in
  ret (mkSimulation s [to_dict s]).

(** Step 1. *)
Definition vote_and_record (s : Society) (policy_name : PolicyName)
    : Rand Society :=
  new_value <- vote_on_policy s policy_name ;;
  let old_value := policy_levers s policy_name in
  if Qltb 0.01 (Qabs (new_value - old_value)) then
    ret (add_event (set_policy_lever s policy_name new_value)
           (policy_change policy_name old_value new_value
              (new_value - old_value)))
  else ret s.

Fixpoint vote_each (s : Society) (selected : list PolicyName) : Rand Society :=
  match selected with
  | [] => ret s
  | policy_name :: rest =>
      s' <- vote_and_record s policy_name ;; vote_each s' rest
  end.

Definition _core_circle_voting (s : Society) : Rand Society :=
  let policy_names :=
    [competition_reward; care_reward; tax_redistribution; attribution_bias;
     social_sanction] in
  num_issues <- random_randint 1 2 ;;
  selected_policies <- random_sample policy_names (Z.to_nat num_issues) ;;
  vote_each s selected_policies.

(** Step 2. *)
Inductive EventType := social_type | economic_type.

Definition _trigger_event (s : Society) : Rand EventType :=
  let social_event_prob := 0.4 + 0.2 * social_equality s in
  u <- random_random ;;
  ret (if Qltb u social_event_prob then social_type else economic_type).

Definition reward_care (care_reward_value : Q) (agent : Agent) : Agent :=
  if Qltb 0.6 (care_skill agent) then
    let power_bonus := 0.05 * care_reward_value * care_skill agent in
    let wealth_bonus := 0.03 * care_reward_value * care_skill agent in
    set_wealth (set_power agent (power agent + power_bonus))
      (wealth agent + wealth_bonus)
  else agent.

Definition _execute_social_event (s : Society) : Society * EventBody :=
  let total := py_sum (map care_skill (agents s)) in
  let success_threshold := len (agents s) * 0.5 * (1 + social_equality s) in
  if Qle_bool success_threshold total then
    (set_agents s (map (reward_care (policy_levers s care_reward)) (agents s)),
     social true total success_threshold)
  else (s, social false total success_threshold).

(** One iteration of the loop of [_execute_economic_event]; the boolean tells
    whether the agent joined the winners. *)
Definition compete (competition_reward_value : Q) (agent : Agent)
    : Rand (Agent * bool) :=
  let success_prob := competition_skill agent * 0.8 in
  u <- random_random ;;
  if Qltb u success_prob then
    let power_bonus :=
      0.04 * competition_reward_value * competition_skill agent in
    let wealth_bonus :=
      0.06 * competition_reward_value * competition_skill agent in
    ret (set_wealth (set_power agent (power agent + power_bonus))
           (wealth agent + wealth_bonus), true)
  else ret (agent, false).

Definition _execute_economic_event (s : Society) : Rand (Society * EventBody) :=
  results <- mapM (compete (policy_levers s competition_reward)) (agents s) ;;
  let winners := filter (fun r => snd r) results in
  ret (set_agents s (map fst results),
       economic (length winners) (length (agents s))).

Definition _execute_event (s : Society) (event : EventType) : Rand Society :=
  match event with
  | social_type =>
      let (s', e) := _execute_social_event s in ret (add_event s' e)
  | economic_type =>
      r <- _execute_economic_event s ;; ret (add_event (fst r) (snd r))
  end.

(** Step 3. *)
Definition bias_agent (s : Society) (agent : Agent) : Agent :=
  let bias := policy_levers s attribution_bias in
  let M_coef := 0.2 in
  let F_coef := 0.3 in
  let P_coef := 0.1 in
  let relative_power_advantage :=
    (power agent - average_power s) / py_max 0.001 (average_power s) in
  let bias_factor :=
    match gender agent with
    | male => (1 + M_coef * bias) * (1 + P_coef * relative_power_advantage)
    | female => (1 - F_coef * bias) * (1 + P_coef * relative_power_advantage)
    end in
  set_power agent (py_max 0 (power agent * bias_factor)).

Definition _apply_attribution_bias (s : Society) : Society :=
  set_agents s (map (bias_agent s) (agents s)).

(** Step 4.  The collecting loop, threading [total_tax]. *)
Fixpoint collect_tax (average tax_rate : Q) (l : list Agent) (total_tax : Q)
    : list Agent * Q :=
  match l with
  | [] => ([], total_tax)
  | agent :: rest =>
      if Qltb (average * 0.5) (wealth agent) then
        let tax_multiplier := py_max 0 (wealth agent / average - 0.5) in
        let tax_amount := wealth agent * tax_rate * tax_multiplier in
        let (rest', total) :=
          collect_tax average tax_rate rest (total_tax + tax_amount) in
        (set_wealth agent (wealth agent - tax_amount) :: rest', total)
      else
        let (rest', total) := collect_tax average tax_rate rest total_tax in
        (agent :: rest', total)
  end.

Definition _execute_tax_redistribution (s : Society) : Society :=
  let tax_rate := policy_levers s tax_redistribution in
  if Qle_bool tax_rate 0 then s
  else
    let (taxed, total_tax) :=
      collect_tax (average_wealth s) tax_rate (agents s) 0 in
    if Qltb 0 total_tax then
      let redistribution_per_person := total_tax / len (agents s) in
      set_agents s
        (map (fun agent =>
                set_wealth agent (wealth agent + redistribution_per_person))
           taxed)
    else set_agents s taxed.

(** Step 5. *)
Definition grow_agent (base : Q) (current : Z) (agent : Agent) : Agent :=
  let skill_bonus :=
    0.02 * (competition_skill agent + care_skill agent) / 2 in
  let growth_rate := base + skill_bonus in
  let new_wealth := wealth agent * (1 + growth_rate) in
  let sanction := get_total_sanction_effects agent in
  let new_wealth := new_wealth - total_wealth_loss sanction in
  let new_wealth :=
    if Qltb 0.9 new_wealth then new_wealth * 0.98 else new_wealth in
  let agent := update_wealth agent new_wealth in
  let agent := update_power agent in
  let agent :=
    set_power agent (py_max 0 (power agent - total_power_loss sanction)) in
  update_sanction_effects agent current.

Definition _update_wealth_power (s : Society) : Society :=
  let base := get_default (base_growth_rate (config s)) 0.01 in
  set_agents s (map (grow_agent base (current_round s)) (agents s)).

(** Step 6. *)
Definition sanction_agent (s : Society) (sanction_lever threshold : Q)
    (agent : Agent) : Agent :=
  let deviation :=
    Qabs (inject_Z (ideology_value agent) - average_ideology s) in
  if Qltb threshold deviation then
    let sanction_intensity := sanction_lever * deviation ^ 2 in
    add_sanction_effect agent sanction_intensity (current_round s)
  else agent.

Definition _execute_social_sanctions (s : Society) : Society :=
  let sanction_lever := policy_levers s social_sanction in
  let threshold := get_default (sanction_trigger_threshold (config s)) 0.4 in
  set_agents s (map (sanction_agent s sanction_lever threshold) (agents s)).

Definition _run_single_round (s : Society) : Rand Society :=
  s1 <- _core_circle_voting s ;;
  event <- _trigger_event s1 ;;
  s2 <- _execute_event s1 event ;;
  let s3 := _apply_attribution_bias s2 in
  let s4 := _execute_tax_redistribution s3 in
  let s5 := _update_wealth_power s4 in
  let s6 := _execute_social_sanctions s5 in
  ret (update_statistics s6).

(** ** Operations of every tenth round *)

Definition _find_learning_target (agent : Agent)
    (successful_agents : list Agent) : Rand (option Agent) :=
  let both :=
    filter (fun a => Gender_eqb (gender a) (gender agent)
                     && ClassLevel_eqb (class_level a) (class_level agent))
      successful_agents in
  let same_gender :=
    filter (fun a => Gender_eqb (gender a) (gender agent)) successful_agents in
  let same_class :=
    filter (fun a => ClassLevel_eqb (class_level a) (class_level agent))
      successful_agents in
  match both, same_gender, same_class with
  | _ :: _, _, _ => random_choice both
  | [], _ :: _, _ => random_choice same_gender
  | [], [], _ :: _ => random_choice same_class
  | [], [], [] =>
      match successful_agents with
      | [] => ret None
      | _ => random_choice successful_agents
      end
  end.

(** The loop of [_execute_learning_imitation].  Only agents outside the
    success cohort are written, and only cohort members are read as targets,
    so the cohort's attributes are those at the start of the loop. *)
Definition learn_one (rate : Q) (cohort : list nat)
    (successful_agents : list Agent) (ia : nat * Agent) : Rand Agent :=
  let (i, agent) := ia in
  if existsb (Nat.eqb i) cohort then ret agent
  else
    learning_target <- _find_learning_target agent successful_agents ;;
    match learning_target with
    | Some target => ret (learn_from_successful_agent agent target rate)
    | None => ret agent
    end.

Definition _execute_learning_imitation (s : Society) : Rand Society :=
  let rate := get_default (learning_rate (config s)) 0.1 in
  let success_threshold := py_int (len (agents s) * 0.2) in
  let cohort :=
    firstn (Z.to_nat success_threshold) (ranked_by_power (agents s)) in
  let successful_agents := deref (agents s) cohort in
  match successful_agents with
  | [] => ret s
  | _ =>
      l <- mapM (learn_one rate cohort successful_agents)
             (enumerate (agents s)) ;;
      ret (set_agents s l)
  end.

Definition in_P_F (i : Ideology) : bool :=
  Ideology_eqb i P || Ideology_eqb i F.

(** The third rule of the conversion loop (cognitive dissonance). *)
Definition dissonance (current : Z) (personal_benefit : Q) (agent : Agent)
    : Rand Agent :=
  if in_P_F (ideology agent) then
    if Qltb personal_benefit (-0.1) then
      u <- random_random ;;
      if Qltb u 0.1 then
        let new_ideology := if Ideology_eqb (ideology agent) P then F else P in
        ret (fst (change_ideology agent new_ideology current))
      else ret agent
    else ret agent
  else ret agent.

(** The second and third rules (rational choice, then dissonance). *)
Definition rational_choice (current : Z) (personal_benefit : Q) (agent : Agent)
    : Rand Agent :=
  if Ideology_eqb (ideology agent) U then
    let target :=
      if Gender_eqb (gender agent) male
         && (ClassLevel_eqb (class_level agent) middle
             || ClassLevel_eqb (class_level agent) high) then Some P
      else if Gender_eqb (gender agent) female then Some F
      else None in
    match target with
    | None => ret agent
    | Some target_ideology =>
        u <- random_random ;;
        if Qltb u 0.2 then
          ret (fst (change_ideology agent target_ideology current))
        else dissonance current personal_benefit agent
    end
  else dissonance current personal_benefit agent.

(** One iteration of the loop of [_execute_ideology_conversion]. *)
Definition convert_agent (current : Z) (agent : Agent) : Rand Agent :=
  if (current - last_ideology_change agent <? 3)%Z then ret agent
  else
    let personal_benefit := (wealth agent - 0.5) + (power agent - 0.5) in
    if in_P_F (ideology agent) && Qltb personal_benefit (-0.2) then
      u <- random_random ;;
      if Qltb u 0.3 then ret (fst (change_ideology agent U current))
      else rational_choice current personal_benefit agent
    else rational_choice current personal_benefit agent.

Definition _execute_ideology_conversion (s : Society) : Rand Society :=
  l <- mapM (convert_agent (current_round s)) (agents s) ;;
  ret (set_agents s l).

Fixpoint mobility_loop (class_averages : ClassLevel -> Q) (l : list Agent)
    : list Agent * list MobilityChange :=
  match l with
  | [] => ([], [])
  | agent :: rest =>
      let new_class := check_class_mobility agent class_averages in
      let (rest', changes) := mobility_loop class_averages rest in
      if ClassLevel_eqb new_class (class_level agent) then
        (agent :: rest', changes)
      else
        (set_class_level agent new_class :: rest',
         mkChange (id agent) (class_level agent) new_class (wealth agent)
           :: changes)
  end.

Definition _check_class_mobility (s : Society) : Society :=
  let class_averages := fun c => avg_wealth (class_stats s c) in
  let (l, mobility_changes) := mobility_loop class_averages (agents s) in
  match mobility_changes with
  | [] => set_agents s l
  | _ =>
      add_event (set_agents s l)
        (class_mobility mobility_changes (length mobility_changes))
  end.

Definition _run_periodic_operations (s : Society) : Rand Society :=
  s1 <- _execute_learning_imitation s ;;
  s2 <- _execute_ideology_conversion s1 ;;
  let s3 := update_core_decision_circle s2 in
  ret (_check_class_mobility s3).

(** The body of the loop of [run_simulation] for [round_num]. *)
Definition run_round (sim : SocialSimulation) (round_num : Z)
    : Rand SocialSimulation :=
  let s := set_current_round (society sim) round_num in
  s <- _run_single_round s ;;
  let recorded := rounds sim ++ [to_dict s] in
  if (round_num mod 10 =? 0)%Z then
    s' <- _run_periodic_operations s ;; ret (mkSimulation s' recorded)
  else ret (mkSimulation s recorded).

(** [for round_num in range(first, first + n)] *)
Fixpoint run_rounds (sim : SocialSimulation) (first : Z) (n : nat)
    : Rand SocialSimulation :=
  match n with
  | O => ret sim
  | S n' => sim' <- run_round sim first ;; run_rounds sim' (first + 1) n'
  end.

Definition run_simulation (sim : SocialSimulation) (max_rounds_arg : Z)
    : Rand SocialSimulation :=
  run_rounds sim 1 (Z.to_nat max_rounds_arg).

(** A complete run as the configuration panel starts it:
    [SocialSimulation(config)] followed by
    [run_simulation(max_rounds=config['max_rounds'])]. *)
Definition complete_run (c : Config) : Rand SocialSimulation :=
  sim <- _initialize_society c ;; run_simulation sim (max_rounds c).

(** The sequence of [social_equality] values of the recorded snapshots. *)
Definition equality_trajectory (sim : SocialSimulation) : list Q :=
  map snap_social_equality (rounds sim).

(** ** Concrete members, populations, configurations and generator states *)

(** The options of the configuration panel at their defaults (seed 42, 200
    rounds), for a given population and tax rate. *)
Definition panel_config (population : Z) (tax : Q) : Config :=
  mkConfig population 0.4 0.6 0.6 0.4 0.15
    (fun k =>
       Some match k with
            | competition_reward => 1.0
            | care_reward => 1.0
            | tax_redistribution => tax
            | attribution_bias => 0.0
            | social_sanction => 0.3
            end)
    (Some 0.01) (Some 0.1) (Some 0.4) 200 42.

(** Fifty members of the low class with rising wealth. *)
Definition fifty_members : list Agent :=
  map (fun i =>
         fresh_agent i female low 0.5 0.5
           (0.05 + inject_Z (Z.of_nat i) * 0.005) U)
    (seq 0 50).

Definition society_of_fifty : Society :=
  blank_SocietyState fifty_members (panel_config 50 0.2).

Definition society_of_none : Society :=
  blank_SocietyState [] (panel_config 0 0.2).

(** A generator state given by the first variates of each generator; both
    continue with 0.5. *)
Definition oracle (py np : list Q) : RandomState :=
  mkRandom (fun n => nth n py 0.5) 0 (fun n => nth n np 0.5) 0.

(** Variates of [random]: nine draws that make [shuffle] leave up to ten
    elements in place, then 0.5 for ever. *)
Definition py_steady (n : nat) : Q := if (n <? 9)%nat then 0.99 else 0.5.

(** Variates of [numpy.random] for up to ten constructions of an agent (four
    draws each: two skills at their means, a wealth two deviations below the
    class mean, or above it from the tenth agent on, and ideologies in turn),
    then 0.5 for ever. *)
Definition np_extreme (n : nat) : Q :=
  if (n <? 40)%nat then
    match (n mod 4)%nat with
    | 2%nat => if (n / 4 <? 9)%nat then -2 else 2
    | 3%nat => inject_Z (Z.of_nat ((n / 4) mod 3)) / 3
    | _ => 0
    end
  else 0.5.

(** The same, with every wealth at its class mean. *)
Definition np_central (n : nat) : Q :=
  if (n <? 40)%nat then
    match (n mod 4)%nat with
    | 3%nat => inject_Z (Z.of_nat ((n / 4) mod 3)) / 3
    | _ => 0
    end
  else 0.5.

Definition extreme_generators : RandomState := mkRandom py_steady 0 np_extreme 0.
Definition central_generators : RandomState := mkRandom py_steady 0 np_central 0.

(** Fifty members in the class shares of the source (30 low, 15 middle, 5
    high), each at an end of the wealth band of its class: 0.05, 0.2 and
    1.0. *)
Definition skewed_fifty : list Agent :=
  map (fun i => fresh_agent i female low 0.6 0.4 0.05 U) (seq 0 30)
  ++ map (fun i => fresh_agent i female middle 0.6 0.4 0.2 U) (seq 30 15)
  ++ map (fun i => fresh_agent i female high 0.6 0.4 1.0 U) (seq 45 5).

(** Their society with the averages computed, at a tax rate of 0.3. *)
Definition skewed_society : Society :=
  _update_basic_stats (blank_SocietyState skewed_fifty (panel_config 50 0.3)).

(** The same society at a tax rate of 0. *)
Definition untaxed_society : Society :=
  _update_basic_stats (blank_SocietyState skewed_fifty (panel_config 50 0)).

(** Steps 1 to 4 of [_run_single_round]: the state that step 5 receives. *)
Definition steps_1_to_4 (s : Society) : Rand Society :=
  s1 <- _core_circle_voting s ;;
  event <- _trigger_event s1 ;;
  s2 <- _execute_event s1 event ;;
  let s3 := _apply_attribution_bias s2 in
  ret (_execute_tax_redistribution s3).

(** The first round of a simulation of ten members up to its tax step. *)
Definition first_round_after_tax (g : RandomState) : Society :=
  let (sim, g') := _initialize_society (panel_config 10 0.3) g in
  fst (steps_1_to_4 (set_current_round (society sim) 1) g').

(** The first three rounds of a simulation of two members without tax. *)
Definition three_rounds (g : RandomState) : SocialSimulation :=
  let (sim, g') := _initialize_society (panel_config 2 0) g in
  fst (run_rounds sim 1 3 g').

(** The power formula on a recorded member. *)
Definition formula_of_record (d : AgentDict) : Q :=
  0.5 * d_wealth d + 0.25 * d_competition_skill d + 0.25 * d_care_skill d.

(** A member of ideology P whose wealth and power are low. *)
Definition frustrated_member : Agent := fresh_agent 0 male low 0.3 0.5 0.2 P.

(** A member that changed ideology at round 8. *)
Definition recent_convert : Agent :=
  fst (change_ideology frustrated_member U 8).

Definition society_of_one : Society :=
  set_current_round
    (blank_SocietyState [frustrated_member] (panel_config 1 0.2)) 10.

(** The total wealth of a population. *)
Definition total_wealth (l : list Agent) : Q := py_sum (map wealth l).

(** All wealths of a list are identical. *)
Definition all_identical (ws : list Q) : Prop :=
  forall x y, In x ws -> In y ws -> x == y.

(** ** Further operations and predicates *)

(** The boundary handling that ends [vote_on_policy]: a value beyond a bound
    is moved to the bound plus a tenth of the excess, and the result is
    clamped. *)
Definition apply_bounds (policy_name : PolicyName) (new_value : Q) : Q :=
  let '(min_val, max_val) := policy_bounds policy_name in
  let new_value :=
    if Qltb max_val new_value then max_val + (new_value - max_val) * 0.1
    else if Qltb new_value min_val then
      min_val + (min_val - new_value) * 0.1
    else new_value in
  py_max min_val (py_min max_val new_value).

(** A lever value inside the bounds of its policy. *)
Definition within_bounds (policy_name : PolicyName) (v : Q) : Prop :=
  fst (policy_bounds policy_name) <= v /\ v <= snd (policy_bounds policy_name).

(** The adjustment magnitude a moving vote draws from the state [g]. *)
Definition drawn_adjustment (g : RandomState) : Q :=
  py_min 0.2 (0.05 + (0.2 - 0.05) * np_draws g (np_pos g)).

(** A simulation about to run its first round over fifty members. *)
Definition fifty_simulation : SocialSimulation :=
  mkSimulation (update_core_decision_circle society_of_fifty) [].

(** The attributes of a member other than its two skills. *)
Definition apart_from_skills (a : Agent) :=
  (id a, gender a, class_level a, wealth a, power a, ideology a,
   ideology_value a, sanction_effects a, last_ideology_change a,
   wealth_history a, power_history a, ideology_history a).

(** The attributes of a member other than its class. *)
Definition apart_from_class (a : Agent) :=
  (id a, gender a, care_skill a, competition_skill a, wealth a, power a,
   ideology a, ideology_value a, sanction_effects a, last_ideology_change a,
   wealth_history a, power_history a, ideology_history a).

(** The class averages that [_check_class_mobility] reads from the class
    statistics. *)
Definition class_averages_of (s : Society) : ClassLevel -> Q :=
  fun c => avg_wealth (class_stats s c).

(** Whether [check_class_mobility] moves a member. *)
Definition moves (class_averages : ClassLevel -> Q) (a : Agent) : bool :=
  negb (ClassLevel_eqb (check_class_mobility a class_averages)
          (class_level a)).

(** A member of the middle class with wealth 0.9. *)
Definition rich_middle_member : Agent :=
  fresh_agent 1 female middle 0.6 0.4 0.9 F.

(** What a round has no business with: identity, gender, class, skills,
    ideology and its bookkeeping. *)
Definition standing (a : Agent) :=
  (id a, gender a, class_level a, care_skill a, competition_skill a,
   ideology a, ideology_value a, last_ideology_change a, ideology_history a).

(** Identity and gender. *)
Definition who (a : Agent) := (id a, gender a).

(** A society in which the rich middle member has not yet any statistics. *)
Definition society_with_riser : Society :=
  blank_SocietyState [rich_middle_member] (panel_config 1 0.2).

(** [range(first, first + n)] *)
Fixpoint py_range (first : Z) (n : nat) : list Z :=
  match n with
  | O => []
  | S n' => first :: py_range (first + 1) n'
  end.

(** Identity and gender as a snapshot records them. *)
Definition snap_who (d : AgentDict) := (d_id d, d_gender d).

(** The events that step 1 and step 2 of a round record. *)
Definition is_policy_change (e : Event) : bool :=
  match body e with
  | policy_change _ _ _ _ => true
  | _ => false
  end.

Definition is_round_event (e : Event) : bool :=
  match body e with
  | social _ _ _ => true
  | economic _ _ => true
  | _ => false
  end.

Definition is_class_mobility (e : Event) : bool :=
  match body e with
  | class_mobility _ _ => true
  | _ => false
  end.

(** The list [gender_class_combinations] that [_initialize_society] builds
    before shuffling it. *)
Definition gender_class_combinations (c : Config)
    : list (Gender * ClassLevel) :=
  let total := total_population c in
  let low_count := py_int (inject_Z total * 0.6) in
  let middle_count := py_int (inject_Z total * 0.3) in
  let high_count := (total - low_count - middle_count)%Z in
  flat_map
    (fun '(cl, class_count) =>
       let class_male := py_int (inject_Z class_count * 0.5) in
       let class_female := (class_count - class_male)%Z in
       times (male, cl) class_male ++ times (female, cl) class_female)
    [(low, low_count); (middle, middle_count); (high, high_count)].

(** The number of members of a gender and class. *)
Definition members_of (g : Gender) (cl : ClassLevel) (l : list Agent) : nat :=
  length
    (filter (fun a => Gender_eqb (gender a) g
                      && ClassLevel_eqb (class_level a) cl) l).

(** Both skills of a member in [0,1], in a member and in its snapshot. *)
Definition skills_in_range (a : Agent) : Prop :=
  (0 <= care_skill a /\ care_skill a <= 1) /\
  (0 <= competition_skill a /\ competition_skill a <= 1).

Definition snap_skills_in_range (d : AgentDict) : Prop :=
  (0 <= d_care_skill d /\ d_care_skill d <= 1) /\
  (0 <= d_competition_skill d /\ d_competition_skill d <= 1).

(** The head count that [_initialize_society] gives to a class: 60% and 30%
    of the population, truncated, for the low and the middle class, and the
    rest for the high class. *)
Definition class_count (c : Config) (cl : ClassLevel) : Z :=
  let total := total_population c in
  let low_count := py_int (inject_Z total * 0.6) in
  let middle_count := py_int (inject_Z total * 0.3) in
  match cl with
  | low => low_count
  | middle => middle_count
  | high => (total - low_count - middle_count)%Z
  end.

(** Gender and class. *)
Definition gender_class (a : Agent) : Gender * ClassLevel :=
  (gender a, class_level a).

Definition gender_class_eqb (p q : Gender * ClassLevel) : bool :=
  Gender_eqb (fst p) (fst q) && ClassLevel_eqb (snd p) (snd q).



(** The attributes of a member other than its ideology and the bookkeeping
    of the ideology. *)
Definition apart_from_ideology (a : Agent) :=
  (id a, gender a, class_level a, care_skill a, competition_skill a,
   wealth a, power a, sanction_effects a, wealth_history a, power_history a).

(** A member as the conversion step may leave it: as it was, or with
    another ideology, the code of that ideology, the current round as the
    round of its last change and one more entry in its ideology history. *)
Definition converted_or_same (r : Z) (a a' : Agent) : Prop :=
  a' = a \/
  (ideology a' <> ideology a /\
   ideology_value a' = ideology_values (ideology a') /\
   last_ideology_change a' = r /\
   ideology_history a' = ideology_history a ++ [ideology a'] /\
   (3 <= r - last_ideology_change a)%Z).

(** The positions of the success cohort of [_execute_learning_imitation]. *)
Definition success_cohort (s : Society) : list nat :=
  firstn (Z.to_nat (py_int (len (agents s) * 0.2)))
    (ranked_by_power (agents s)).

(** ** Counts and percentages ([core/society.py]) *)

(** An entry [{'count': ..., 'percentage': ...}]. *)
Record Share := mkShare {
  share_count : Z;
  share_percentage : Q
}.

(** The loop [for agent in ...: counts[key(agent)] += 1] over a dictionary
    of zeros. *)
Definition count_up {K} (eqb : K -> K -> bool) (key : Agent -> K)
    (members : list Agent) : K -> Z :=
  fold_left
    (fun counts agent =>
       fun k => if eqb k (key agent) then (counts k + 1)%Z else counts k)
    members (fun _ => 0%Z).

(** [_update_ideology_stats]: the value it stores in [ideology_stats]. *)
Definition _update_ideology_stats (s : Society) : Ideology -> Share :=
  let ideology_counts := count_up Ideology_eqb ideology (agents s) in
  let total := Z.of_nat (length (agents s)) in
  fun i =>
    mkShare (ideology_counts i)
      (if (0 <? total)%Z then inject_Z (ideology_counts i) / inject_Z total
       else 0).

(** [get_core_circle_composition]; [None] stands for the three empty
    dictionaries returned for an empty circle. *)
Record Composition := mkComposition {
  of_gender : Gender -> Share;
  of_ideology : Ideology -> Share;
  of_class : ClassLevel -> Share
}.

Definition get_core_circle_composition (s : Society) : option Composition :=
  match core_decision_circle s with
  | [] => None
  | _ =>
      let total := Z.of_nat (length (core_decision_circle s)) in
      let male_count :=
        Z.of_nat
          (length (filter (fun a => Gender_eqb (gender a) male)
                     (circle_members s))) in
      let female_count := (total - male_count)%Z in
      let ideology_counts :=
        count_up Ideology_eqb ideology (circle_members s) in
      let class_counts :=
        count_up ClassLevel_eqb class_level (circle_members s) in
      let share := fun n => mkShare n (inject_Z n / inject_Z total) in
      Some (mkComposition
              (fun g => match g with
                        | male => share male_count
                        | female => share female_count
                        end)
              (fun i => share (ideology_counts i))
              (fun c => share (class_counts c)))
  end.

(** The three histories of a member. *)
Definition histories (a : Agent) :=
  (wealth_history a, power_history a, ideology_history a).

(** A snapshot whose statistics are those of the members it lists: the
    equality index of their wealths, the means of their wealth, power and
    numeric ideology, and, for every class, the number of its members, split
    by gender. *)
Definition snapshot_consistent (snap : Snapshot) : Prop :=
  let members := snap_agents snap in
  snap_social_equality snap = equality_index (map d_wealth members) /\
  (members <> [] ->
   snap_average_wealth snap = np_mean (map d_wealth members) /\
   snap_average_power snap = np_mean (map d_power members) /\
   snap_average_ideology snap
   = np_mean (map (fun d => inject_Z (d_ideology_value d)) members)) /\
  (forall c,
     count (snap_class_stats snap c)
     = length (filter (fun d => ClassLevel_eqb (d_class_level d) c) members) /\
     (male_count (snap_class_stats snap c)
      + female_count (snap_class_stats snap c))%nat
     = count (snap_class_stats snap c)).

(** ** Binary64 twins

    Where a property turns on the rounding of the source's floats, the
    function is embedded a second time on IEEE 754 binary64 numbers, the
    arithmetic of Python's [float] and of [numpy.float64].  A decimal
    literal denotes the nearest binary64 number, as it does in Python. *)

(** [float(n)] for a count [n]; exact below 2^53. *)
Fixpoint float_of_nat (n : nat) : float :=
  match n with
  | O => 0
  | S n' => float_of_nat n' + 1
  end%float.

Definition py_max_binary64 (a b : float) : float :=
  if (a <? b)%float then b else a.
Definition py_min_binary64 (a b : float) : float :=
  if (b <? a)%float then b else a.

(** [np.mean] of fewer than eight numbers, which numpy adds in order. *)
Definition np_mean_binary64 (l : list float) : float :=
  (fold_left PrimFloat.add l 0 / float_of_nat (length l))%float.

Definition total_diff_binary64 (wealths : list float) : float :=
  fold_left
    (fun acc wi =>
       fold_left (fun acc wj => (acc + abs (wi - wj))%float) wealths acc)
    wealths 0%float.

Definition _calculate_gini_coefficient_binary64 (wealths : list float)
    : float :=
  if (length wealths <? 2)%nat then 0%float
  else
    let n := length wealths in
    let mean_wealth := np_mean_binary64 wealths in
    if (mean_wealth =? 0)%float then 0%float
    else
      let gini :=
        (total_diff_binary64 wealths
         / (float_of_nat (2 * n * n) * mean_wealth))%float in
      py_min_binary64 1.0 gini.

(** The value [_calculate_social_equality] stores. *)
Definition equality_index_binary64 (wealths : list float) : float :=
  match wealths with
  | [] => 0%float
  | _ =>
      let gini := _calculate_gini_coefficient_binary64 wealths in
      py_max_binary64 0 (py_min_binary64 1 (1 - gini))
  end.

(** The probability of a social event and the choice of [_trigger_event],
    for an equality index and a draw. *)
#[warnings="-inexact-float"]
Definition social_event_prob_binary64 (social_equality : float) : float :=
  (0.4 + 0.2 * social_equality)%float.

Definition _trigger_event_binary64 (social_equality u : float) : EventType :=
  if (u <? social_event_prob_binary64 social_equality)%float then social_type
  else economic_type.

(** Two wealths that differ in the last binary digit: 1.0 and
    1.0000000000000002. *)
Definition nearly_equal_wealths : list float :=
  [1; 0x1.0000000000001p+0]%float.

(** The binary64 number that the literal 0.6 denotes. *)
#[warnings="-inexact-float"]
Definition draw_of_six_tenths : float := 0.6%float.

(** * Properties *)

(** ** Comparisons, [max], [min] and sums *)

Lemma Qltb_lt (x y : Q) : Qltb x y = true <-> x < y.
Proof.
  unfold Qltb. rewrite negb_true_iff, <- not_true_iff_false, Qle_bool_iff.
  split; [apply Qnot_le_lt | apply Qlt_not_le].
Qed.

Lemma Qltb_ge (x y : Q) : Qltb x y = false <-> y <= x.
Proof.
  unfold Qltb. rewrite negb_false_iff. apply Qle_bool_iff.
Qed.

Lemma py_max_case (a b : Q) :
  (a < b /\ py_max a b = b) \/ (b <= a /\ py_max a b = a).
Proof.
  unfold py_max. destruct (Qltb a b) eqn:E.
  - left. split; [now apply Qltb_lt | reflexivity].
  - right. split; [now apply Qltb_ge | reflexivity].
Qed.

Lemma py_min_case (a b : Q) :
  (b < a /\ py_min a b = b) \/ (a <= b /\ py_min a b = a).
Proof.
  unfold py_min. destruct (Qltb b a) eqn:E.
  - left. split; [now apply Qltb_lt | reflexivity].
  - right. split; [now apply Qltb_ge | reflexivity].
Qed.

Lemma py_max_lower (a b : Q) : a <= py_max a b.
Proof. destruct (py_max_case a b) as [[H ->] | [H ->]]; lra. Qed.

Lemma fold_left_Qplus (l : list Q) (a : Q) :
  fold_left Qplus l a == a + py_sum l.
Proof.
  unfold py_sum. revert a. induction l as [| x l IH]; intros a; simpl.
  - lra.
  - rewrite (IH (a + x)), (IH (0 + x)). lra.
Qed.

Lemma py_sum_cons (x : Q) (l : list Q) : py_sum (x :: l) == x + py_sum l.
Proof. unfold py_sum at 1. simpl. rewrite fold_left_Qplus. lra. Qed.

Lemma py_sum_app (l1 l2 : list Q) : py_sum (l1 ++ l2) == py_sum l1 + py_sum l2.
Proof.
  induction l1 as [| x l1 IH]; simpl.
  - unfold py_sum at 2. simpl. lra.
  - rewrite !py_sum_cons, IH. lra.
Qed.

(** ** Sanction effects *)

Lemma active_effects_app (r : Z) (l1 l2 : list SanctionEffect) :
  active_effects r (l1 ++ l2) = active_effects r l1 ++ active_effects r l2.
Proof.
  induction l1 as [| e l1 IH]; simpl; [reflexivity |].
  destruct (decay_effect r e); simpl; now rewrite IH.
Qed.

(** Updating twice keeps what the later round keeps of the survivors of the
    earlier one, each rewritten from its base losses. *)
Lemma decay_effect_base (r r' : Z) (e e' : SanctionEffect) :
  decay_effect r e = Some e' -> decay_effect r' e' = decay_effect r' e.
Proof.
  unfold decay_effect.
  destruct (r - start_round e <? duration e)%Z; [| discriminate].
  intros [= <-]. reflexivity.
Qed.

(** C4.  A sanction of intensity 1.0 added at round 5 adds 0.08, 0.04 and
    0.02 to the total power loss reported after [update_sanction_effects(r)]
    for r = 5, 6, 7, and nothing for r = 8, where the effect is removed: the
    member's effects are then those it would have without the sanction.  This
    holds for a call at round r alone and for the calls made in turn at
    rounds 5, 6, 7, 8; for a member with no other effect the totals are
    0.08, 0.04 and 0.02, and at round 8 the list of effects is empty and the
    total is 0. *)
Theorem sanction_decay_schedule (a : Agent) :
  let a' := add_sanction_effect a 1.0 5 in
  let loss x := total_power_loss (get_total_sanction_effects x) in
  let upd := update_sanction_effects in
  (loss (upd a' 5%Z) == loss (upd a 5%Z) + 0.08 /\
   loss (upd a' 6%Z) == loss (upd a 6%Z) + 0.04 /\
   loss (upd a' 7%Z) == loss (upd a 7%Z) + 0.02 /\
   upd a' 8%Z = upd a 8%Z) /\
  (loss (upd (upd a' 5%Z) 6%Z) == loss (upd (upd a 5%Z) 6%Z) + 0.04 /\
   loss (upd (upd (upd a' 5%Z) 6%Z) 7%Z)
     == loss (upd (upd (upd a 5%Z) 6%Z) 7%Z) + 0.02 /\
   upd (upd (upd (upd a' 5%Z) 6%Z) 7%Z) 8%Z
     = upd (upd (upd (upd a 5%Z) 6%Z) 7%Z) 8%Z) /\
  (sanction_effects a = [] ->
   loss (upd a' 5%Z) == 0.08 /\
   loss (upd a' 6%Z) == 0.04 /\
   loss (upd a' 7%Z) == 0.02 /\
   sanction_effects (upd a' 8%Z) = [] /\
   loss (upd a' 8%Z) == 0).
Proof.
  cbv zeta. rewrite <- and_assoc. split.
  2:{ intros E.
      unfold update_sanction_effects, add_sanction_effect,
        get_total_sanction_effects; simpl.
      rewrite E. simpl. repeat split; unfold py_sum; simpl; lra. }
  unfold update_sanction_effects, add_sanction_effect,
    get_total_sanction_effects; simpl.
  repeat (rewrite active_effects_app; simpl).
  rewrite ?map_app, ?py_sum_app, ?app_nil_r; simpl.
  repeat split; unfold py_sum; simpl; lra.
Qed.

(** C10.  An effect just appended by [add_sanction_effect] adds nothing to
    the power-loss and wealth-loss sums of [get_total_sanction_effects]: the
    totals of the member are those from before the call, whatever the
    intensity and the round. *)
Theorem fresh_effect_contributes_nothing (a : Agent) (i : Q) (r : Z) :
  total_power_loss (get_total_sanction_effects (add_sanction_effect a i r))
    == total_power_loss (get_total_sanction_effects a) /\
  total_wealth_loss (get_total_sanction_effects (add_sanction_effect a i r))
    == total_wealth_loss (get_total_sanction_effects a).
Proof.
  unfold get_total_sanction_effects, add_sanction_effect; simpl.
  rewrite !map_app, !py_sum_app; simpl.
  assert (E : py_sum [0] == 0) by (unfold py_sum; simpl; lra).
  rewrite E. split; lra.
Qed.

(** ** Ideology change *)

(** C5.  [change_ideology(new, round)] with round - last_ideology_change < 3
    returns False and leaves the member as it was; otherwise it returns True,
    the ideology is [new], the numeric value is the mapping of [new], the
    last-change round is [round], [new] is appended to the ideology history,
    and nothing else changes. *)
Theorem change_ideology_cooldown (a : Agent) (new : Ideology) (r : Z) :
  ((r - last_ideology_change a < 3)%Z ->
     change_ideology a new r = (a, false)) /\
  ((3 <= r - last_ideology_change a)%Z ->
     let a' := fst (change_ideology a new r) in
     snd (change_ideology a new r) = true /\
     ideology a' = new /\
     ideology_value a' = ideology_values new /\
     last_ideology_change a' = r /\
     ideology_history a' = ideology_history a ++ [new] /\
     (id a', gender a', class_level a', care_skill a', competition_skill a',
      wealth a', power a', sanction_effects a', wealth_history a',
      power_history a')
     = (id a, gender a, class_level a, care_skill a, competition_skill a,
        wealth a, power a, sanction_effects a, wealth_history a,
        power_history a)).
Proof.
  unfold change_ideology. split; intros H.
  - destruct (3 <=? r - last_ideology_change a)%Z eqn:E;
      [apply Z.leb_le in E; lia | reflexivity].
  - destruct (3 <=? r - last_ideology_change a)%Z eqn:E;
      [| apply Z.leb_gt in E; lia].
    simpl. repeat split.
Qed.

(** ** Tax collection and redistribution *)

Lemma tax_amount_nonneg (average tax_rate w : Q) :
  ~ average == 0 -> 0 < tax_rate -> average * 0.5 < w ->
  0 <= w * tax_rate * py_max 0 (w / average - 0.5).
Proof.
  intros Hav Hrate Hw.
  destruct (py_max_case 0 (w / average - 0.5)) as [[Hm ->] | [Hm ->]];
    [| lra].
  assert (Hd : w / average * average == w) by (field; exact Hav).
  set (d := w / average) in *.
  assert (0 <= w) by nra.
  apply Qmult_le_0_compat; [apply Qmult_le_0_compat |]; lra.
Qed.

Lemma collect_tax_spec (average tax_rate : Q) (l : list Agent) (t : Q) :
  ~ average == 0 -> 0 < tax_rate ->
  total_wealth (fst (collect_tax average tax_rate l t))
    + snd (collect_tax average tax_rate l t) == total_wealth l + t
  /\ t <= snd (collect_tax average tax_rate l t)
  /\ length (fst (collect_tax average tax_rate l t)) = length l.
Proof.
  intros Hav Hrate. revert t.
  induction l as [| a l IH]; intros t; simpl.
  - repeat split; lra.
  - destruct (Qltb (average * 0.5) (wealth a)) eqn:E.
    + apply Qltb_lt in E.
      pose proof (tax_amount_nonneg average tax_rate (wealth a) Hav Hrate E)
        as Hn.
      set (amount := wealth a * tax_rate * py_max 0 (wealth a / average - 0.5))
        in *.
      specialize (IH (t + amount)).
      destruct (collect_tax average tax_rate l (t + amount)) as [l' t'].
      simpl in *. destruct IH as (IH1 & IH2 & IH3).
      unfold total_wealth in *. simpl. rewrite !py_sum_cons.
      repeat split; [lra | lra | now rewrite IH3].
    + specialize (IH t).
      destruct (collect_tax average tax_rate l t) as [l' t'].
      simpl in *. destruct IH as (IH1 & IH2 & IH3).
      unfold total_wealth in *. simpl. rewrite !py_sum_cons.
      repeat split; [lra | lra | now rewrite IH3].
Qed.

Lemma total_wealth_share (c : Q) (l : list Agent) :
  total_wealth (map (fun agent => set_wealth agent (wealth agent + c)) l)
    == total_wealth l + len l * c.
Proof.
  unfold total_wealth, len.
  induction l as [| a l IH].
  - cbn [map length]. change (inject_Z (Z.of_nat 0)) with 0.
    unfold py_sum; cbn [fold_left]. lra.
  - cbn [map length wealth set_wealth]. rewrite !py_sum_cons, IH.
    rewrite Nat2Z.inj_succ, <- Z.add_1_r, inject_Z_plus.
    change (inject_Z 1) with 1. lra.
Qed.

(** C8.  With a tax rate of 0 or less the tax step returns the society as it
    was, so no member's wealth changes.  For any rate the total wealth of the
    population is the same after the step as before it: what the collecting
    loop takes is handed back in equal shares.  (The pre-step average wealth
    divides every member's wealth in the collecting loop; an average of zero
    has no quotient in the source and is excluded.) *)
Theorem tax_step_preserves_total (s : Society) :
  (policy_levers s tax_redistribution <= 0 ->
     _execute_tax_redistribution s = s) /\
  (~ average_wealth s == 0 ->
     total_wealth (agents (_execute_tax_redistribution s))
       == total_wealth (agents s)).
Proof.
  unfold _execute_tax_redistribution. split.
  - intros H. apply Qle_bool_iff in H. now rewrite H.
  - intros Hav.
    destruct (Qle_bool (policy_levers s tax_redistribution) 0) eqn:E;
      [reflexivity |].
    assert (Hrate : 0 < policy_levers s tax_redistribution).
    { apply Qnot_le_lt. intros H. apply Qle_bool_iff in H. congruence. }
    pose proof (collect_tax_spec (average_wealth s) _ (agents s) 0 Hav Hrate)
      as (H1 & H2 & H3).
    destruct (collect_tax (average_wealth s)
                (policy_levers s tax_redistribution) (agents s) 0)
      as [taxed total_tax].
    simpl in *.
    destruct (Qltb 0 total_tax) eqn:Et; simpl.
    + apply Qltb_lt in Et. rewrite total_wealth_share.
      assert (Hlen : len taxed == len (agents s))
        by (unfold len; now rewrite H3).
      assert (Hpos : ~ len (agents s) == 0).
      { unfold len. destruct (agents s) as [| a l].
        - simpl in *. destruct taxed; [| discriminate].
          unfold total_wealth, py_sum in H1. simpl in H1. lra.
        - intros H. unfold Qeq in H. simpl in H. lia. }
      rewrite Hlen.
      setoid_replace (len (agents s) * (total_tax / len (agents s)))
        with total_tax by (field; exact Hpos).
      lra.
    + apply Qltb_ge in Et. lra.
Qed.

(** ** The elite circle *)

Section Sorting.
Context {A : Type} (key : A -> Q).

(** Descending order of the keys. *)
Local Abbreviation desc := (fun a b : A => key b <= key a).

Lemma insert_desc_perm (x : A) (l : list A) :
  Permutation (insert_desc key x l) (x :: l).
Proof.
  induction l as [| y l IH]; simpl; [reflexivity |].
  destruct (Qltb (key x) (key y)); [| reflexivity].
  rewrite IH. apply perm_swap.
Qed.

Lemma sorted_desc_perm (l : list A) : Permutation (sorted_desc key l) l.
Proof.
  induction l as [| x l IH]; simpl; [reflexivity |].
  rewrite insert_desc_perm. now constructor.
Qed.

Lemma insert_desc_sorted (x : A) (l : list A) :
  Sorted desc l -> Sorted desc (insert_desc key x l).
Proof.
  induction l as [| y l IH]; simpl; intros Hs.
  - repeat constructor.
  - destruct (Qltb (key x) (key y)) eqn:E.
    + apply Sorted_inv in Hs as [Hs Hd]. constructor; [now apply IH |].
      apply Qltb_lt in E.
      destruct l as [| z l]; simpl.
      * constructor. lra.
      * destruct (Qltb (key x) (key z)).
        -- constructor. now apply HdRel_inv in Hd.
        -- constructor. lra.
    + apply Qltb_ge in E. constructor; [assumption |].
      constructor. exact E.
Qed.

Lemma sorted_desc_sorted (l : list A) :
  StronglySorted desc (sorted_desc key l).
Proof.
  apply Sorted_StronglySorted.
  - intros a b c Hab Hbc. simpl in *. lra.
  - induction l as [| x l IH]; simpl; [constructor |].
    now apply insert_desc_sorted.
Qed.
End Sorting.

(** Sorting commutes with a projection that the key factors through. *)
Lemma insert_desc_map {A B} (f : A -> B) (key : B -> Q) (x : A) (l : list A) :
  map f (insert_desc (fun a => key (f a)) x l)
  = insert_desc key (f x) (map f l).
Proof.
  induction l as [| y l IH]; simpl; [reflexivity |].
  destruct (Qltb (key (f x)) (key (f y))); simpl; now rewrite ?IH.
Qed.

Lemma sorted_desc_map {A B} (f : A -> B) (key : B -> Q) (l : list A) :
  map f (sorted_desc (fun a => key (f a)) l) = sorted_desc key (map f l).
Proof.
  induction l as [| x l IH]; simpl; [reflexivity |].
  now rewrite insert_desc_map, IH.
Qed.

Lemma enumerate_from_snd {A} (i : nat) (l : list A) :
  map snd (enumerate_from i l) = l.
Proof.
  revert i. induction l as [| x l IH]; intros i; simpl; [reflexivity |].
  now rewrite IH.
Qed.

Lemma enumerate_from_In {A} (i j : nat) (a : A) (l : list A) :
  In (j, a) (enumerate_from i l) ->
  (i <= j)%nat /\ nth_error l (j - i) = Some a.
Proof.
  revert i. induction l as [| x l IH]; intros i; simpl; [tauto |].
  intros [[= <- <-] | H].
  - rewrite Nat.sub_diag. split; [lia | reflexivity].
  - apply IH in H as [Hle Hn]. split; [lia |].
    replace (j - i)%nat with (S (j - S i)) by lia. exact Hn.
Qed.

Lemma deref_positions (l : list Agent) (L : list (nat * Agent)) :
  (forall i a, In (i, a) L -> nth_error l i = Some a) ->
  deref l (map fst L) = map snd L.
Proof.
  unfold deref. induction L as [| [i a] L IH]; intros H; simpl;
    [reflexivity |].
  rewrite (H i a) by now left. simpl. f_equal.
  apply IH. intros j b Hj. apply H. now right.
Qed.

Lemma ranked_by_power_deref (l : list Agent) (k : nat) :
  deref l (firstn k (ranked_by_power l)) = firstn k (sorted_desc power l).
Proof.
  unfold ranked_by_power.
  set (L := sorted_desc (fun ia => power (snd ia)) (enumerate l)).
  assert (HL : map snd L = sorted_desc power l).
  { unfold L, enumerate.
    rewrite (sorted_desc_map snd power), enumerate_from_snd. reflexivity. }
  rewrite <- HL, !firstn_map.
  apply deref_positions. intros i a Hin.
  assert (Hin' : In (i, a) L).
  { rewrite <- (firstn_skipn k L). apply in_or_app. now left. }
  clear Hin. rename Hin' into Hin. unfold L in Hin.
  apply (Permutation_in _ (sorted_desc_perm _ _)) in Hin.
  apply enumerate_from_In in Hin as [_ Hn].
  now rewrite Nat.sub_0_r in Hn.
Qed.

Lemma py_int_len_scaled {A} (l : list A) (q : Q) :
  0 <= q -> py_int (len l * q) = Qfloor (len l * q).
Proof.
  intros Hq. unfold py_int.
  assert (H : 0 <= len l * q).
  { apply Qmult_le_0_compat; [| exact Hq].
    unfold len, Qle. simpl. lia. }
  apply Qltb_ge in H. now rewrite H.
Qed.

(** C1, as amended.  After a rebuild over a population of n members the
    circle has min(n, max(1, floor(n * 0.05))) members -- the size is
    truncated by [int], and floor(n * 0.05) is the integer quotient n / 20 --
    and its members are the first ones of the population sorted by power
    descending (a permutation of the population in which no member precedes
    one of greater power).  The population itself is unchanged. *)
Theorem elite_circle_rebuild (s : Society) :
  let s' := update_core_decision_circle s in
  let n := length (agents s) in
  let size := Z.to_nat (Z.max 1 (Qfloor (len (agents s) * 0.05))) in
  let ranking := sorted_desc power (agents s) in
  circle_members s' = firstn size ranking /\
  length (circle_members s') = Nat.min size n /\
  Qfloor (len (agents s) * 0.05) = (Z.of_nat n / 20)%Z /\
  Permutation ranking (agents s) /\
  StronglySorted (fun a b => power b <= power a) ranking /\
  agents s' = agents s.
Proof.
  cbv zeta.
  assert (Hc : circle_members (update_core_decision_circle s)
               = firstn (Z.to_nat (Z.max 1 (Qfloor (len (agents s) * 0.05))))
                   (sorted_desc power (agents s))).
  { unfold circle_members, update_core_decision_circle, circle_size; simpl.
    rewrite py_int_len_scaled by lra. apply ranked_by_power_deref. }
  repeat split.
  - exact Hc.
  - rewrite Hc, length_firstn.
    now rewrite (Permutation_length (sorted_desc_perm power (agents s))).
  - unfold len, Qfloor, Qmult, inject_Z; simpl.
    replace 100%Z with (5 * 20)%Z by reflexivity.
    rewrite Z.mul_comm. apply Z.div_mul_cancel_l; lia.
  - apply sorted_desc_perm.
  - apply (sorted_desc_sorted power).
Qed.

(** C1, the claim as stated fails.  Over fifty members the rebuilt circle has
    2 members, where max(1, ceil(50 * 0.05)) is 3; over an empty population
    it has none, where the claimed size is 1. *)
Lemma elite_circle_size_is_not_ceiling :
  length (circle_members (update_core_decision_circle society_of_fifty))
    = 2%nat /\
  Z.to_nat (Z.max 1 (Qceiling (len (agents society_of_fifty) * 0.05)))
    = 3%nat /\
  length (circle_members (update_core_decision_circle society_of_none))
    = 0%nat /\
  Z.to_nat (Z.max 1 (Qceiling (len (agents society_of_none) * 0.05)))
    = 1%nat.
Proof. vm_compute. repeat split. Qed.

(** ** The Gini coefficient and the equality index *)

Lemma fold_left_accumulate {A} (g : Q -> A -> Q) (h : A -> Q) (l : list A)
    (a : Q) :
  (forall acc x, g acc x == acc + h x) ->
  fold_left g l a == a + py_sum (map h l).
Proof.
  intros Hg. revert a. induction l as [| x l IH]; intros a; simpl.
  - unfold py_sum. simpl. lra.
  - rewrite IH, Hg, py_sum_cons. lra.
Qed.

(** The distances from one wealth to all of them, and their double sum. *)
Lemma total_diff_sum (ws : list Q) :
  total_diff ws
  == py_sum (map (fun wi => py_sum (map (fun wj => Qabs (wi - wj)) ws)) ws).
Proof.
  unfold total_diff.
  rewrite (fold_left_accumulate _
             (fun wi => py_sum (map (fun wj => Qabs (wi - wj)) ws))).
  - lra.
  - intros acc wi.
    apply (fold_left_accumulate _ (fun wj => Qabs (wi - wj))).
    intros; lra.
Qed.

Lemma py_sum_nonneg (l : list Q) :
  (forall x, In x l -> 0 <= x) -> 0 <= py_sum l.
Proof.
  induction l as [| x l IH]; intros H.
  - unfold py_sum. simpl. lra.
  - rewrite py_sum_cons.
    assert (0 <= x) by (apply H; now left).
    assert (0 <= py_sum l) by (apply IH; intros; apply H; now right).
    lra.
Qed.

Lemma py_sum_zero_iff (l : list Q) :
  (forall x, In x l -> 0 <= x) ->
  (py_sum l == 0 <-> forall x, In x l -> x == 0).
Proof.
  induction l as [| x l IH]; intros H.
  - split; [intros _ y [] | intros _; unfold py_sum; simpl; lra].
  - assert (Hx : 0 <= x) by (apply H; now left).
    assert (Hl : forall y, In y l -> 0 <= y) by (intros; apply H; now right).
    pose proof (py_sum_nonneg l Hl) as Hs.
    rewrite py_sum_cons. split.
    + intros E y [<- | Hy]; [lra |].
      apply (proj1 (IH Hl)); [lra | exact Hy].
    + intros E.
      assert (x == 0) by (apply E; now left).
      assert (py_sum l == 0)
        by (apply (proj2 (IH Hl)); intros; apply E; now right).
      lra.
Qed.

Lemma total_diff_nonneg (ws : list Q) : 0 <= total_diff ws.
Proof.
  rewrite total_diff_sum. apply py_sum_nonneg.
  intros x Hx. apply in_map_iff in Hx as (wi & <- & _).
  apply py_sum_nonneg. intros y Hy. apply in_map_iff in Hy as (wj & <- & _).
  apply Qabs_nonneg.
Qed.

Lemma Qabs_zero_iff (x y : Q) : Qabs (x - y) == 0 <-> x == y.
Proof.
  split; intros H.
  - pose proof (Qle_Qabs (x - y)). pose proof (Qle_Qabs (- (x - y))).
    rewrite Qabs_opp in *. lra.
  - rewrite H. setoid_replace (y - y) with 0 by ring. reflexivity.
Qed.

Lemma total_diff_zero_iff (ws : list Q) :
  total_diff ws == 0 <-> all_identical ws.
Proof.
  assert (Hin : forall wi z,
             In z (map (fun wj => Qabs (wi - wj)) ws) -> 0 <= z).
  { intros wi z Hz. apply in_map_iff in Hz as (wj & <- & _).
    apply Qabs_nonneg. }
  assert (Hout : forall z,
             In z (map (fun wi => py_sum (map (fun wj => Qabs (wi - wj)) ws))
                     ws) -> 0 <= z).
  { intros z Hz. apply in_map_iff in Hz as (wi & <- & _).
    apply py_sum_nonneg, Hin. }
  rewrite total_diff_sum, (py_sum_zero_iff _ Hout).
  unfold all_identical. split.
  - intros H x y Hx Hy.
    assert (E : py_sum (map (fun wj => Qabs (x - wj)) ws) == 0).
    { apply H. apply in_map_iff. now exists x. }
    apply Qabs_zero_iff.
    apply (proj1 (py_sum_zero_iff _ (Hin x)) E).
    apply in_map_iff. now exists y.
  - intros H z Hz. apply in_map_iff in Hz as (wi & <- & Hwi).
    apply (proj2 (py_sum_zero_iff _ (Hin wi))).
    intros z Hz. apply in_map_iff in Hz as (wj & <- & Hwj).
    apply Qabs_zero_iff. now apply H.
Qed.

Lemma clamp_unit_range (x : Q) :
  0 <= py_max 0 (py_min 1 x) /\ py_max 0 (py_min 1 x) <= 1.
Proof.
  destruct (py_min_case 1 x) as [[H1 E1] | [H1 E1]]; rewrite E1;
    destruct (py_max_case 0 x) as [[H2 E2] | [H2 E2]];
    destruct (py_max_case 0 1) as [[H3 E3] | [H3 E3]];
    rewrite ?E2, ?E3; lra.
Qed.

Lemma equality_index_range (ws : list Q) :
  0 <= equality_index ws /\ equality_index ws <= 1.
Proof.
  destruct ws as [| w ws]; [simpl; lra |].
  apply clamp_unit_range.
Qed.

(** The index is 1 exactly when the quotient of the Gini formula is 0. *)
Lemma clamp_one_iff (g : Q) :
  0 <= g -> (py_max 0 (py_min 1 (1 - py_min 1.0 g)) == 1 <-> g == 0).
Proof.
  intros Hg.
  destruct (py_min_case 1.0 g) as [[H1 E1] | [H1 E1]]; rewrite E1;
    match goal with
    | |- context [py_min 1 ?x] =>
        destruct (py_min_case 1 x) as [[H2 E2] | [H2 E2]]; rewrite E2
    end;
    match goal with
    | |- context [py_max 0 ?x] =>
        destruct (py_max_case 0 x) as [[H3 E3] | [H3 E3]]; rewrite E3
    end; split; intros; lra.
Qed.

Lemma len_pos {A} (l : list A) : l <> [] -> 0 < len l.
Proof.
  destruct l as [| x l]; [congruence |]. intros _.
  unfold len, Qlt. simpl. lia.
Qed.

Lemma quotient_zero_iff (d den : Q) :
  0 <= d -> 0 < den -> 0 <= d / den /\ (d / den == 0 <-> d == 0).
Proof.
  intros Hd Hden.
  assert (E : d / den * den == d) by (field; lra).
  set (g := d / den) in *.
  assert (0 <= g) by nra.
  split; [assumption |]. split; intros H0; nra.
Qed.

(** C7, as amended.  For every list of wealths the equality index lies in
    [0,1]; it is 0 for the empty list and 1 for every non-empty list of
    identical wealths, whose Gini coefficient is 0.  For fewer than two
    wealths, or a mean of zero, the Gini computation returns 0.  (That an
    index of 1 is reached by identical wealths only does not hold of the
    code: see the wealths that differ in the last binary digit below.) *)
Theorem equality_index_spec (ws : list Q) :
  (0 <= equality_index ws /\ equality_index ws <= 1) /\
  (ws = [] -> equality_index ws == 0) /\
  (ws <> [] -> all_identical ws -> equality_index ws == 1) /\
  ((length ws < 2)%nat \/ np_mean ws == 0 ->
     _calculate_gini_coefficient ws == 0).
Proof.
  split; [apply equality_index_range |]. split; [| split].
  - intros ->. reflexivity.
  - intros Hne Hall.
    destruct ws as [| w ws]; [congruence |].
    unfold equality_index, _calculate_gini_coefficient.
    destruct (length (w :: ws) <? 2)%nat; [vm_compute; reflexivity |].
    destruct (Qeq_bool (np_mean (w :: ws)) 0); [vm_compute; reflexivity |].
    apply total_diff_zero_iff in Hall.
    assert (Hg : total_diff (w :: ws)
                 / (2 * len (w :: ws) * len (w :: ws) * np_mean (w :: ws))
                 == 0)
      by (rewrite Hall; unfold Qdiv; ring).
    apply clamp_one_iff; [rewrite Hg; lra | exact Hg].
  - intros H. unfold _calculate_gini_coefficient.
    destruct (length ws <? 2)%nat eqn:El; [reflexivity |].
    apply Nat.ltb_ge in El. destruct H as [H | H]; [lia |].
    apply Qeq_bool_iff in H. rewrite H. reflexivity.
Qed.

(** C7, the claim as stated fails in the arithmetic of the code.  The
    wealths 1.0 and 1.0000000000000002, both at least 1.0 and so above the
    floor of 0.01, are not identical: their Gini coefficient is 2^-54, not
    0.  But 1 - 2^-54 lies
    half way between 1.0 and the binary64 number below it and rounds to 1.0,
    so the equality index is exactly 1.0. *)
Lemma equality_index_rounds_to_one :
  forallb (fun w => 0x1p+0 <=? w)%float nearly_equal_wealths = true /\
  (nth 0 nearly_equal_wealths 0 =? nth 1 nearly_equal_wealths 0)%float
  = false /\
  _calculate_gini_coefficient_binary64 nearly_equal_wealths
  = 0x1p-54%float /\
  equality_index_binary64 nearly_equal_wealths = 1%float.
Proof. repeat split; vm_compute; reflexivity. Qed.

(** ** Witnesses *)

Lemma sanction_decay_schedule_witness :
  total_power_loss
    (get_total_sanction_effects
       (update_sanction_effects
          (add_sanction_effect frustrated_member 1.0 5) 5)) == 0.08.
Proof.
  apply (proj2 (proj2 (sanction_decay_schedule frustrated_member))).
  reflexivity.
Defined.

Lemma change_ideology_cooldown_witness :
  change_ideology recent_convert F 10 = (recent_convert, false) /\
  ideology (fst (change_ideology recent_convert F 11)) = F.
Proof.
  split.
  - apply (proj1 (change_ideology_cooldown recent_convert F 10)).
    vm_compute. reflexivity.
  - apply (proj2 (change_ideology_cooldown recent_convert F 11)).
    vm_compute. discriminate.
Defined.

(** ** Ideology conversion *)

(** C6, as amended.  For a member off cooldown with ideology P or F and
    personal benefit below -0.2 the frustration rule is tried first: when its
    draw is below 0.3 the member leaves the step with U.  Otherwise the
    member falls through to the cognitive-dissonance rule, whose benefit
    condition (below -0.1) holds as well: when the next draw is below 0.1 the
    member leaves with the opposite of its ideology (F for P, P for F), and
    unchanged otherwise. *)
Theorem frustration_falls_through (a : Agent) (r : Z) (g : RandomState) :
  (3 <= r - last_ideology_change a)%Z ->
  in_P_F (ideology a) = true ->
  (wealth a - 0.5) + (power a - 0.5) < -0.2 ->
  let u1 := py_draws g (py_pos g) in
  let u2 := py_draws g (S (py_pos g)) in
  ideology (fst (convert_agent r a g))
  = if Qltb u1 0.3 then U
    else if Qltb u2 0.1 then
           if Ideology_eqb (ideology a) P then F else P
         else ideology a.
Proof.
  intros Hcool Hpf Hpb. cbv zeta.
  assert (Hc : (3 <=? r - last_ideology_change a)%Z = true)
    by now apply Z.leb_le.
  unfold convert_agent.
  replace (r - last_ideology_change a <? 3)%Z with false
    by (symmetry; apply Z.ltb_ge; lia).
  rewrite Hpf. apply Qltb_lt in Hpb as Hpb2. rewrite Hpb2. simpl.
  unfold bind, random_random. simpl.
  destruct (Qltb (py_draws g (py_pos g)) 0.3).
  - unfold ret, change_ideology. rewrite Hc. reflexivity.
  - unfold rational_choice.
    replace (Ideology_eqb (ideology a) U) with false
      by (revert Hpf; unfold in_P_F; destruct (ideology a); simpl;
          congruence).
    unfold dissonance. rewrite Hpf.
    assert (Hd : Qltb (wealth a - 0.5 + (power a - 0.5)) (-0.1) = true)
      by (apply Qltb_lt; lra).
    rewrite Hd. unfold bind, random_random. simpl.
    destruct (Qltb (py_draws g (S (py_pos g))) 0.1).
    + unfold ret, change_ideology. rewrite Hc. reflexivity.
    + reflexivity.
Qed.

Lemma frustration_falls_through_witness :
  ideology
    (fst (convert_agent 10 frustrated_member (oracle [0.2; 0.05] [])))
  = U.
Proof.
  apply (frustration_falls_through frustrated_member 10
           (oracle [0.2; 0.05] [])).
  - vm_compute. discriminate.
  - reflexivity.
  - vm_compute. reflexivity.
Defined.

(** C6, the claim as stated fails.  A member of ideology P, off cooldown at
    round 10 and with personal benefit -0.5, whose frustration draw is 0.5
    and whose next draw is 0.05, leaves the conversion step with ideology
    F. *)
Lemma frustrated_member_flips :
  (10 - last_ideology_change frustrated_member >= 3)%Z /\
  ideology frustrated_member = P /\
  (wealth frustrated_member - 0.5) + (power frustrated_member - 0.5) < -0.2 /\
  map ideology
    (agents (fst (_execute_ideology_conversion society_of_one
                    (oracle [0.5; 0.05] []))))
  = [F].
Proof.
  repeat split; vm_compute; try reflexivity. discriminate.
Qed.

(** ** The wealth floor *)

Lemma Forall_by_forallb {A} (f : A -> bool) (R : A -> Prop) (l : list A) :
  (forall x, f x = true -> R x) -> forallb f l = true -> Forall R l.
Proof.
  intros H Hl. apply Forall_forall. intros x Hx.
  apply H. now apply (proj1 (forallb_forall f l) Hl).
Qed.

Lemma Exists_by_existsb {A} (f : A -> bool) (R : A -> Prop) (l : list A) :
  (forall x, f x = true -> R x) -> existsb f l = true -> Exists R l.
Proof.
  intros H Hl. apply Exists_exists.
  apply existsb_exists in Hl as (x & Hx & Hf). exists x. auto.
Qed.

(** The floor that [update_wealth] enforces. *)
Lemma update_wealth_floor (a : Agent) (v : Q) :
  0.01 <= wealth (update_wealth a v).
Proof. apply py_max_lower. Qed.

(** C2, the code at the failing inputs.  (1) Fifty members at the ends of
    their class bands all have a wealth of at least 0.01, their average
    wealth is 0.19 and the tax rate is 0.3; after the tax step some of them
    have a negative wealth.  (2) In a simulation of ten members started from
    the generator state [extreme_generators], every member has a wealth of at
    least 0.01 at initialization, and a member has a negative wealth after
    step 4 (the tax step) of the first round. *)
Theorem tax_step_breaks_wealth_floor :
  (Forall (fun a => 0.01 <= wealth a) (agents skewed_society) /\
   average_wealth skewed_society == 0.19 /\
   policy_levers skewed_society tax_redistribution == 0.3 /\
   Exists (fun a => wealth a < 0)
     (agents (_execute_tax_redistribution skewed_society))) /\
  (Forall (fun a => 0.01 <= wealth a)
     (agents (society (fst (_initialize_society (panel_config 10 0.3)
                              extreme_generators)))) /\
   Exists (fun a => wealth a < 0)
     (agents (first_round_after_tax extreme_generators))).
Proof.
  assert (Hfloor : forall l,
            forallb (fun a => Qle_bool 0.01 (wealth a)) l = true ->
            Forall (fun a => 0.01 <= wealth a) l).
  { intros l. apply Forall_by_forallb. intros x. apply Qle_bool_iff. }
  assert (Hneg : forall l,
            existsb (fun a => Qltb (wealth a) 0) l = true ->
            Exists (fun a => wealth a < 0) l).
  { intros l. apply Exists_by_existsb. intros x. apply Qltb_lt. }
  split; [split; [| split; [| split]] | split].
  - apply Hfloor. vm_compute. reflexivity.
  - vm_compute. reflexivity.
  - vm_compute. reflexivity.
  - apply Hneg. vm_compute. reflexivity.
  - apply Hfloor. vm_compute. reflexivity.
  - apply Hneg. vm_compute. reflexivity.
Qed.

(** ** Reproducibility *)

Lemma run_round_rounds (sim : SocialSimulation) (r : Z) (g : RandomState) :
  exists snap, rounds (fst (run_round sim r g)) = rounds sim ++ [snap].
Proof.
  unfold run_round, bind.
  destruct (_run_single_round (set_current_round (society sim) r) g)
    as [s g1].
  exists (to_dict s).
  destruct (r mod 10 =? 0)%Z; [| reflexivity].
  destruct (_run_periodic_operations s g1). reflexivity.
Qed.

Lemma run_rounds_rounds (n : nat) (sim : SocialSimulation) (first : Z)
    (g : RandomState) :
  exists later, rounds (fst (run_rounds sim first n g)) = rounds sim ++ later.
Proof.
  revert sim first g. induction n as [| n IH]; intros sim first g; simpl.
  - exists []. now rewrite app_nil_r.
  - unfold bind.
    destruct (run_round_rounds sim first g) as [snap Hs].
    destruct (run_round sim first g) as [sim' g']. simpl in Hs.
    destruct (IH sim' (first + 1)%Z g') as [later Hl].
    exists (snap :: later). rewrite Hl, Hs, <- app_assoc. reflexivity.
Qed.

(** The trajectory of a complete run starts with the equality index of the
    society just initialized. *)
Lemma complete_run_first_equality (c : Config) (g : RandomState) :
  exists later,
    equality_trajectory (fst (complete_run c g))
    = social_equality (society (fst (_initialize_society c g))) :: later.
Proof.
  unfold complete_run, bind, run_simulation.
  assert (Hi : rounds (fst (_initialize_society c g))
               = [to_dict (society (fst (_initialize_society c g)))]).
  { unfold _initialize_society, bind.
    destruct (random_shuffle _ g) as [sh g1].
    destruct (create_agents 0 sh c g1) as [l g2]. reflexivity. }
  destruct (_initialize_society c g) as [sim g']. simpl in *.
  destruct (run_rounds_rounds (Z.to_nat (max_rounds c)) sim 1 g')
    as [later Hl].
  unfold equality_trajectory. rewrite Hl, Hi. simpl.
  now exists (map snap_social_equality later).
Qed.

(** C3, the code at the failing input.  Under one and the same
    configuration (ten members, seed 42, 200 rounds) two complete runs that
    find the ambient generators in different states record different
    equality-index trajectories: they differ from the first snapshot on. *)
Theorem same_seed_different_trajectories :
  let c := panel_config 10 0.3 in
  ~ Forall2 Qeq
      (equality_trajectory (fst (complete_run c extreme_generators)))
      (equality_trajectory (fst (complete_run c central_generators))).
Proof.
  cbv zeta. intros H.
  destruct (complete_run_first_equality (panel_config 10 0.3)
              extreme_generators) as [la Ha].
  destruct (complete_run_first_equality (panel_config 10 0.3)
              central_generators) as [lb Hb].
  rewrite Ha, Hb in H. clear Ha Hb. apply Forall2_cons_iff in H as [H _].
  apply Qeq_bool_iff in H.
  assert (E : Qeq_bool
                (social_equality
                   (society (fst (_initialize_society (panel_config 10 0.3)
                                    extreme_generators))))
                (social_equality
                   (society (fst (_initialize_society (panel_config 10 0.3)
                                    central_generators))))
              = false) by (vm_compute; reflexivity).
  rewrite E in H. discriminate H.
Qed.

(** ** Power *)

(** Steps 1 to 4 of a round leave every member's sanction effects alone. *)

Lemma vote_and_record_agents (s : Society) (p : PolicyName) (g : RandomState) :
  agents (fst (vote_and_record s p g)) = agents s.
Proof.
  unfold vote_and_record, bind.
  destruct (vote_on_policy s p g) as [nv g'].
  destruct (Qltb 0.01 (Qabs (nv - policy_levers s p))); reflexivity.
Qed.

Lemma vote_each_agents (l : list PolicyName) (s : Society) (g : RandomState) :
  agents (fst (vote_each s l g)) = agents s.
Proof.
  revert s g. induction l as [| p l IH]; intros s g; simpl; [reflexivity |].
  unfold bind. pose proof (vote_and_record_agents s p g) as H.
  destruct (vote_and_record s p g) as [s' g']. simpl in H.
  now rewrite IH.
Qed.

Lemma _core_circle_voting_agents (s : Society) (g : RandomState) :
  agents (fst (_core_circle_voting s g)) = agents s.
Proof.
  unfold _core_circle_voting, bind.
  destruct (random_randint 1 2 g) as [n g1].
  destruct (random_sample _ (Z.to_nat n) g1) as [sel g2].
  apply vote_each_agents.
Qed.

Lemma mapM_compete_effects (c : Q) (l : list Agent) (g : RandomState) :
  map sanction_effects (map fst (fst (mapM (compete c) l g)))
  = map sanction_effects l.
Proof.
  revert g. induction l as [| a l IH]; intros g; simpl; [reflexivity |].
  unfold bind.
  assert (H : sanction_effects (fst (fst (compete c a g)))
              = sanction_effects a).
  { unfold compete, bind, random_random. simpl.
    destruct (Qltb _ _); reflexivity. }
  destruct (compete c a g) as [[a' b] g1]. simpl in H.
  specialize (IH g1). destruct (mapM (compete c) l g1) as [ys g2].
  simpl in *. now rewrite H, IH.
Qed.

Lemma _execute_event_effects (s : Society) (e : EventType) (g : RandomState) :
  map sanction_effects (agents (fst (_execute_event s e g)))
  = map sanction_effects (agents s).
Proof.
  destruct e; simpl.
  - unfold _execute_social_event.
    destruct (Qle_bool _ _); simpl; [| reflexivity].
    rewrite map_map. apply map_ext. intros a. unfold reward_care.
    destruct (Qltb 0.6 (care_skill a)); reflexivity.
  - unfold bind, _execute_economic_event, bind.
    pose proof (mapM_compete_effects (policy_levers s competition_reward)
                  (agents s) g) as H.
    destruct (mapM _ (agents s) g) as [res g1]. simpl in *. exact H.
Qed.

Lemma _apply_attribution_bias_effects (s : Society) :
  map sanction_effects (agents (_apply_attribution_bias s))
  = map sanction_effects (agents s).
Proof.
  unfold _apply_attribution_bias. simpl. rewrite map_map.
  apply map_ext. reflexivity.
Qed.

Lemma collect_tax_effects (average tax_rate : Q) (l : list Agent) (t : Q) :
  map sanction_effects (fst (collect_tax average tax_rate l t))
  = map sanction_effects l.
Proof.
  revert t. induction l as [| a l IH]; intros t; simpl; [reflexivity |].
  destruct (Qltb (average * 0.5) (wealth a)).
  - specialize (IH (t + wealth a * tax_rate
                          * py_max 0 (wealth a / average - 0.5))).
    destruct (collect_tax average tax_rate l _) as [r tt].
    simpl in *. now rewrite IH.
  - specialize (IH t).
    destruct (collect_tax average tax_rate l t) as [r tt].
    simpl in *. now rewrite IH.
Qed.

Lemma _execute_tax_redistribution_effects (s : Society) :
  map sanction_effects (agents (_execute_tax_redistribution s))
  = map sanction_effects (agents s).
Proof.
  unfold _execute_tax_redistribution.
  destruct (Qle_bool (policy_levers s tax_redistribution) 0); [reflexivity |].
  pose proof (collect_tax_effects (average_wealth s)
                (policy_levers s tax_redistribution) (agents s) 0) as H.
  destruct (collect_tax _ _ (agents s) 0) as [taxed total_tax].
  simpl in H. destruct (Qltb 0 total_tax); simpl; [| exact H].
  rewrite map_map, <- H. apply map_ext. reflexivity.
Qed.

Lemma steps_1_to_4_effects (s : Society) (g : RandomState) :
  map sanction_effects (agents (fst (steps_1_to_4 s g)))
  = map sanction_effects (agents s).
Proof.
  unfold steps_1_to_4, bind.
  pose proof (_core_circle_voting_agents s g) as H1.
  destruct (_core_circle_voting s g) as [s1 g1]. simpl in H1.
  destruct (_trigger_event s1 g1) as [ev g2].
  pose proof (_execute_event_effects s1 ev g2) as H2.
  destruct (_execute_event s1 ev g2) as [s2 g3]. simpl in *.
  now rewrite _execute_tax_redistribution_effects,
    _apply_attribution_bias_effects, H2, H1.
Qed.

Lemma _run_single_round_steps (s : Society) (g : RandomState) :
  fst (_run_single_round s g)
  = update_statistics
      (_execute_social_sanctions
         (_update_wealth_power (fst (steps_1_to_4 s g)))).
Proof.
  unfold _run_single_round, steps_1_to_4, bind.
  destruct (_core_circle_voting s g) as [s1 g1].
  destruct (_trigger_event s1 g1) as [ev g2].
  destruct (_execute_event s1 ev g2) as [s2 g3]. reflexivity.
Qed.

Lemma update_statistics_agents (s : Society) :
  agents (update_statistics s) = agents s.
Proof.
  unfold update_statistics, _calculate_social_equality, _update_class_stats,
    _update_basic_stats. simpl.
  destruct (agents s) eqn:E; simpl; auto.
Qed.

(** Step 5 followed by step 6, on one member. *)
Lemma grow_then_sanction_power (s : Society) (lever th base : Q) (r : Z)
    (a a4 : Agent) :
  sanction_effects a4 = sanction_effects a ->
  let b := sanction_agent s lever th (grow_agent base r a4) in
  power b
  = py_max 0
      (_calculate_power b - total_power_loss (get_total_sanction_effects a)).
Proof.
  intros H. cbv zeta. unfold sanction_agent.
  destruct (Qltb th _);
    unfold add_sanction_effect, grow_agent, get_total_sanction_effects,
      _calculate_power; simpl; rewrite H; reflexivity.
Qed.

Lemma Forall2_map_paired (f : Agent -> Agent) (R : Agent -> Agent -> Prop) :
  (forall a a4, sanction_effects a4 = sanction_effects a -> R a (f a4)) ->
  forall l l4,
    map sanction_effects l4 = map sanction_effects l ->
    Forall2 R l (map f l4).
Proof.
  intros H l. induction l as [| a l IH]; intros [| a4 l4] E; simpl in *;
    try discriminate; constructor.
  - apply H. now injection E.
  - apply IH. now injection E.
Qed.

(** C9, as amended.  A member just constructed has the power of the formula
    0.5 * wealth + 0.25 * competition_skill + 0.25 * care_skill.  At the end
    of every round -- the state a snapshot records -- the power of every
    member is max(0, formula - L), where the formula is taken on the member's
    wealth and skills at that point and L is the total sanction power loss
    that the member carried into the round; it is the value of the formula
    when that loss is zero. *)
Theorem power_at_round_end :
  (forall (i : nat) (gd : Gender) (cl : ClassLevel) (c : Config)
          (g : RandomState),
     power (fst (new_Agent i gd cl c g))
     = _calculate_power (fst (new_Agent i gd cl c g))) /\
  (forall (s : Society) (g : RandomState),
     Forall2
       (fun a a' =>
          power a'
          = py_max 0
              (_calculate_power a'
               - total_power_loss (get_total_sanction_effects a)))
       (agents s) (agents (fst (_run_single_round s g)))).
Proof.
  split.
  - intros i gd cl c g. unfold new_Agent, bind.
    destruct (_initialize_skills gd c g) as [sk g1].
    destruct (_initialize_wealth cl g1) as [w g2].
    destruct (_initialize_ideology g2) as [i0 g3]. reflexivity.
  - intros s g.
    rewrite _run_single_round_steps, update_statistics_agents.
    pose proof (steps_1_to_4_effects s g) as H.
    unfold _execute_social_sanctions, _update_wealth_power.
    cbn [agents set_agents]. rewrite map_map.
    apply Forall2_map_paired; [| exact H].
    intros a a4 E. now apply grow_then_sanction_power.
Qed.

(** C9, the claim as stated fails.  In a simulation of two members started
    from the generator state [extreme_generators], the snapshot of round 3
    records a member whose power is not the value of the formula on its
    recorded wealth and skills: both members carry a sanction into that
    round. *)
Lemma power_off_formula_in_snapshot :
  let snaps := rounds (three_rounds extreme_generators) in
  map snap_current_round snaps = [0; 1; 2; 3]%Z /\
  Exists (fun d => ~ d_power d == formula_of_record d)
    (flat_map snap_agents (skipn 3 snaps)).
Proof.
  cbv zeta. split; [vm_compute; reflexivity |].
  apply (Exists_by_existsb
           (fun d => negb (Qeq_bool (d_power d) (formula_of_record d)))).
  - intros d Hd E. apply Qeq_bool_iff in E. rewrite E in Hd. discriminate.
  - vm_compute. reflexivity.
Qed.

(** ** Further witnesses *)

Lemma tax_step_preserves_total_witness :
  _execute_tax_redistribution untaxed_society = untaxed_society /\
  total_wealth (agents (_execute_tax_redistribution skewed_society))
    == total_wealth (agents skewed_society).
Proof.
  split.
  - apply (proj1 (tax_step_preserves_total untaxed_society)).
    vm_compute. discriminate.
  - apply (proj2 (tax_step_preserves_total skewed_society)).
    intros H. apply Qeq_bool_iff in H. vm_compute in H. discriminate H.
Defined.

Lemma equality_index_spec_witness :
  equality_index (repeat 0.5 10) == 1 /\
  _calculate_gini_coefficient [0.5] == 0.
Proof.
  split.
  - apply (proj1 (proj2 (proj2 (equality_index_spec (repeat 0.5 10))))).
    + discriminate.
    + intros x y Hx Hy. apply repeat_spec in Hx, Hy. subst. reflexivity.
  - apply (proj2 (proj2 (proj2 (equality_index_spec [0.5])))).
    left. simpl. lia.
Defined.

(** ** The wealth floor at the recorded states *)

Lemma np_clip_lower (x lo hi : Q) : lo <= hi -> lo <= np_clip x lo hi.
Proof.
  intros H. unfold np_clip.
  destruct (py_min_case (py_max x lo) hi) as [[H1 ->] | [H1 ->]];
    destruct (py_max_case x lo) as [[H2 E] | [H2 E]]; rewrite ?E in *; lra.
Qed.

Lemma _initialize_wealth_floor (cl : ClassLevel) (g : RandomState) :
  0.05 <= fst (_initialize_wealth cl g).
Proof.
  destruct cl; unfold _initialize_wealth, bind, np_random_normal, np_next, ret;
    simpl fst.
  - apply np_clip_lower. lra.
  - apply Qle_trans with 0.2; [lra | apply np_clip_lower; lra].
  - apply Qle_trans with 0.6; [lra | apply np_clip_lower; lra].
Qed.

(** What does hold of the floor: a member is constructed with a wealth of at
    least 0.05, and every member ends every round with a wealth of at least
    0.01, the last write of the round being that of [update_wealth]. *)
Lemma wealth_floor_at_snapshots :
  (forall (i : nat) (gd : Gender) (cl : ClassLevel) (c : Config)
          (g : RandomState),
     0.05 <= wealth (fst (new_Agent i gd cl c g))) /\
  (forall (s : Society) (g : RandomState),
     Forall (fun a => 0.01 <= wealth a) (agents (fst (_run_single_round s g)))).
Proof.
  split.
  - intros i gd cl c g. unfold new_Agent, bind.
    destruct (_initialize_skills gd c g) as [sk g1].
    pose proof (_initialize_wealth_floor cl g1) as H.
    destruct (_initialize_wealth cl g1) as [w g2].
    destruct (_initialize_ideology g2) as [i0 g3]. exact H.
  - intros s g.
    rewrite _run_single_round_steps, update_statistics_agents.
    unfold _execute_social_sanctions, _update_wealth_power.
    cbn [agents set_agents]. rewrite map_map.
    apply Forall_forall. intros x Hx.
    apply in_map_iff in Hx as (a4 & <- & _).
    unfold sanction_agent.
    destruct (Qltb _ _); unfold add_sanction_effect, grow_agent; simpl;
      apply py_max_lower.
Qed.

(** * Further properties of the code *)

(** ** Voting and the policy bounds *)

Lemma policy_bounds_ordered (p : PolicyName) :
  fst (policy_bounds p) < snd (policy_bounds p).
Proof. destruct p; simpl; lra. Qed.

(** The outcome of a vote is the boundary handling of the current value, or
    of the current value moved up or down by the drawn adjustment. *)
Lemma vote_on_policy_outcome (s : Society) (p : PolicyName) (g : RandomState) :
  core_decision_circle s <> [] ->
  let cur := policy_levers s p in
  let adj := drawn_adjustment g in
  fst (vote_on_policy s p g) = apply_bounds p cur \/
  fst (vote_on_policy s p g) = apply_bounds p (cur * (1 + adj)) \/
  fst (vote_on_policy s p g) = apply_bounds p (cur * (1 - adj)).
Proof.
  intros Hc. cbv zeta. unfold vote_on_policy, apply_bounds, drawn_adjustment.
  destruct (core_decision_circle s) as [| i c] eqn:E; [congruence |].
  destruct (policy_bounds p) as [lo hi].
  match goal with
  | |- context [if ?b then _ else _] => destruct b
  end.
  - right; left. reflexivity.
  - match goal with
    | |- context [if ?b then _ else _] => destruct b
    end.
    + right; right. reflexivity.
    + left. reflexivity.
Qed.

Lemma apply_bounds_within (p : PolicyName) (v : Q) :
  within_bounds p (apply_bounds p v).
Proof.
  pose proof (policy_bounds_ordered p) as Ho.
  unfold within_bounds, apply_bounds.
  destruct (policy_bounds p) as [lo hi]. simpl in *.
  match goal with
  | |- context [py_min hi ?x] =>
      destruct (py_min_case hi x) as [[H1 ->] | [H1 ->]];
      [destruct (py_max_case lo x) as [[H2 ->] | [H2 ->]] |
       destruct (py_max_case lo hi) as [[H2 ->] | [H2 ->]]]
  end; lra.
Qed.

Lemma vote_on_policy_empty_circle (s : Society) (p : PolicyName)
    (g : RandomState) :
  core_decision_circle s = [] ->
  vote_on_policy s p g = (policy_levers s p, g).
Proof. intros E. unfold vote_on_policy. now rewrite E. Qed.

Lemma vote_on_policy_within_bounds (s : Society) (p : PolicyName)
    (g : RandomState) :
  core_decision_circle s <> [] ->
  within_bounds p (fst (vote_on_policy s p g)).
Proof.
  intros Hc.
  destruct (vote_on_policy_outcome s p g Hc) as [E | [E | E]];
    rewrite E; apply apply_bounds_within.
Qed.

(** X1.  With an empty circle [vote_on_policy] returns the current value of
    the lever and draws nothing; with a non-empty circle its result lies
    within the bounds of the policy, whatever the current value, the votes
    and the draw. *)
Theorem vote_result_within_bounds (s : Society) (p : PolicyName)
    (g : RandomState) :
  (core_decision_circle s = [] ->
     vote_on_policy s p g = (policy_levers s p, g)) /\
  (core_decision_circle s <> [] ->
     within_bounds p (fst (vote_on_policy s p g))).
Proof.
  split;
    [apply vote_on_policy_empty_circle | apply vote_on_policy_within_bounds].
Qed.

(** X2.  The boundary handling of a vote.  With a non-empty circle the
    result comes from a raw value that is the current value, or the current
    value scaled by 1 + adjustment or by 1 - adjustment.  A raw value above
    the upper bound gives exactly the upper bound (the softened excess is
    clamped away); a raw value below the lower bound gives the lower bound
    plus a tenth of the shortfall, capped at the upper bound, which is
    strictly above the lower bound; a raw value within the bounds is
    returned as it is. *)
Theorem vote_boundary_handling (s : Society) (p : PolicyName)
    (g : RandomState) :
  core_decision_circle s <> [] ->
  let cur := policy_levers s p in
  let adj := drawn_adjustment g in
  let lo := fst (policy_bounds p) in
  let hi := snd (policy_bounds p) in
  let result := fst (vote_on_policy s p g) in
  exists raw,
    (raw = cur \/ raw = cur * (1 + adj) \/ raw = cur * (1 - adj)) /\
    (hi < raw -> result == hi) /\
    (raw < lo ->
       result == py_min hi (lo + (lo - raw) * 0.1) /\ lo < result) /\
    (lo <= raw <= hi -> result == raw).
Proof.
  intros Hc. cbv zeta.
  assert (Hb : forall raw,
             (snd (policy_bounds p) < raw ->
                apply_bounds p raw == snd (policy_bounds p)) /\
             (raw < fst (policy_bounds p) ->
                apply_bounds p raw
                == py_min (snd (policy_bounds p))
                     (fst (policy_bounds p)
                      + (fst (policy_bounds p) - raw) * 0.1)
                /\ fst (policy_bounds p) < apply_bounds p raw) /\
             (fst (policy_bounds p) <= raw <= snd (policy_bounds p) ->
                apply_bounds p raw == raw)).
  { intros raw. pose proof (policy_bounds_ordered p) as Ho.
    unfold apply_bounds. destruct (policy_bounds p) as [lo hi]. simpl in *.
    destruct (Qltb hi raw) eqn:E1; [| destruct (Qltb raw lo) eqn:E2].
    - apply Qltb_lt in E1.
      split; [| split]; intros H; try lra.
      destruct (py_min_case hi (hi + (raw - hi) * 0.1)) as [[H1 ->] | [H1 ->]];
        [lra |].
      destruct (py_max_case lo hi) as [[H2 ->] | [H2 ->]]; lra.
    - apply Qltb_ge in E1. apply Qltb_lt in E2.
      split; [| split]; intros H; try lra.
      destruct (py_min_case hi (lo + (lo - raw) * 0.1)) as [[H1 E] | [H1 E]];
        rewrite E;
        match goal with
        | |- context [py_max lo ?x] =>
            destruct (py_max_case lo x) as [[H2 ->] | [H2 ->]]
        end; split; lra.
    - apply Qltb_ge in E1. apply Qltb_ge in E2.
      split; [| split]; intros H; try lra.
      destruct (py_min_case hi raw) as [[H1 ->] | [H1 ->]];
        match goal with
        | |- context [py_max lo ?x] =>
            destruct (py_max_case lo x) as [[H2 ->] | [H2 ->]]
        end; lra. }
  destruct (vote_on_policy_outcome s p g Hc) as [E | [E | E]]; rewrite E.
  - exists (policy_levers s p). split; [now left | apply Hb].
  - exists (policy_levers s p * (1 + drawn_adjustment g)).
    split; [right; now left | apply Hb].
  - exists (policy_levers s p * (1 - drawn_adjustment g)).
    split; [right; now right | apply Hb].
Qed.

Lemma PolicyName_eqb_eq (a b : PolicyName) :
  PolicyName_eqb a b = true -> a = b.
Proof. destruct a, b; simpl; congruence. Qed.

Lemma vote_and_record_levers (s : Society) (p : PolicyName)
    (g : RandomState) :
  (forall k, within_bounds k (policy_levers s k)) ->
  forall k, within_bounds k (policy_levers (fst (vote_and_record s p g)) k).
Proof.
  intros H k.
  assert (Hv : within_bounds p (fst (vote_on_policy s p g))).
  { destruct (core_decision_circle s) as [| i c] eqn:E.
    - rewrite (vote_on_policy_empty_circle s p g E). apply H.
    - apply vote_on_policy_within_bounds. congruence. }
  unfold vote_and_record, bind.
  destruct (vote_on_policy s p g) as [nv g']. simpl in Hv.
  destruct (Qltb 0.01 (Qabs (nv - policy_levers s p))); simpl; [| apply H].
  destruct (PolicyName_eqb k p) eqn:E; [| apply H].
  apply PolicyName_eqb_eq in E. now subst.
Qed.

Lemma vote_each_levers (l : list PolicyName) (s : Society) (g : RandomState) :
  (forall k, within_bounds k (policy_levers s k)) ->
  forall k, within_bounds k (policy_levers (fst (vote_each s l g)) k).
Proof.
  revert s g. induction l as [| p l IH]; intros s g H; simpl; [exact H |].
  unfold bind. pose proof (vote_and_record_levers s p g H) as H1.
  destruct (vote_and_record s p g) as [s' g']. now apply IH.
Qed.

(** What [update_statistics] and the tax step leave alone. *)
Lemma update_statistics_frame (s : Society) :
  policy_levers (update_statistics s) = policy_levers s /\
  event_history (update_statistics s) = event_history s /\
  current_round (update_statistics s) = current_round s /\
  core_decision_circle (update_statistics s) = core_decision_circle s.
Proof.
  unfold update_statistics, _calculate_social_equality, _update_class_stats,
    _update_basic_stats. simpl.
  destruct (agents s); simpl; auto.
Qed.

Lemma _execute_tax_redistribution_frame (s : Society) :
  policy_levers (_execute_tax_redistribution s) = policy_levers s /\
  event_history (_execute_tax_redistribution s) = event_history s /\
  current_round (_execute_tax_redistribution s) = current_round s /\
  core_decision_circle (_execute_tax_redistribution s)
  = core_decision_circle s.
Proof.
  unfold _execute_tax_redistribution.
  destruct (Qle_bool _ _); [auto |].
  destruct (collect_tax _ _ _ _) as [t tt].
  destruct (Qltb 0 tt); simpl; auto.
Qed.

Lemma _execute_event_levers (s : Society) (e : EventType) (g : RandomState) :
  policy_levers (fst (_execute_event s e g)) = policy_levers s.
Proof.
  destruct e; simpl.
  - unfold _execute_social_event. destruct (Qle_bool _ _); reflexivity.
  - unfold bind, _execute_economic_event, bind.
    destruct (mapM _ (agents s) g) as [res g1]. reflexivity.
Qed.

(** After the voting step nothing in a round, nor in the operations of every
    tenth round, writes a lever. *)
Lemma _run_single_round_levers (s : Society) (g : RandomState) :
  policy_levers (fst (_run_single_round s g))
  = policy_levers (fst (_core_circle_voting s g)).
Proof.
  rewrite _run_single_round_steps.
  rewrite (proj1 (update_statistics_frame _)).
  unfold _execute_social_sanctions, _update_wealth_power. simpl.
  unfold steps_1_to_4, bind.
  destruct (_core_circle_voting s g) as [s1 g1].
  destruct (_trigger_event s1 g1) as [ev g2].
  pose proof (_execute_event_levers s1 ev g2) as H.
  destruct (_execute_event s1 ev g2) as [s2 g3]. simpl in *.
  rewrite (proj1 (_execute_tax_redistribution_frame _)). exact H.
Qed.

Lemma _check_class_mobility_levers (s : Society) :
  policy_levers (_check_class_mobility s) = policy_levers s.
Proof.
  unfold _check_class_mobility.
  destruct (mobility_loop _ (agents s)) as [l ch].
  destruct ch; reflexivity.
Qed.

Lemma _run_periodic_operations_levers (s : Society) (g : RandomState) :
  policy_levers (fst (_run_periodic_operations s g)) = policy_levers s.
Proof.
  unfold _run_periodic_operations, bind.
  assert (H1 : policy_levers (fst (_execute_learning_imitation s g))
               = policy_levers s).
  { unfold _execute_learning_imitation.
    destruct (deref _ _); [reflexivity |].
    unfold bind. destruct (mapM _ _ g). reflexivity. }
  destruct (_execute_learning_imitation s g) as [s1 g1]. simpl in H1.
  unfold _execute_ideology_conversion, bind.
  destruct (mapM _ (agents s1) g1) as [l g2]. simpl.
  rewrite _check_class_mobility_levers. simpl. exact H1.
Qed.

(** X3.  The policy bounds are an invariant of the run: if every lever is
    within its bounds when a round starts, every lever is within its bounds
    in the society the round leaves, the operations of every tenth round
    included. *)
Theorem levers_stay_within_bounds (sim : SocialSimulation) (r : Z)
    (g : RandomState) :
  (forall k, within_bounds k (policy_levers (society sim) k)) ->
  forall k,
    within_bounds k (policy_levers (society (fst (run_round sim r g))) k).
Proof.
  intros H k. unfold run_round, bind.
  pose proof (_run_single_round_levers
                (set_current_round (society sim) r) g) as E.
  assert (Hv : forall k,
             within_bounds k
               (policy_levers
                  (fst (_core_circle_voting
                          (set_current_round (society sim) r) g)) k)).
  { unfold _core_circle_voting, bind.
    destruct (random_randint 1 2 g) as [n g1].
    destruct (random_sample _ (Z.to_nat n) g1) as [sel g2].
    apply vote_each_levers. exact H. }
  destruct (_run_single_round (set_current_round (society sim) r) g)
    as [s1 g1]. simpl in E.
  destruct (r mod 10 =? 0)%Z; simpl.
  - pose proof (_run_periodic_operations_levers s1 g1) as E2.
    destruct (_run_periodic_operations s1 g1) as [s2 g2]. simpl in *.
    rewrite E2, E. apply Hv.
  - rewrite E. apply Hv.
Qed.

Lemma vote_result_within_bounds_witness :
  vote_on_policy society_of_none care_reward (oracle [] [])
  = (policy_levers society_of_none care_reward, oracle [] []) /\
  within_bounds care_reward
    (fst (vote_on_policy (update_core_decision_circle society_of_fifty)
            care_reward (oracle [] []))).
Proof.
  split.
  - apply (proj1 (vote_result_within_bounds society_of_none care_reward
                    (oracle [] []))).
    reflexivity.
  - apply (proj2 (vote_result_within_bounds
                    (update_core_decision_circle society_of_fifty)
                    care_reward (oracle [] []))).
    vm_compute. discriminate.
Defined.

Lemma vote_boundary_handling_witness :
  exists raw,
    (raw = policy_levers (update_core_decision_circle society_of_fifty)
             care_reward \/
     raw = policy_levers (update_core_decision_circle society_of_fifty)
             care_reward * (1 + drawn_adjustment (oracle [] [])) \/
     raw = policy_levers (update_core_decision_circle society_of_fifty)
             care_reward * (1 - drawn_adjustment (oracle [] []))) /\
    (snd (policy_bounds care_reward) < raw ->
       fst (vote_on_policy (update_core_decision_circle society_of_fifty)
              care_reward (oracle [] []))
       == snd (policy_bounds care_reward)) /\
    (raw < fst (policy_bounds care_reward) ->
       fst (vote_on_policy (update_core_decision_circle society_of_fifty)
              care_reward (oracle [] []))
       == py_min (snd (policy_bounds care_reward))
            (fst (policy_bounds care_reward)
             + (fst (policy_bounds care_reward) - raw) * 0.1) /\
       fst (policy_bounds care_reward)
       < fst (vote_on_policy (update_core_decision_circle society_of_fifty)
                care_reward (oracle [] []))) /\
    (fst (policy_bounds care_reward) <= raw <= snd (policy_bounds care_reward) ->
       fst (vote_on_policy (update_core_decision_circle society_of_fifty)
              care_reward (oracle [] []))
       == raw).
Proof.
  apply (vote_boundary_handling (update_core_decision_circle society_of_fifty)
           care_reward (oracle [] [])).
  vm_compute. discriminate.
Defined.

Lemma levers_stay_within_bounds_witness :
  within_bounds tax_redistribution
    (policy_levers
       (society (fst (run_round fifty_simulation 1 (oracle [] []))))
       tax_redistribution).
Proof.
  apply (levers_stay_within_bounds fifty_simulation 1 (oracle [] [])).
  intros k. destruct k; vm_compute; split; discriminate.
Defined.

(** ** Decay of sanction effects *)

Lemma active_effects_compose (r1 r2 : Z) (l : list SanctionEffect) :
  (r1 <= r2)%Z ->
  active_effects r2 (active_effects r1 l) = active_effects r2 l.
Proof.
  intros Hr. induction l as [| e l IH]; simpl; [reflexivity |].
  destruct (decay_effect r1 e) as [e' |] eqn:E1; simpl.
  - rewrite (decay_effect_base r1 r2 e e' E1), IH. reflexivity.
  - rewrite IH.
    assert (E2 : decay_effect r2 e = None).
    { unfold decay_effect in *.
      destruct (r1 - start_round e <? duration e)%Z eqn:C1; [discriminate |].
      apply Z.ltb_ge in C1.
      replace (r2 - start_round e <? duration e)%Z with false; [reflexivity |].
      symmetry. apply Z.ltb_ge. lia. }
    now rewrite E2.
Qed.

Lemma active_effects_length (r : Z) (l : list SanctionEffect) :
  (length (active_effects r l) <= length l)%nat.
Proof.
  induction l as [| e l IH]; simpl; [lia |].
  destruct (decay_effect r e); simpl; lia.
Qed.

(** X4.  Decay composes: updating the effects for a round and then for a
    later (or the same) round leaves what updating for the later round alone
    leaves -- an update is computed from the base losses, not from the
    previous update, so a repeated update does not decay twice.  An update
    never adds an effect. *)
Theorem update_sanction_effects_compose (a : Agent) (r1 r2 : Z) :
  ((r1 <= r2)%Z ->
     update_sanction_effects (update_sanction_effects a r1) r2
     = update_sanction_effects a r2) /\
  (length (sanction_effects (update_sanction_effects a r1))
   <= length (sanction_effects a))%nat.
Proof.
  split.
  - intros Hr. unfold update_sanction_effects, set_sanction_effects. simpl.
    now rewrite active_effects_compose.
  - apply active_effects_length.
Qed.

Lemma update_sanction_effects_compose_witness :
  update_sanction_effects
    (update_sanction_effects (add_sanction_effect frustrated_member 1.0 5) 5) 7
  = update_sanction_effects (add_sanction_effect frustrated_member 1.0 5) 7.
Proof.
  apply (proj1 (update_sanction_effects_compose
                  (add_sanction_effect frustrated_member 1.0 5) 5 7)).
  lia.
Defined.

(** X5.  After [update_sanction_effects(r)] every remaining effect is still
    within its duration at round r, carries the three current_* keys, each
    holding the base value times 0.5 to the number of rounds passed, and has
    the base fields of an effect the member had before. *)
Theorem active_effects_are_current (a : Agent) (r : Z) :
  Forall
    (fun e =>
       (r - start_round e < duration e)%Z /\
       current_intensity e = Some (intensity e * 0.5 ^ (r - start_round e)) /\
       current_power_loss e
       = Some (power_loss e * 0.5 ^ (r - start_round e)) /\
       current_wealth_loss e
       = Some (wealth_loss e * 0.5 ^ (r - start_round e)) /\
       exists e0,
         In e0 (sanction_effects a) /\
         (intensity e, start_round e, duration e, power_loss e, wealth_loss e)
         = (intensity e0, start_round e0, duration e0, power_loss e0,
            wealth_loss e0))
    (sanction_effects (update_sanction_effects a r)).
Proof.
  unfold update_sanction_effects. simpl.
  induction (sanction_effects a) as [| e l IH]; simpl; [constructor |].
  assert (IH' : Forall
             (fun e1 =>
                (r - start_round e1 < duration e1)%Z /\
                current_intensity e1
                = Some (intensity e1 * 0.5 ^ (r - start_round e1)) /\
                current_power_loss e1
                = Some (power_loss e1 * 0.5 ^ (r - start_round e1)) /\
                current_wealth_loss e1
                = Some (wealth_loss e1 * 0.5 ^ (r - start_round e1)) /\
                exists e0,
                  In e0 (e :: l) /\
                  (intensity e1, start_round e1, duration e1, power_loss e1,
                   wealth_loss e1)
                  = (intensity e0, start_round e0, duration e0, power_loss e0,
                     wealth_loss e0))
             (active_effects r l)).
  { eapply Forall_impl; [| exact IH].
    intros e1 (H1 & H2 & H3 & H4 & e0 & Hin & He).
    repeat split; auto. exists e0. split; [now right | exact He]. }
  unfold decay_effect.
  destruct (r - start_round e <? duration e)%Z eqn:C; [| exact IH'].
  constructor; [| exact IH']. simpl.
  apply Z.ltb_lt in C. repeat split; auto.
  exists e. split; [now left | reflexivity].
Qed.

(** ** Learning *)

Lemma np_clip_unit (x : Q) : 0 <= np_clip x 0 1.0 /\ np_clip x 0 1.0 <= 1.
Proof.
  unfold np_clip.
  destruct (py_min_case (py_max x 0) 1.0) as [[H1 ->] | [H1 ->]];
    destruct (py_max_case x 0) as [[H2 E] | [H2 E]]; rewrite ?E in *; lra.
Qed.

Lemma np_clip_inside (x lo hi : Q) :
  lo <= x <= hi -> np_clip x lo hi == x.
Proof.
  intros H. unfold np_clip.
  destruct (py_max_case x lo) as [[H2 E] | [H2 E]]; rewrite E;
    match goal with
    | |- py_min ?y hi == _ =>
        destruct (py_min_case y hi) as [[H1 ->] | [H1 ->]]
    end; lra.
Qed.

(** X6.  [learn_from_successful_agent] leaves both skills in [0,1] whatever
    the learner, the target and the rate are, and writes the two skills only
    (power, in particular, is not recomputed).  With a rate in [0,1] and all
    four skills in [0,1], nothing is clipped: each skill moves by the rate
    times its distance to the target's. *)
Theorem learning_keeps_skills_in_range (a t : Agent) (rate : Q) :
  let a' := learn_from_successful_agent a t rate in
  (0 <= care_skill a' <= 1 /\ 0 <= competition_skill a' <= 1) /\
  apart_from_skills a' = apart_from_skills a /\
  (0 <= rate <= 1 ->
   0 <= care_skill a <= 1 -> 0 <= competition_skill a <= 1 ->
   0 <= care_skill t <= 1 -> 0 <= competition_skill t <= 1 ->
   care_skill a' == care_skill a + rate * (care_skill t - care_skill a) /\
   competition_skill a'
   == competition_skill a
      + rate * (competition_skill t - competition_skill a)).
Proof.
  cbv zeta. unfold learn_from_successful_agent. simpl.
  split; [| split].
  - split; apply np_clip_unit.
  - reflexivity.
  - intros Hr Hc Hk Htc Htk. split; apply np_clip_inside.
    + split; nra.
    + split; nra.
Qed.

Lemma learning_keeps_skills_in_range_witness :
  care_skill (learn_from_successful_agent frustrated_member rich_middle_member
                0.1)
  == care_skill frustrated_member
     + 0.1 * (care_skill rich_middle_member - care_skill frustrated_member).
Proof.
  apply (proj2 (proj2 (learning_keeps_skills_in_range frustrated_member
                         rich_middle_member 0.1)));
    vm_compute; split; discriminate.
Defined.

(** ** Class mobility *)

(** X7.  [check_class_mobility] moves a member by one tier at most: a low
    member is never returned as high nor a high member as low.  For a middle
    member the rise is tested first, so a member that meets both the rise
    and the fall condition rises.  The average of the low class is never
    read: two tables of averages that agree on middle and high give the same
    answer. *)
Theorem class_mobility_one_tier (a : Agent) (avgs avgs' : ClassLevel -> Q) :
  (class_level a = low -> check_class_mobility a avgs <> high) /\
  (class_level a = high -> check_class_mobility a avgs <> low) /\
  (class_level a = middle ->
   avgs high * 1.5 < wealth a -> wealth a < avgs middle * 0.6 ->
   check_class_mobility a avgs = high) /\
  (avgs' middle = avgs middle -> avgs' high = avgs high ->
   check_class_mobility a avgs' = check_class_mobility a avgs).
Proof.
  unfold check_class_mobility. repeat split.
  - intros E. rewrite E. simpl.
    destruct (Qltb _ _); discriminate.
  - intros E. rewrite E. simpl.
    destruct (Qltb _ _); discriminate.
  - intros E H1 H2. rewrite E. simpl.
    apply Qltb_lt in H1. now rewrite H1.
  - intros E1 E2. now rewrite E1, E2.
Qed.

Lemma class_mobility_one_tier_witness :
  check_class_mobility rich_middle_member
    (fun c => match c with low => 0.1 | middle => 2 | high => 0.5 end)
  = high.
Proof.
  apply (proj1 (proj2 (proj2 (class_mobility_one_tier rich_middle_member
           (fun c => match c with low => 0.1 | middle => 2 | high => 0.5 end)
           (fun c => 0))))).
  - reflexivity.
  - vm_compute. reflexivity.
  - vm_compute. reflexivity.
Defined.

Lemma mobility_loop_spec (avgs : ClassLevel -> Q) (l : list Agent) :
  map class_level (fst (mobility_loop avgs l))
  = map (fun a => check_class_mobility a avgs) l /\
  map apart_from_class (fst (mobility_loop avgs l)) = map apart_from_class l /\
  length (snd (mobility_loop avgs l)) = length (filter (moves avgs) l) /\
  map agent_id (snd (mobility_loop avgs l))
  = map id (filter (moves avgs) l).
Proof.
  induction l as [| a l (IH1 & IH2 & IH3 & IH4)]; simpl; [auto |].
  destruct (mobility_loop avgs l) as [l' ch]. simpl in *.
  assert (M : moves avgs a
              = negb (ClassLevel_eqb (check_class_mobility a avgs)
                        (class_level a))) by reflexivity.
  rewrite M.
  destruct (ClassLevel_eqb (check_class_mobility a avgs) (class_level a))
    eqn:E; simpl.
  - repeat split; try congruence.
    f_equal; [| exact IH1].
    destruct (check_class_mobility a avgs), (class_level a);
      simpl in E; congruence.
  - unfold apart_from_class in *. simpl.
    repeat split; try congruence; f_equal; assumption.
Qed.

(** X8.  The class-mobility step assigns to every member the class that
    [check_class_mobility] returns for it on the stored class averages and
    changes no other attribute of any member.  If no member moves, the event
    log is left as it is; otherwise exactly one class_mobility event is
    appended, stamped with the current round, whose total_changes is the
    number of members that moved and whose changes name those members in
    population order. *)
Theorem class_mobility_step (s : Society) :
  let avgs := class_averages_of s in
  let s' := _check_class_mobility s in
  let movers := filter (moves avgs) (agents s) in
  map class_level (agents s')
  = map (fun a => check_class_mobility a avgs) (agents s) /\
  map apart_from_class (agents s') = map apart_from_class (agents s) /\
  (movers = [] -> event_history s' = event_history s) /\
  (movers <> [] ->
   exists changes,
     event_history s'
     = event_history s
       ++ [mkEvent (class_mobility changes (length movers))
             (current_round s)] /\
     map agent_id changes = map id movers).
Proof.
  cbv zeta. unfold _check_class_mobility.
  fold (class_averages_of s).
  destruct (mobility_loop_spec (class_averages_of s) (agents s))
    as (H1 & H2 & H3 & H4).
  destruct (mobility_loop (class_averages_of s) (agents s)) as [l ch].
  simpl in *.
  destruct ch as [| c ch].
  - simpl in *. repeat split; auto.
    intros Hm. destruct (filter _ (agents s)); [congruence | discriminate].
  - simpl. repeat split; auto.
    + intros Hm. rewrite Hm in H3. discriminate.
    + intros _. exists (c :: ch). split; [| exact H4].
      now rewrite <- H3.
Qed.

Lemma class_mobility_step_witness :
  event_history (_check_class_mobility society_of_none)
  = event_history society_of_none /\
  exists changes,
    event_history (_check_class_mobility society_with_riser)
    = event_history society_with_riser
      ++ [mkEvent
            (class_mobility changes
               (length (filter (moves (class_averages_of society_with_riser))
                          (agents society_with_riser))))
            (current_round society_with_riser)] /\
    map agent_id changes
    = map id (filter (moves (class_averages_of society_with_riser))
                (agents society_with_riser)).
Proof.
  split.
  - apply (proj1 (proj2 (proj2 (class_mobility_step society_of_none)))).
    reflexivity.
  - apply (proj2 (proj2 (proj2 (class_mobility_step society_with_riser)))).
    vm_compute. discriminate.
Defined.

(** ** What a round leaves alone *)

Section RoundFrame.
Context {X : Type} (f : Agent -> X).
Hypothesis f_wealth : forall a v, f (set_wealth a v) = f a.
Hypothesis f_power : forall a v, f (set_power a v) = f a.

Lemma mapM_compete_frame (c : Q) (l : list Agent) (g : RandomState) :
  map f (map fst (fst (mapM (compete c) l g))) = map f l.
Proof.
  revert g. induction l as [| a l IH]; intros g; simpl; [reflexivity |].
  unfold bind.
  assert (H : f (fst (fst (compete c a g))) = f a).
  { unfold compete, bind, random_random. simpl.
    destruct (Qltb _ _); simpl; [| reflexivity].
    now rewrite f_wealth, f_power. }
  destruct (compete c a g) as [[a' b] g1]. simpl in H.
  specialize (IH g1). destruct (mapM (compete c) l g1) as [ys g2].
  simpl in *. now rewrite H, IH.
Qed.

Lemma _execute_event_frame (s : Society) (e : EventType) (g : RandomState) :
  map f (agents (fst (_execute_event s e g))) = map f (agents s).
Proof.
  destruct e; simpl.
  - unfold _execute_social_event.
    destruct (Qle_bool _ _); simpl; [| reflexivity].
    rewrite map_map. apply map_ext. intros a. unfold reward_care.
    destruct (Qltb 0.6 (care_skill a)); [| reflexivity].
    now rewrite f_wealth, f_power.
  - unfold bind, _execute_economic_event, bind.
    pose proof (mapM_compete_frame (policy_levers s competition_reward)
                  (agents s) g) as H.
    destruct (mapM _ (agents s) g) as [res g1]. simpl in *. exact H.
Qed.

Lemma collect_tax_frame (average tax_rate : Q) (l : list Agent) (t : Q) :
  map f (fst (collect_tax average tax_rate l t)) = map f l.
Proof.
  revert t. induction l as [| a l IH]; intros t; simpl; [reflexivity |].
  destruct (Qltb (average * 0.5) (wealth a)).
  - specialize (IH (t + wealth a * tax_rate
                          * py_max 0 (wealth a / average - 0.5))).
    destruct (collect_tax average tax_rate l _) as [r tt].
    simpl in *. now rewrite f_wealth, IH.
  - specialize (IH t).
    destruct (collect_tax average tax_rate l t) as [r tt].
    simpl in *. now rewrite IH.
Qed.

Lemma _execute_tax_redistribution_agents_frame (s : Society) :
  map f (agents (_execute_tax_redistribution s)) = map f (agents s).
Proof.
  unfold _execute_tax_redistribution.
  destruct (Qle_bool (policy_levers s tax_redistribution) 0); [reflexivity |].
  pose proof (collect_tax_frame (average_wealth s)
                (policy_levers s tax_redistribution) (agents s) 0) as H.
  destruct (collect_tax _ _ (agents s) 0) as [taxed total_tax].
  simpl in H. destruct (Qltb 0 total_tax); simpl; [| exact H].
  rewrite map_map, <- H. apply map_ext. intros a. apply f_wealth.
Qed.

Lemma steps_1_to_4_frame (s : Society) (g : RandomState) :
  map f (agents (fst (steps_1_to_4 s g))) = map f (agents s).
Proof.
  unfold steps_1_to_4, bind.
  pose proof (_core_circle_voting_agents s g) as H1.
  destruct (_core_circle_voting s g) as [s1 g1]. simpl in H1.
  destruct (_trigger_event s1 g1) as [ev g2].
  pose proof (_execute_event_frame s1 ev g2) as H2.
  destruct (_execute_event s1 ev g2) as [s2 g3]. simpl in *.
  rewrite _execute_tax_redistribution_agents_frame.
  unfold _apply_attribution_bias. simpl. rewrite map_map.
  rewrite <- H1, <- H2. apply map_ext. intros a. apply f_power.
Qed.

Hypothesis f_effects : forall a l, f (set_sanction_effects a l) = f a.
Hypothesis f_update_wealth : forall a v, f (update_wealth a v) = f a.
Hypothesis f_update_power : forall a, f (update_power a) = f a.

Lemma _run_single_round_frame (s : Society) (g : RandomState) :
  map f (agents (fst (_run_single_round s g))) = map f (agents s).
Proof.
  rewrite _run_single_round_steps, update_statistics_agents.
  rewrite <- (steps_1_to_4_frame s g).
  unfold _execute_social_sanctions, _update_wealth_power.
  cbn [agents set_agents]. rewrite !map_map.
  apply map_ext. intros a.
  unfold sanction_agent, add_sanction_effect, grow_agent,
    update_sanction_effects.
  destruct (Qltb _ _);
    now rewrite ?f_effects, f_power, f_update_power, f_update_wealth.
Qed.
End RoundFrame.

Lemma vote_each_shell (l : list PolicyName) (s : Society) (g : RandomState) :
  current_round (fst (vote_each s l g)) = current_round s /\
  core_decision_circle (fst (vote_each s l g)) = core_decision_circle s.
Proof.
  revert s g. induction l as [| p l IH]; intros s g; simpl; [auto |].
  unfold bind.
  assert (H : current_round (fst (vote_and_record s p g)) = current_round s /\
              core_decision_circle (fst (vote_and_record s p g))
              = core_decision_circle s).
  { unfold vote_and_record, bind.
    destruct (vote_on_policy s p g) as [nv g'].
    destruct (Qltb 0.01 (Qabs (nv - policy_levers s p))); simpl; auto. }
  destruct (vote_and_record s p g) as [s' g']. simpl in H.
  destruct (IH s' g') as [H1 H2]. destruct H as [H3 H4].
  split; congruence.
Qed.

Lemma steps_1_to_4_shell (s : Society) (g : RandomState) :
  current_round (fst (steps_1_to_4 s g)) = current_round s /\
  core_decision_circle (fst (steps_1_to_4 s g)) = core_decision_circle s.
Proof.
  unfold steps_1_to_4, bind.
  assert (H1 : current_round (fst (_core_circle_voting s g))
               = current_round s /\
               core_decision_circle (fst (_core_circle_voting s g))
               = core_decision_circle s).
  { unfold _core_circle_voting, bind.
    destruct (random_randint 1 2 g) as [n g1].
    destruct (random_sample _ (Z.to_nat n) g1) as [sel g2].
    apply vote_each_shell. }
  destruct (_core_circle_voting s g) as [s1 g1]. simpl in H1.
  destruct (_trigger_event s1 g1) as [ev g2].
  assert (H2 : current_round (fst (_execute_event s1 ev g2))
               = current_round s1 /\
               core_decision_circle (fst (_execute_event s1 ev g2))
               = core_decision_circle s1).
  { destruct ev; simpl.
    - unfold _execute_social_event. destruct (Qle_bool _ _); simpl; auto.
    - unfold bind, _execute_economic_event, bind.
      destruct (mapM _ (agents s1) g2) as [res g3]. simpl. auto. }
  destruct (_execute_event s1 ev g2) as [s2 g3]. simpl in *.
  destruct (_execute_tax_redistribution_frame (_apply_attribution_bias s2))
    as (_ & _ & E1 & E2).
  rewrite E1, E2. simpl. destruct H1, H2. split; congruence.
Qed.

Lemma _run_single_round_shell (s : Society) (g : RandomState) :
  current_round (fst (_run_single_round s g)) = current_round s /\
  core_decision_circle (fst (_run_single_round s g)) = core_decision_circle s.
Proof.
  rewrite _run_single_round_steps.
  destruct (update_statistics_frame
              (_execute_social_sanctions
                 (_update_wealth_power (fst (steps_1_to_4 s g)))))
    as (_ & _ & E1 & E2).
  rewrite E1, E2. simpl. apply steps_1_to_4_shell.
Qed.

(** X9.  A round (steps 1 to 7) changes no member's identity, gender, class,
    skills, ideology, numeric ideology, last-change round or ideology
    history, keeps the members in their order, and leaves the elite circle
    and the round counter as they are: it writes wealth, power, sanction
    effects and their histories, the levers, the event log and the
    statistics only. *)
Theorem round_leaves_standing (s : Society) (g : RandomState) :
  map standing (agents (fst (_run_single_round s g)))
  = map standing (agents s) /\
  core_decision_circle (fst (_run_single_round s g))
  = core_decision_circle s /\
  current_round (fst (_run_single_round s g)) = current_round s.
Proof.
  split.
  - apply (_run_single_round_frame standing); reflexivity.
  - destruct (_run_single_round_shell s g). auto.
Qed.

(** ** What the operations of every tenth round leave alone *)

Section RunFrame.
Context {X : Type} (f : Agent -> X).
Hypothesis f_wealth : forall a v, f (set_wealth a v) = f a.
Hypothesis f_power : forall a v, f (set_power a v) = f a.
Hypothesis f_effects : forall a l, f (set_sanction_effects a l) = f a.
Hypothesis f_update_wealth : forall a v, f (update_wealth a v) = f a.
Hypothesis f_update_power : forall a, f (update_power a) = f a.
Hypothesis f_care : forall a v, f (set_care_skill a v) = f a.
Hypothesis f_competition : forall a v, f (set_competition_skill a v) = f a.
Hypothesis f_class : forall a c, f (set_class_level a c) = f a.
Hypothesis f_ideology :
  forall a i r, f (fst (change_ideology a i r)) = f a.

Lemma mapM_frame {A} (h : A -> Rand Agent) (proj : A -> Agent) (l : list A)
    (g : RandomState) :
  (forall x g', f (fst (h x g')) = f (proj x)) ->
  map f (fst (mapM h l g)) = map f (map proj l).
Proof.
  intros H. revert g. induction l as [| x l IH]; intros g; simpl;
    [reflexivity |].
  unfold bind. pose proof (H x g) as Hx.
  destruct (h x g) as [y g1]. specialize (IH g1).
  destruct (mapM h l g1) as [ys g2]. simpl in *. now rewrite Hx, IH.
Qed.

Lemma learn_one_frame (rate : Q) (cohort : list nat) (succ : list Agent)
    (ia : nat * Agent) (g : RandomState) :
  f (fst (learn_one rate cohort succ ia g)) = f (snd ia).
Proof.
  destruct ia as [i a]. unfold learn_one.
  destruct (existsb (Nat.eqb i) cohort); [reflexivity |].
  unfold bind. destruct (_find_learning_target a succ g) as [[t |] g1];
    simpl; [| reflexivity].
  unfold learn_from_successful_agent.
  now rewrite !f_competition, !f_care.
Qed.

Lemma convert_agent_frame (r : Z) (a : Agent) (g : RandomState) :
  f (fst (convert_agent r a g)) = f a.
Proof.
  assert (Hd : forall pb g', f (fst (dissonance r pb a g')) = f a).
  { intros pb g'. unfold dissonance.
    destruct (in_P_F (ideology a)); [| reflexivity].
    destruct (Qltb pb (-0.1)); [| reflexivity].
    unfold bind, random_random. simpl.
    destruct (Qltb _ 0.1); simpl; [apply f_ideology | reflexivity]. }
  assert (Hr : forall pb g', f (fst (rational_choice r pb a g')) = f a).
  { intros pb g'. unfold rational_choice.
    destruct (Ideology_eqb (ideology a) U); [| apply Hd].
    match goal with
    | |- context [match ?t with Some _ => _ | None => _ end] => destruct t
    end; [| reflexivity].
    unfold bind, random_random. simpl.
    destruct (Qltb _ 0.2); simpl; [apply f_ideology | apply Hd]. }
  unfold convert_agent.
  destruct (r - last_ideology_change a <? 3)%Z; [reflexivity |].
  destruct (in_P_F (ideology a) && Qltb _ (-0.2)); [| apply Hr].
  unfold bind, random_random. simpl.
  destruct (Qltb _ 0.3); simpl; [apply f_ideology | apply Hr].
Qed.

Lemma mobility_loop_frame (avgs : ClassLevel -> Q) (l : list Agent) :
  map f (fst (mobility_loop avgs l)) = map f l.
Proof.
  induction l as [| a l IH]; simpl; [reflexivity |].
  destruct (mobility_loop avgs l) as [l' ch]. simpl in *.
  destruct (ClassLevel_eqb _ _); simpl; now rewrite ?f_class, IH.
Qed.

Lemma _run_periodic_operations_frame (s : Society) (g : RandomState) :
  map f (agents (fst (_run_periodic_operations s g))) = map f (agents s).
Proof.
  unfold _run_periodic_operations, bind.
  assert (H1 : map f (agents (fst (_execute_learning_imitation s g)))
               = map f (agents s)).
  { unfold _execute_learning_imitation.
    destruct (deref _ _) as [| t0 succ] eqn:E; [reflexivity |].
    unfold bind.
    pose proof (mapM_frame
                  (learn_one (get_default (learning_rate (config s)) 0.1)
                     (firstn (Z.to_nat (py_int (len (agents s) * 0.2)))
                        (ranked_by_power (agents s)))
                     (t0 :: succ))
                  snd (enumerate (agents s)) g
                  (fun x g' => learn_one_frame _ _ _ x g')) as H.
    destruct (mapM _ (enumerate (agents s)) g) as [l g1]. simpl in *.
    rewrite H. unfold enumerate. now rewrite enumerate_from_snd. }
  destruct (_execute_learning_imitation s g) as [s1 g1]. simpl in H1.
  unfold _execute_ideology_conversion, bind.
  pose proof (mapM_frame (convert_agent (current_round s1)) (fun a => a)
                (agents s1) g1
                (fun x g' => convert_agent_frame _ x g')) as H2.
  destruct (mapM _ (agents s1) g1) as [l g2]. simpl in *.
  rewrite map_id in H2.
  unfold _check_class_mobility.
  pose proof (mobility_loop_frame
                (fun c => avg_wealth
                   (class_stats
                      (update_core_decision_circle (set_agents s1 l)) c))
                (agents (update_core_decision_circle (set_agents s1 l))))
    as H3.
  destruct (mobility_loop _ _) as [l3 ch]. simpl in H3.
  destruct ch; simpl; congruence.
Qed.

Lemma run_round_frame (sim : SocialSimulation) (r : Z) (g : RandomState) :
  map f (agents (society (fst (run_round sim r g))))
  = map f (agents (society sim)).
Proof.
  unfold run_round, bind.
  pose proof (_run_single_round_frame f f_wealth f_power f_effects
                f_update_wealth f_update_power
                (set_current_round (society sim) r) g) as H.
  destruct (_run_single_round (set_current_round (society sim) r) g)
    as [s1 g1]. simpl in H.
  destruct (r mod 10 =? 0)%Z; simpl; [| exact H].
  pose proof (_run_periodic_operations_frame s1 g1) as H2.
  destruct (_run_periodic_operations s1 g1) as [s2 g2]. simpl in *.
  congruence.
Qed.

Lemma run_rounds_frame (n : nat) (sim : SocialSimulation) (first : Z)
    (g : RandomState) :
  map f (agents (society (fst (run_rounds sim first n g))))
  = map f (agents (society sim)).
Proof.
  revert sim first g. induction n as [| n IH]; intros sim first g; simpl;
    [reflexivity |].
  unfold bind. pose proof (run_round_frame sim first g) as H.
  destruct (run_round sim first g) as [sim' g']. simpl in H.
  now rewrite IH.
Qed.
End RunFrame.

(** ** Invariants of a run and of its snapshots *)

Lemma py_range_length (first : Z) (n : nat) : length (py_range first n) = n.
Proof.
  revert first. induction n as [| n IH]; intros first; simpl;
    [reflexivity | now rewrite IH].
Qed.

Lemma run_round_snapshot (sim : SocialSimulation) (r : Z) (g : RandomState) :
  rounds (fst (run_round sim r g))
  = rounds sim
    ++ [to_dict (fst (_run_single_round (set_current_round (society sim) r)
                        g))].
Proof.
  unfold run_round, bind.
  destruct (_run_single_round (set_current_round (society sim) r) g)
    as [s1 g1].
  destruct (r mod 10 =? 0)%Z; simpl; [| reflexivity].
  destruct (_run_periodic_operations s1 g1) as [s2 g2]. reflexivity.
Qed.

Section RunInvariant.
Variable Inv : Society -> Prop.
Variable Rec : Z -> Snapshot -> Prop.
Hypothesis Inv_round :
  forall s r g,
    Inv s -> Inv (fst (_run_single_round (set_current_round s r) g)).
Hypothesis Rec_round :
  forall s r g,
    Inv s ->
    Rec r (to_dict (fst (_run_single_round (set_current_round s r) g))).
Hypothesis Inv_periodic :
  forall s g, Inv s -> Inv (fst (_run_periodic_operations s g)).

Lemma run_round_invariant (sim : SocialSimulation) (r : Z) (g : RandomState) :
  Inv (society sim) -> Inv (society (fst (run_round sim r g))).
Proof.
  intros H. unfold run_round, bind.
  pose proof (Inv_round (society sim) r g H) as H1.
  destruct (_run_single_round (set_current_round (society sim) r) g)
    as [s1 g1]. simpl in H1.
  destruct (r mod 10 =? 0)%Z; simpl; [| exact H1].
  pose proof (Inv_periodic s1 g1 H1) as H2.
  destruct (_run_periodic_operations s1 g1) as [s2 g2]. exact H2.
Qed.

Lemma run_rounds_invariant (n : nat) (sim : SocialSimulation) (first : Z)
    (g : RandomState) :
  Inv (society sim) ->
  Inv (society (fst (run_rounds sim first n g))) /\
  exists new,
    rounds (fst (run_rounds sim first n g)) = rounds sim ++ new /\
    Forall2 Rec (py_range first n) new.
Proof.
  revert sim first g. induction n as [| n IH]; intros sim first g H; simpl.
  - split; [exact H |]. exists []. now rewrite app_nil_r.
  - unfold bind.
    pose proof (run_round_invariant sim first g H) as H1.
    pose proof (run_round_snapshot sim first g) as H2.
    pose proof (Rec_round (society sim) first g H) as H3.
    destruct (run_round sim first g) as [sim' g']. simpl in H1, H2.
    destruct (IH sim' (first + 1)%Z g' H1) as (Hi & new & E & F).
    split; [exact Hi |].
    eexists (_ :: new). split.
    + rewrite E, H2, <- app_assoc. reflexivity.
    + constructor; assumption.
Qed.
End RunInvariant.

Lemma Forall2_right {A B} (P : B -> Prop) (l : list A) (l' : list B) :
  Forall2 (fun _ y => P y) l l' -> Forall P l' /\ length l' = length l.
Proof.
  induction 1 as [| x y l l' H _ [IH1 IH2]]; simpl; auto.
Qed.

Lemma Forall_frame {X} (f : Agent -> X) (P : Agent -> Prop)
    (l l' : list Agent) :
  (forall a b, f a = f b -> P a -> P b) ->
  map f l' = map f l -> Forall P l -> Forall P l'.
Proof.
  intros Hf. revert l'. induction l as [| a l IH]; intros [| b l'] E H;
    simpl in *; try discriminate; constructor.
  - injection E as E1 E2. inversion H; subst. eapply Hf; eauto.
  - injection E as E1 E2. inversion H; subst. auto.
Qed.

Lemma who_change_ideology (a : Agent) (i : Ideology) (r : Z) :
  who (fst (change_ideology a i r)) = who a.
Proof. unfold change_ideology. destruct (_ <=? _)%Z; reflexivity. Qed.

Lemma map_snap_who (l : list Agent) :
  map snap_who (map Agent_to_dict l) = map who l.
Proof. rewrite map_map. reflexivity. Qed.

(** X10.  Nobody joins or leaves during a run: after [run_simulation] the
    population holds the same members, with the same identifiers and
    genders, in the same order, and each of the snapshots the run records,
    one per round, lists exactly these members. *)
Theorem run_keeps_population (sim : SocialSimulation) (n : Z)
    (g : RandomState) :
  map who (agents (society (fst (run_simulation sim n g))))
  = map who (agents (society sim)) /\
  exists new,
    rounds (fst (run_simulation sim n g)) = rounds sim ++ new /\
    length new = Z.to_nat n /\
    Forall (fun snap =>
              map snap_who (snap_agents snap) = map who (agents (society sim)))
      new.
Proof.
  unfold run_simulation.
  destruct (run_rounds_invariant
              (fun s => map who (agents s) = map who (agents (society sim)))
              (fun _ snap =>
                 map snap_who (snap_agents snap)
                 = map who (agents (society sim))))
    with (n := Z.to_nat n) (sim := sim) (first := 1%Z) (g := g)
    as (H & new & E & F).
  - intros s r g0 Hs.
    rewrite (_run_single_round_frame who); try reflexivity. exact Hs.
  - intros s r g0 Hs. simpl. rewrite map_snap_who.
    rewrite (_run_single_round_frame who); try reflexivity. exact Hs.
  - intros s g0 Hs.
    rewrite (_run_periodic_operations_frame who); try reflexivity;
      [exact Hs | apply who_change_ideology].
  - reflexivity.
  - split; [exact H |]. exists new. split; [exact E |].
    apply Forall2_right in F as [F L]. rewrite py_range_length in L. auto.
Qed.

(** ** The population that [_initialize_society] creates *)

Lemma list_set_length {A} (l : list A) (j : nat) (v : A) :
  length (list_set l j v) = length l.
Proof.
  revert j. induction l as [| x l IH]; intros [| j]; simpl; auto.
Qed.

Lemma list_set_perm {A} (l : list A) (j : nat) (v old : A) :
  nth_error l j = Some old ->
  Permutation (v :: l) (old :: list_set l j v).
Proof.
  revert j. induction l as [| x l IH]; intros [| j] H; simpl in *;
    try discriminate.
  - injection H as ->. apply perm_swap.
  - apply perm_trans with (x :: v :: l); [apply perm_swap |].
    apply perm_trans with (x :: old :: list_set l j v);
      [apply perm_skip; now apply IH | apply perm_swap].
Qed.

Lemma nth_error_list_set {A} (l : list A) (i j : nat) (v old : A) :
  nth_error l i = Some old ->
  nth_error (list_set l i v) j
  = if Nat.eqb j i then Some v else nth_error l j.
Proof.
  revert i j. induction l as [| x l IH]; intros [| i] [| j] H; simpl in *;
    try discriminate; auto.
Qed.

Lemma swap_perm {A} (x : list A) (i j : nat) (xi xj : A) :
  nth_error x i = Some xi -> nth_error x j = Some xj ->
  Permutation (list_set (list_set x i xj) j xi) x.
Proof.
  intros Hi Hj.
  assert (H1 : nth_error (list_set x i xj) j = Some xj).
  { rewrite (nth_error_list_set x i j xj xi Hi).
    destruct (Nat.eqb j i); [reflexivity | exact Hj]. }
  apply Permutation_sym, Permutation_cons_inv with (a := xj).
  eapply perm_trans; [apply (list_set_perm x i xj xi Hi) |].
  apply (list_set_perm _ j xi xj H1).
Qed.

Lemma shuffle_from_perm {A} (i : nat) (x : list A) (g : RandomState) :
  Permutation (fst (shuffle_from x i g)) x.
Proof.
  revert x g. induction i as [| i IH]; intros x g; [apply Permutation_refl |].
  cbn [shuffle_from]. unfold bind.
  destruct (randbelow (S (S i)) g) as [j g1].
  destruct (nth_error x (S i)) as [xi |] eqn:Ei; [| apply Permutation_refl].
  destruct (nth_error x j) as [xj |] eqn:Ej; [| apply Permutation_refl].
  eapply perm_trans; [apply IH | now apply swap_perm].
Qed.

Lemma random_shuffle_perm {A} (x : list A) (g : RandomState) :
  Permutation (fst (random_shuffle x g)) x.
Proof. apply shuffle_from_perm. Qed.

Lemma create_agents_spec (combos : list (Gender * ClassLevel)) (c : Config)
    (i : nat) (g : RandomState) :
  map gender_class (fst (create_agents i combos c g)) = combos /\
  map id (fst (create_agents i combos c g)) = seq i (length combos).
Proof.
  revert i g. induction combos as [| [gd cl] l IH]; intros i g; simpl;
    [auto |].
  unfold bind.
  assert (H : gender_class (fst (new_Agent i gd cl c g)) = (gd, cl) /\
              id (fst (new_Agent i gd cl c g)) = i).
  { unfold new_Agent, bind.
    destruct (_initialize_skills gd c g) as [sk g1].
    destruct (_initialize_wealth cl g1) as [w g2].
    destruct (_initialize_ideology g2) as [i0 g3]. auto. }
  destruct (new_Agent i gd cl c g) as [a g1].
  destruct (IH (S i) g1) as [H1 H2].
  destruct (create_agents (S i) l c g1) as [others g2]. simpl in *.
  destruct H as [E1 E2]. now rewrite E1, E2, H1, H2.
Qed.

Lemma create_agents_Forall (P : Agent -> Prop) :
  (forall i gd cl c g, P (fst (new_Agent i gd cl c g))) ->
  forall combos c i g, Forall P (fst (create_agents i combos c g)).
Proof.
  intros H combos c. induction combos as [| [gd cl] l IH]; intros i g; simpl;
    [constructor |].
  unfold bind. pose proof (H i gd cl c g) as Ha.
  destruct (new_Agent i gd cl c g) as [a g1].
  specialize (IH (S i) g1).
  destruct (create_agents (S i) l c g1) as [others g2]. simpl in *.
  now constructor.
Qed.

Lemma new_SocietyState_frame (l : list Agent) (c : Config) :
  agents (new_SocietyState l c) = l /\
  current_round (new_SocietyState l c) = 0%Z /\
  event_history (new_SocietyState l c) = [] /\
  policy_levers (new_SocietyState l c)
  = (fun k => get_default (initial_lever c k) (default_lever k)).
Proof.
  unfold new_SocietyState.
  rewrite update_statistics_agents.
  destruct (update_statistics_frame
              (update_core_decision_circle (blank_SocietyState l c)))
    as (-> & -> & -> & _).
  repeat split.
Qed.

Lemma _initialize_society_shape (c : Config) (g : RandomState) :
  exists combos g1,
    Permutation combos (gender_class_combinations c) /\
    society (fst (_initialize_society c g))
    = new_SocietyState (fst (create_agents 0 combos c g1)) c /\
    rounds (fst (_initialize_society c g))
    = [to_dict (society (fst (_initialize_society c g)))].
Proof.
  unfold _initialize_society, bind.
  fold (gender_class_combinations c).
  pose proof (random_shuffle_perm (gender_class_combinations c) g) as Hp.
  destruct (random_shuffle (gender_class_combinations c) g) as [sh g1].
  exists sh, g1. simpl in Hp.
  destruct (create_agents 0 sh c g1) as [l g2]. simpl. auto.
Qed.

Lemma filter_length_perm {A} (f : A -> bool) (l l' : list A) :
  Permutation l l' -> length (filter f l) = length (filter f l').
Proof.
  induction 1 as [| x l l' _ IH | x y l | l l' l'' _ IH1 _ IH2]; simpl.
  - reflexivity.
  - destruct (f x); simpl; now rewrite IH.
  - destruct (f x), (f y); reflexivity.
  - congruence.
Qed.

Lemma members_of_gender_class (g : Gender) (cl : ClassLevel)
    (l : list Agent) :
  members_of g cl l
  = length (filter (fun p => gender_class_eqb p (g, cl))
              (map gender_class l)).
Proof.
  unfold members_of. induction l as [| a l IH]; simpl; [reflexivity |].
  unfold gender_class_eqb at 1. simpl.
  destruct (Gender_eqb (gender a) g && ClassLevel_eqb (class_level a) cl);
    simpl; now rewrite IH.
Qed.

Lemma filter_times (p q : Gender * ClassLevel) (k : Z) :
  length (filter (fun x => gender_class_eqb x q) (times p k))
  = if gender_class_eqb p q then Z.to_nat k else 0%nat.
Proof.
  unfold times. induction (Z.to_nat k) as [| n IH]; simpl.
  - now destruct (gender_class_eqb p q).
  - destruct (gender_class_eqb p q); simpl; now rewrite ?IH.
Qed.

Lemma gender_class_combinations_count (c : Config) (g : Gender)
    (cl : ClassLevel) :
  length (filter (fun p => gender_class_eqb p (g, cl))
            (gender_class_combinations c))
  = Z.to_nat
      (match g with
       | male => py_int (inject_Z (class_count c cl) * 0.5)
       | female =>
           class_count c cl - py_int (inject_Z (class_count c cl) * 0.5)
       end).
Proof.
  unfold gender_class_combinations, class_count. cbn [flat_map].
  rewrite !filter_app, !length_app, !filter_times. cbn [filter length].
  destruct g, cl; cbn [gender_class_eqb fst snd Gender_eqb ClassLevel_eqb
                         andb]; lia.
Qed.

Lemma py_int_fraction (t : Z) (q : Q) :
  (0 <= t)%Z -> 0 <= q -> q <= 1 ->
  (0 <= py_int (inject_Z t * q))%Z /\
  inject_Z (py_int (inject_Z t * q)) <= inject_Z t * q.
Proof.
  intros Ht Hq0 Hq1.
  assert (H0 : 0 <= inject_Z t * q).
  { apply Qmult_le_0_compat; [| exact Hq0].
    change 0 with (inject_Z 0). now rewrite <- Zle_Qle. }
  unfold py_int.
  replace (Qltb (inject_Z t * q) 0) with false
    by (symmetry; now apply Qltb_ge).
  split; [| apply Qfloor_le].
  change 0%Z with (Qfloor 0). now apply Qfloor_resp_le.
Qed.

Lemma times_length {A} (x : A) (k : Z) : length (times x k) = Z.to_nat k.
Proof. apply repeat_length. Qed.

Lemma gender_class_combinations_length (c : Config) :
  (0 <= total_population c)%Z ->
  length (gender_class_combinations c) = Z.to_nat (total_population c).
Proof.
  intros Ht. unfold gender_class_combinations. cbn [flat_map].
  rewrite !length_app, !times_length. simpl length.
  set (t := total_population c) in *.
  destruct (py_int_fraction t 0.6 Ht) as [L0 L1]; [lra | lra |].
  destruct (py_int_fraction t 0.3 Ht) as [M0 M1]; [lra | lra |].
  set (lo := py_int (inject_Z t * 0.6)) in *.
  set (mi := py_int (inject_Z t * 0.3)) in *.
  assert (Hh : (0 <= t - lo - mi)%Z).
  { assert (H : inject_Z (lo + mi) <= inject_Z t).
    { rewrite inject_Z_plus.
      assert (0 <= inject_Z t)
        by (change 0 with (inject_Z 0); now rewrite <- Zle_Qle).
      lra. }
    rewrite <- Zle_Qle in H. lia. }
  destruct (py_int_fraction lo 0.5 L0) as [A0 A1]; [lra | lra |].
  destruct (py_int_fraction mi 0.5 M0) as [B0 B1]; [lra | lra |].
  destruct (py_int_fraction (t - lo - mi) 0.5 Hh) as [C0 C1]; [lra | lra |].
  assert (HA : (py_int (inject_Z lo * 0.5) <= lo)%Z).
  { rewrite Zle_Qle.
    assert (0 <= inject_Z lo)
      by (change 0 with (inject_Z 0); now rewrite <- Zle_Qle). lra. }
  assert (HB : (py_int (inject_Z mi * 0.5) <= mi)%Z).
  { rewrite Zle_Qle.
    assert (0 <= inject_Z mi)
      by (change 0 with (inject_Z 0); now rewrite <- Zle_Qle). lra. }
  assert (HC : (py_int (inject_Z (t - lo - mi) * 0.5) <= t - lo - mi)%Z).
  { rewrite Zle_Qle.
    assert (0 <= inject_Z (t - lo - mi))
      by (change 0 with (inject_Z 0); now rewrite <- Zle_Qle). lra. }
  lia.
Qed.

(** X11.  Whatever the shuffle draws, [_initialize_society] gives every
    class its head count (60% and 30% of the population, truncated, for low
    and middle, the rest for high), half of it, truncated, male and the
    others female.  For a population size that is not negative the
    population has exactly that size. *)
Theorem _initialize_society_population (c : Config) (g : RandomState) :
  let l := agents (society (fst (_initialize_society c g))) in
  (forall cl,
     members_of male cl l
     = Z.to_nat (py_int (inject_Z (class_count c cl) * 0.5)) /\
     members_of female cl l
     = Z.to_nat (class_count c cl
                 - py_int (inject_Z (class_count c cl) * 0.5))) /\
  ((0 <= total_population c)%Z ->
   length l = Z.to_nat (total_population c)).
Proof.
  cbv zeta.
  destruct (_initialize_society_shape c g) as (combos & g1 & Hp & -> & _).
  destruct (new_SocietyState_frame (fst (create_agents 0 combos c g1)) c)
    as (-> & _).
  destruct (create_agents_spec combos c 0 g1) as [Hgc _].
  assert (Hlen : length (fst (create_agents 0 combos c g1)) = length combos).
  { rewrite <- Hgc at 2. now rewrite length_map. }
  split.
  - intros cl.
    rewrite !members_of_gender_class, Hgc.
    rewrite !(filter_length_perm _ _ _ Hp).
    split; apply gender_class_combinations_count.
  - intros Ht. rewrite Hlen, (Permutation_length Hp).
    now apply gender_class_combinations_length.
Qed.

Lemma _initialize_society_population_witness :
  length (agents (society (fst (_initialize_society (panel_config 10 0.3)
                                  (oracle [] [])))))
  = 10%nat.
Proof.
  apply (proj2 (_initialize_society_population (panel_config 10 0.3)
                  (oracle [] []))).
  simpl. lia.
Defined.

(** ** The snapshots of a complete run *)

Lemma Forall2_map_eq {A B} (f : B -> A) (l : list A) (l' : list B) :
  Forall2 (fun x y => f y = x) l l' -> map f l' = l.
Proof. induction 1; simpl; congruence. Qed.

(** X12.  A complete run records one snapshot when the society is built and
    one at the end of each round, in this order: their round numbers are 0,
    1, ..., max_rounds (only the initial snapshot for a number of rounds
    that is zero or negative), so that the list index of a snapshot is its
    round. *)
Theorem complete_run_snapshot_rounds (c : Config) (g : RandomState) :
  map snap_current_round (rounds (fst (complete_run c g)))
  = py_range 0 (S (Z.to_nat (max_rounds c))).
Proof.
  unfold complete_run, bind, run_simulation.
  destruct (_initialize_society_shape c g) as (combos & g1 & _ & Es & Er).
  destruct (new_SocietyState_frame (fst (create_agents 0 combos c g1)) c)
    as (_ & E0 & _).
  rewrite <- Es in E0.
  destruct (_initialize_society c g) as [sim g2]. simpl in Er, E0.
  destruct (run_rounds_invariant (fun _ => True)
              (fun r snap => snap_current_round snap = r))
    with (n := Z.to_nat (max_rounds c)) (sim := sim) (first := 1%Z) (g := g2)
    as (_ & new & E & F); auto.
  - intros s r g0 _. simpl.
    now destruct (_run_single_round_shell (set_current_round s r) g0)
      as [-> _].
  - rewrite E, Er, map_app. simpl. rewrite E0. f_equal.
    now apply Forall2_map_eq.
Qed.

(** ** Invariants of the members *)

Section PeriodicInvariant.
Variable P : Agent -> Prop.
Hypothesis P_learn :
  forall a t rate, P a -> P (learn_from_successful_agent a t rate).
Hypothesis P_ideology :
  forall a i r, P a -> P (fst (change_ideology a i r)).
Hypothesis P_class : forall a c, P a -> P (set_class_level a c).

Lemma mapM_Forall {A} (h : A -> Rand Agent) (proj : A -> Agent) (l : list A)
    (g : RandomState) :
  (forall x g', P (proj x) -> P (fst (h x g'))) ->
  Forall P (map proj l) -> Forall P (fst (mapM h l g)).
Proof.
  intros H. revert g. induction l as [| x l IH]; intros g F; simpl;
    [constructor |].
  inversion F as [| ? ? Hx Hl]; subst.
  unfold bind. pose proof (H x g Hx) as Hy.
  destruct (h x g) as [y g1]. specialize (IH g1 Hl).
  destruct (mapM h l g1) as [ys g2]. simpl in *. now constructor.
Qed.

Lemma learn_one_invariant (rate : Q) (cohort : list nat) (succ : list Agent)
    (ia : nat * Agent) (g : RandomState) :
  P (snd ia) -> P (fst (learn_one rate cohort succ ia g)).
Proof.
  destruct ia as [i a]. simpl. intros Ha. unfold learn_one.
  destruct (existsb (Nat.eqb i) cohort); [exact Ha |].
  unfold bind. destruct (_find_learning_target a succ g) as [[t |] g1];
    simpl; [now apply P_learn | exact Ha].
Qed.

Lemma convert_agent_invariant (r : Z) (a : Agent) (g : RandomState) :
  P a -> P (fst (convert_agent r a g)).
Proof.
  intros Ha.
  assert (Hd : forall pb g', P (fst (dissonance r pb a g'))).
  { intros pb g'. unfold dissonance.
    destruct (in_P_F (ideology a)); [| exact Ha].
    destruct (Qltb pb (-0.1)); [| exact Ha].
    unfold bind, random_random. simpl.
    destruct (Qltb _ 0.1); simpl; [now apply P_ideology | exact Ha]. }
  assert (Hr : forall pb g', P (fst (rational_choice r pb a g'))).
  { intros pb g'. unfold rational_choice.
    destruct (Ideology_eqb (ideology a) U); [| apply Hd].
    match goal with
    | |- context [match ?t with Some _ => _ | None => _ end] => destruct t
    end; [| exact Ha].
    unfold bind, random_random. simpl.
    destruct (Qltb _ 0.2); simpl; [now apply P_ideology | apply Hd]. }
  unfold convert_agent.
  destruct (r - last_ideology_change a <? 3)%Z; [exact Ha |].
  destruct (in_P_F (ideology a) && Qltb _ (-0.2)); [| apply Hr].
  unfold bind, random_random. simpl.
  destruct (Qltb _ 0.3); simpl; [now apply P_ideology | apply Hr].
Qed.

Lemma mobility_loop_invariant (avgs : ClassLevel -> Q) (l : list Agent) :
  Forall P l -> Forall P (fst (mobility_loop avgs l)).
Proof.
  induction 1 as [| a l Ha _ IH]; simpl; [constructor |].
  destruct (mobility_loop avgs l) as [l' ch]. simpl in *.
  destruct (ClassLevel_eqb _ _); simpl; constructor; auto.
Qed.

Lemma _run_periodic_operations_invariant (s : Society) (g : RandomState) :
  Forall P (agents s) -> Forall P (agents (fst (_run_periodic_operations s g))).
Proof.
  intros H. unfold _run_periodic_operations, bind.
  assert (H1 : Forall P (agents (fst (_execute_learning_imitation s g)))).
  { unfold _execute_learning_imitation.
    destruct (deref _ _) as [| t0 succ] eqn:E; [exact H |].
    unfold bind.
    pose proof (mapM_Forall
                  (learn_one (get_default (learning_rate (config s)) 0.1)
                     (firstn (Z.to_nat (py_int (len (agents s) * 0.2)))
                        (ranked_by_power (agents s)))
                     (t0 :: succ))
                  snd (enumerate (agents s)) g
                  (fun x g' => learn_one_invariant _ _ _ x g')) as H1.
    unfold enumerate in H1 at 1. rewrite enumerate_from_snd in H1.
    specialize (H1 H).
    destruct (mapM _ (enumerate (agents s)) g) as [l g1]. exact H1. }
  destruct (_execute_learning_imitation s g) as [s1 g1]. simpl in H1.
  unfold _execute_ideology_conversion, bind.
  pose proof (mapM_Forall (convert_agent (current_round s1)) (fun a => a)
                (agents s1) g1
                (fun x g' => convert_agent_invariant _ x g')) as H2.
  rewrite map_id in H2. specialize (H2 H1).
  destruct (mapM _ (agents s1) g1) as [l g2]. simpl in *.
  unfold _check_class_mobility.
  pose proof (mobility_loop_invariant
                (fun c => avg_wealth
                   (class_stats
                      (update_core_decision_circle (set_agents s1 l)) c))
                (agents (update_core_decision_circle (set_agents s1 l))) H2)
    as H3.
  destruct (mobility_loop _ _) as [l3 ch]. simpl in H3.
  destruct ch; simpl; exact H3.
Qed.
End PeriodicInvariant.

Section MemberInvariant.
Variable P : Agent -> Prop.
Variable PD : AgentDict -> Prop.
Hypothesis P_dict : forall a, P a -> PD (Agent_to_dict a).
Hypothesis P_new : forall i gd cl c g, P (fst (new_Agent i gd cl c g)).
Hypothesis P_round :
  forall s g,
    Forall P (agents s) -> Forall P (agents (fst (_run_single_round s g))).
Hypothesis P_periodic :
  forall s g,
    Forall P (agents s) ->
    Forall P (agents (fst (_run_periodic_operations s g))).

Lemma to_dict_members (s : Society) :
  Forall P (agents s) -> Forall PD (snap_agents (to_dict s)).
Proof.
  intros H. simpl. apply Forall_map.
  eapply Forall_impl; [| exact H]. exact P_dict.
Qed.

Lemma complete_run_members (c : Config) (g : RandomState) :
  Forall (fun snap => Forall PD (snap_agents snap))
    (rounds (fst (complete_run c g))) /\
  Forall P (agents (society (fst (complete_run c g)))).
Proof.
  unfold complete_run, bind, run_simulation.
  destruct (_initialize_society_shape c g) as (combos & g1 & _ & Es & Er).
  destruct (new_SocietyState_frame (fst (create_agents 0 combos c g1)) c)
    as (E0 & _).
  rewrite <- Es in E0.
  pose proof (create_agents_Forall P P_new combos c 0%nat g1) as H0.
  rewrite <- E0 in H0.
  destruct (_initialize_society c g) as [sim g2]. simpl in Er, H0.
  destruct (run_rounds_invariant (fun s => Forall P (agents s))
              (fun _ snap => Forall PD (snap_agents snap)))
    with (n := Z.to_nat (max_rounds c)) (sim := sim) (first := 1%Z) (g := g2)
    as (Hf & new & E & F); auto.
  - intros s r g0 Hs. apply to_dict_members. now apply P_round.
  - split; [| exact Hf].
    rewrite E, Er. apply Forall_app. split.
    + constructor; [now apply to_dict_members | constructor].
    + now apply Forall2_right in F as [F _].
Qed.
End MemberInvariant.

Lemma new_Agent_wealth_floor (i : nat) (gd : Gender) (cl : ClassLevel)
    (c : Config) (g : RandomState) :
  0.01 <= wealth (fst (new_Agent i gd cl c g)).
Proof.
  unfold new_Agent, bind.
  destruct (_initialize_skills gd c g) as [sk g1].
  pose proof (_initialize_wealth_floor cl g1) as H.
  destruct (_initialize_wealth cl g1) as [w g2].
  destruct (_initialize_ideology g2) as [i0 g3]. simpl in *. lra.
Qed.

Lemma _run_single_round_wealth_floor (s : Society) (g : RandomState) :
  Forall (fun a => 0.01 <= wealth a) (agents (fst (_run_single_round s g))).
Proof.
  rewrite _run_single_round_steps, update_statistics_agents.
  unfold _execute_social_sanctions, _update_wealth_power.
  cbn [agents set_agents]. rewrite map_map.
  apply Forall_forall. intros x Hx.
  apply in_map_iff in Hx as (a4 & <- & _).
  unfold sanction_agent.
  destruct (Qltb _ _); unfold add_sanction_effect, grow_agent; simpl;
    apply py_max_lower.
Qed.

(** X13.  In a complete run every snapshot -- the initial one and the one
    of each round -- records a wealth of at least 0.01 for every member, and
    so does the society the run leaves: the operations of every tenth round,
    which run after the snapshot of their round is taken, write no wealth. *)
Theorem wealth_floor_through_run (c : Config) (g : RandomState) :
  Forall (fun snap => Forall (fun d => 0.01 <= d_wealth d) (snap_agents snap))
    (rounds (fst (complete_run c g))) /\
  Forall (fun a => 0.01 <= wealth a)
    (agents (society (fst (complete_run c g)))).
Proof.
  apply (complete_run_members (fun a => 0.01 <= wealth a)).
  - intros a H. exact H.
  - apply new_Agent_wealth_floor.
  - intros s g0 _. apply _run_single_round_wealth_floor.
  - apply _run_periodic_operations_invariant.
    + intros a t rate H. exact H.
    + intros a i r H. unfold change_ideology.
      destruct (_ <=? _)%Z; exact H.
    + intros a cl H. exact H.
Qed.

Lemma np_clip_between (x lo hi : Q) :
  lo <= hi -> lo <= np_clip x lo hi /\ np_clip x lo hi <= hi.
Proof.
  intros H. unfold np_clip.
  destruct (py_min_case (py_max x lo) hi) as [[H1 ->] | [H1 ->]];
    destruct (py_max_case x lo) as [[H2 E] | [H2 E]]; rewrite ?E in *; lra.
Qed.

Lemma np_clip_sub_unit (x lo hi : Q) :
  0 <= lo -> lo <= hi -> hi <= 1 ->
  0 <= np_clip x lo hi /\ np_clip x lo hi <= 1.
Proof.
  intros H0 H H1. destruct (np_clip_between x lo hi H). lra.
Qed.

Lemma new_Agent_skills (i : nat) (gd : Gender) (cl : ClassLevel)
    (c : Config) (g : RandomState) :
  skills_in_range (fst (new_Agent i gd cl c g)).
Proof.
  unfold new_Agent, bind.
  assert (H : (0 <= fst (fst (_initialize_skills gd c g)) /\
               fst (fst (_initialize_skills gd c g)) <= 1) /\
              (0 <= snd (fst (_initialize_skills gd c g)) /\
               snd (fst (_initialize_skills gd c g)) <= 1)).
  { unfold _initialize_skills.
    destruct gd;
      cbv beta iota zeta
        delta [bind np_random_normal np_next ret fst snd Gender_eqb];
      split; apply np_clip_sub_unit; lra. }
  destruct (_initialize_skills gd c g) as [sk g1].
  destruct (_initialize_wealth cl g1) as [w g2].
  destruct (_initialize_ideology g2) as [i0 g3]. exact H.
Qed.

(** X14.  Both skills of every member are in [0,1] in every snapshot of a
    complete run and in the society the run leaves: they are drawn clipped
    into [0.1, 1.0], a round does not write them, and learning clips what it
    writes into [0,1]. *)
Theorem skills_in_range_through_run (c : Config) (g : RandomState) :
  Forall (fun snap => Forall snap_skills_in_range (snap_agents snap))
    (rounds (fst (complete_run c g))) /\
  Forall skills_in_range (agents (society (fst (complete_run c g)))).
Proof.
  apply (complete_run_members skills_in_range).
  - intros a H. exact H.
  - apply new_Agent_skills.
  - intros s g0. apply (Forall_frame standing).
    + unfold standing, skills_in_range. intros a b E. injection E.
      intros _ _ _ _ -> -> _ _ _. auto.
    + apply (_run_single_round_frame standing); reflexivity.
  - apply _run_periodic_operations_invariant.
    + intros a t rate _. unfold skills_in_range, learn_from_successful_agent.
      simpl. split; apply np_clip_unit.
    + intros a i r H. unfold change_ideology.
      destruct (_ <=? _)%Z; exact H.
    + intros a cl H. exact H.
Qed.



(** ** The event log *)

Lemma sample_pool_length {A} (k : nat) (pool : list A) (n i : nat)
    (g : RandomState) :
  (length (fst (sample_pool pool n k i g)) <= k)%nat.
Proof.
  revert pool i g. induction k as [| k IH]; intros pool i g; simpl;
    [lia |].
  unfold bind. destruct (randbelow (n - i) g) as [j g1].
  destruct (nth_error pool j) as [picked |]; [| simpl; lia].
  destruct (nth_error pool (n - i - 1)) as [last |]; [| simpl; lia].
  specialize (IH (list_set pool j last) (S i) g1).
  destruct (sample_pool (list_set pool j last) n k (S i) g1) as [rest g2].
  simpl in *. lia.
Qed.

Lemma random_randint_1_2 (g : RandomState) :
  (Z.to_nat (fst (random_randint 1 2 g)) <= 2)%nat.
Proof.
  unfold random_randint, randbelow, bind, random_random, ret, index_below.
  cbn [fst]. change (Z.to_nat (2 - 1 + 1)) with 2%nat. lia.
Qed.

(** An event recorded in the round in which the society is. *)
Lemma vote_and_record_events (s : Society) (p : PolicyName)
    (g : RandomState) :
  current_round (fst (vote_and_record s p g)) = current_round s /\
  exists votes,
    event_history (fst (vote_and_record s p g)) = event_history s ++ votes /\
    (length votes <= 1)%nat /\
    Forall (fun v => is_policy_change v = true /\ round v = current_round s)
      votes.
Proof.
  unfold vote_and_record, bind.
  destruct (vote_on_policy s p g) as [nv g'].
  destruct (Qltb 0.01 (Qabs (nv - policy_levers s p))); simpl.
  - split; [reflexivity |]. eexists [_]. split; [reflexivity |].
    split; [simpl; lia |]. constructor; [split; reflexivity | constructor].
  - split; [reflexivity |]. exists []. rewrite app_nil_r.
    split; [reflexivity |]. split; [simpl; lia | constructor].
Qed.

Lemma vote_each_events (l : list PolicyName) (s : Society) (g : RandomState) :
  exists votes,
    event_history (fst (vote_each s l g)) = event_history s ++ votes /\
    (length votes <= length l)%nat /\
    Forall (fun v => is_policy_change v = true /\ round v = current_round s)
      votes.
Proof.
  revert s g. induction l as [| p l IH]; intros s g; simpl.
  - exists []. rewrite app_nil_r. split; [reflexivity |].
    split; [simpl; lia | constructor].
  - unfold bind.
    destruct (vote_and_record_events s p g) as (Hr & v1 & E1 & L1 & F1).
    destruct (vote_and_record s p g) as [s' g']. simpl in Hr, E1.
    destruct (IH s' g') as (v2 & E2 & L2 & F2).
    exists (v1 ++ v2). rewrite E2, E1, <- app_assoc.
    split; [reflexivity |]. rewrite length_app. split; [lia |].
    apply Forall_app. split; [exact F1 |]. now rewrite Hr in F2.
Qed.

Lemma _execute_event_events (s : Society) (ev : EventType)
    (g : RandomState) :
  exists e,
    event_history (fst (_execute_event s ev g)) = event_history s ++ [e] /\
    is_round_event e = true /\ round e = current_round s.
Proof.
  destruct ev; simpl.
  - unfold _execute_social_event. destruct (Qle_bool _ _); simpl;
      eexists; repeat split.
  - unfold bind, _execute_economic_event, bind.
    destruct (mapM _ (agents s) g) as [res g1]. simpl.
    eexists; repeat split.
Qed.

Lemma _run_single_round_events (s : Society) (g : RandomState) :
  exists votes e,
    event_history (fst (_run_single_round s g))
    = event_history s ++ votes ++ [e] /\
    (length votes <= 2)%nat /\
    Forall (fun v => is_policy_change v = true /\ round v = current_round s)
      votes /\
    is_round_event e = true /\ round e = current_round s.
Proof.
  rewrite _run_single_round_steps.
  destruct (update_statistics_frame
              (_execute_social_sanctions
                 (_update_wealth_power (fst (steps_1_to_4 s g)))))
    as (_ & -> & _).
  cbn [_execute_social_sanctions _update_wealth_power set_agents
         event_history].
  unfold steps_1_to_4, bind.
  assert (H1 : current_round (fst (_core_circle_voting s g))
               = current_round s /\
               exists votes,
                 event_history (fst (_core_circle_voting s g))
                 = event_history s ++ votes /\
                 (length votes <= 2)%nat /\
                 Forall (fun v => is_policy_change v = true /\
                                  round v = current_round s) votes).
  { unfold _core_circle_voting, bind.
    pose proof (random_randint_1_2 g) as Hn.
    destruct (random_randint 1 2 g) as [n g1]. simpl in Hn.
    pose proof (sample_pool_length (Z.to_nat n)
                  [competition_reward; care_reward; tax_redistribution;
                   attribution_bias; social_sanction] 5 0 g1) as Hk.
    unfold random_sample. cbn [length].
    destruct (sample_pool _ 5 (Z.to_nat n) 0 g1) as [sel g2]. simpl in Hk.
    split; [apply vote_each_shell |].
    destruct (vote_each_events sel s g2) as (votes & E & L & F).
    exists votes. repeat split; auto. lia. }
  destruct (_core_circle_voting s g) as [s1 g1]. simpl in H1.
  destruct H1 as (Hr & votes & E1 & L & F).
  destruct (_trigger_event s1 g1) as [ev g2].
  destruct (_execute_event_events s1 ev g2) as (e & E2 & He & Hre).
  destruct (_execute_event s1 ev g2) as [s2 g3]. simpl in *.
  destruct (_execute_tax_redistribution_frame (_apply_attribution_bias s2))
    as (_ & -> & _).
  simpl. exists votes, e. rewrite E2, E1, <- app_assoc.
  repeat split; auto. congruence.
Qed.

Lemma _run_periodic_operations_events (s : Society) (g : RandomState) :
  exists extra,
    event_history (fst (_run_periodic_operations s g))
    = event_history s ++ extra /\
    (length extra <= 1)%nat /\
    Forall (fun v => is_class_mobility v = true /\ round v = current_round s)
      extra.
Proof.
  unfold _run_periodic_operations, bind.
  assert (H1 : event_history (fst (_execute_learning_imitation s g))
               = event_history s /\
               current_round (fst (_execute_learning_imitation s g))
               = current_round s).
  { unfold _execute_learning_imitation.
    destruct (deref _ _); [auto |]. unfold bind.
    destruct (mapM _ _ g) as [l0 g1]. auto. }
  destruct (_execute_learning_imitation s g) as [s1 g1]. simpl in H1.
  destruct H1 as [E1 R1].
  unfold _execute_ideology_conversion, bind.
  destruct (mapM _ (agents s1) g1) as [l g2]. simpl.
  unfold _check_class_mobility.
  destruct (mobility_loop _ _) as [l3 ch].
  destruct ch as [| c ch]; simpl.
  - exists []. rewrite app_nil_r. repeat split; auto.
  - eexists [_]. rewrite E1. split; [reflexivity |].
    split; [simpl; lia |].
    constructor; [| constructor]. split; [reflexivity | exact R1].
Qed.

(** X16.  The event log only grows, and a round adds to it, in this order:
    at most two policy_change events (one for each issue voted whose lever
    moved by more than 0.01), exactly one social or economic event, and, in
    a round divisible by 10 only, at most one class_mobility event; all of
    them carry the number of the round. *)
Theorem round_event_log (sim : SocialSimulation) (r : Z) (g : RandomState) :
  exists votes e extra,
    event_history (society (fst (run_round sim r g)))
    = event_history (society sim) ++ votes ++ [e] ++ extra /\
    (length votes <= 2)%nat /\ (length extra <= 1)%nat /\
    forallb is_policy_change votes = true /\
    is_round_event e = true /\
    forallb is_class_mobility extra = true /\
    ((r mod 10 =? 0)%Z = false -> extra = []) /\
    Forall (fun v => round v = r) (votes ++ [e] ++ extra).
Proof.
  unfold run_round, bind.
  destruct (_run_single_round_events (set_current_round (society sim) r) g)
    as (votes & e & E & L & F & He & Hr).
  destruct (_run_single_round_shell (set_current_round (society sim) r) g)
    as [R _].
  destruct (_run_single_round (set_current_round (society sim) r) g)
    as [s1 g1]. simpl in E, R, F, Hr.
  assert (Fv : forallb is_policy_change votes = true).
  { apply forallb_forall. intros v Hv.
    rewrite Forall_forall in F. now apply F. }
  assert (Rv : Forall (fun v => round v = r) votes).
  { eapply Forall_impl; [| exact F]. now intros v [_ H]. }
  destruct (r mod 10 =? 0)%Z; simpl.
  - destruct (_run_periodic_operations_events s1 g1)
      as (extra & E2 & L2 & F2).
    destruct (_run_periodic_operations s1 g1) as [s2 g2]. simpl in E2.
    simpl. exists votes, e, extra. rewrite E2, E, <- !app_assoc.
    repeat split; auto.
    + apply forallb_forall. intros v Hv.
      rewrite Forall_forall in F2. now apply F2.
    + discriminate.
    + apply Forall_app. split; [exact Rv |].
      constructor; [exact Hr |].
      eapply Forall_impl; [| exact F2]. intros v [_ H]. congruence.
  - exists votes, e, []. rewrite E. cbn [app].
    repeat split; auto.
    apply Forall_app. split; [exact Rv |].
    constructor; [exact Hr | constructor].
Qed.

(** ** Who pays the tax *)

Lemma collect_tax_untaxed (average tax_rate : Q) (l : list Agent) (t : Q) :
  Forall2 (fun a a' => wealth a <= average * 0.5 -> a' = a)
    l (fst (collect_tax average tax_rate l t)).
Proof.
  revert t. induction l as [| a l IH]; intros t; simpl; [constructor |].
  destruct (Qltb (average * 0.5) (wealth a)) eqn:E.
  - specialize (IH (t + wealth a * tax_rate
                        * py_max 0 (wealth a / average - 0.5))).
    destruct (collect_tax average tax_rate l _) as [rest tt]. simpl in *.
    constructor; [| exact IH].
    intros H. apply Qltb_lt in E. lra.
  - specialize (IH t).
    destruct (collect_tax average tax_rate l t) as [rest tt]. simpl in *.
    constructor; [| exact IH]. reflexivity.
Qed.

Lemma Forall2_map_r {A B C} (R : A -> C -> Prop) (f : B -> C) (l : list A)
    (l' : list B) :
  Forall2 (fun a b => R a (f b)) l l' -> Forall2 R l (map f l').
Proof. induction 1; simpl; constructor; auto. Qed.

Lemma Forall2_same {A} (R : A -> A -> Prop) (l : list A) :
  (forall a, R a a) -> Forall2 R l l.
Proof. intros H. induction l; constructor; auto. Qed.

(** X17.  The tax step takes nothing from a member whose wealth is at most
    half the average wealth: such a member leaves the step with its wealth
    plus the share that every member receives, which is never negative (it
    is zero when the rate is not positive or no tax was collected). *)
Theorem tax_spares_the_poor (s : Society) :
  exists share,
    0 <= share /\
    Forall2
      (fun a a' =>
         wealth a <= average_wealth s * 0.5 -> wealth a' == wealth a + share)
      (agents s) (agents (_execute_tax_redistribution s)).
Proof.
  unfold _execute_tax_redistribution.
  destruct (Qle_bool (policy_levers s tax_redistribution) 0).
  - exists 0. split; [lra |]. apply Forall2_same. intros a _. lra.
  - pose proof (collect_tax_untaxed (average_wealth s)
                  (policy_levers s tax_redistribution) (agents s) 0) as H.
    destruct (collect_tax _ _ (agents s) 0) as [taxed tt]. simpl in H.
    destruct (Qltb 0 tt) eqn:E.
    + exists (tt / len (agents s)). split.
      * apply Qltb_lt in E. unfold Qdiv.
        apply Qmult_le_0_compat; [lra |].
        apply Qinv_le_0_compat. unfold len.
        change 0 with (inject_Z 0). rewrite <- Zle_Qle. lia.
      * cbn [agents set_agents]. apply Forall2_map_r.
        eapply Forall2_impl; [| exact H].
        intros a a' Ha Hw. rewrite (Ha Hw). simpl. reflexivity.
    + exists 0. split; [lra |]. cbn [agents set_agents].
      eapply Forall2_impl; [| exact H].
      intros a a' Ha Hw. rewrite (Ha Hw). lra.
Qed.

(** ** Events *)

Lemma mapM_compete_gain (c : Q) (l : list Agent) (g : RandomState) :
  0 <= c ->
  Forall (fun a => 0 <= competition_skill a) l ->
  Forall2 (fun a a' => wealth a <= wealth a' /\ power a <= power a')
    l (map fst (fst (mapM (compete c) l g))).
Proof.
  intros Hc. revert g. induction l as [| a l IH]; intros g F; simpl;
    [constructor |].
  inversion F as [| ? ? Ha Hl]; subst.
  unfold bind.
  assert (H : wealth a <= wealth (fst (fst (compete c a g))) /\
              power a <= power (fst (fst (compete c a g)))).
  { unfold compete, bind, random_random. cbn [fst snd].
    destruct (Qltb _ _); cbn [fst snd ret wealth power set_wealth set_power];
      [| split; lra].
    assert (0 <= c * competition_skill a)
      by (now apply Qmult_le_0_compat).
    split; lra. }
  destruct (compete c a g) as [r g1]. specialize (IH g1 Hl).
  destruct (mapM (compete c) l g1) as [rs g2]. simpl in *.
  constructor; assumption.
Qed.

(** X18.  An event rewards and never takes: when the two reward levers are
    not negative (as they are within their bounds) and no competition skill
    is negative, no member leaves the social or the economic event with
    less wealth or less power than it had; a social event that fails leaves
    every member as it was. *)
Theorem event_never_takes (s : Society) (ev : EventType) (g : RandomState) :
  0 <= policy_levers s care_reward ->
  0 <= policy_levers s competition_reward ->
  Forall (fun a => 0 <= competition_skill a) (agents s) ->
  Forall2 (fun a a' => wealth a <= wealth a' /\ power a <= power a')
    (agents s) (agents (fst (_execute_event s ev g))) /\
  (ev = social_type ->
   py_sum (map care_skill (agents s))
   < len (agents s) * 0.5 * (1 + social_equality s) ->
   agents (fst (_execute_event s ev g)) = agents s).
Proof.
  intros Hcare Hcomp Hs. split.
  - destruct ev; simpl.
    + unfold _execute_social_event. destruct (Qle_bool _ _); simpl.
      * apply Forall2_map_r, Forall2_same. intros a.
        unfold reward_care. destruct (Qltb 0.6 (care_skill a)) eqn:E;
          [| split; lra].
        apply Qltb_lt in E. simpl.
        assert (0 <= policy_levers s care_reward * care_skill a)
          by (apply Qmult_le_0_compat; lra).
        split; lra.
      * apply Forall2_same. intros a. split; lra.
    + unfold bind, _execute_economic_event, bind.
      pose proof (mapM_compete_gain (policy_levers s competition_reward)
                    (agents s) g Hcomp Hs) as H.
      destruct (mapM _ (agents s) g) as [res g1]. exact H.
  - intros -> Hlt. simpl. unfold _execute_social_event.
    destruct (Qle_bool _ _) eqn:E; [| reflexivity].
    apply Qle_bool_iff in E. lra.
Qed.

Lemma event_never_takes_witness :
  Forall2 (fun a a' => wealth a <= wealth a' /\ power a <= power a')
    (agents society_of_one)
    (agents (fst (_execute_event society_of_one economic_type
                    (oracle [] [])))).
Proof.
  apply (proj1 (event_never_takes society_of_one economic_type
                  (oracle [] [])
                  ltac:(vm_compute; discriminate)
                  ltac:(vm_compute; discriminate)
                  ltac:(repeat constructor; vm_compute; discriminate))).
Defined.

(** ** Ideology conversion, member by member *)

Lemma convert_agent_outcome (r : Z) (a : Agent) (g : RandomState) :
  apart_from_ideology (fst (convert_agent r a g)) = apart_from_ideology a /\
  converted_or_same r a (fst (convert_agent r a g)).
Proof.
  unfold convert_agent.
  destruct (r - last_ideology_change a <? 3)%Z eqn:Ec;
    [split; [reflexivity | now left] |].
  apply Z.ltb_ge in Ec.
  assert (Hc : (3 <=? r - last_ideology_change a)%Z = true)
    by (apply Z.leb_le; lia).
  assert (Hch : forall i,
             i <> ideology a ->
             apart_from_ideology (fst (change_ideology a i r))
             = apart_from_ideology a /\
             converted_or_same r a (fst (change_ideology a i r))).
  { intros i Hi. unfold change_ideology. rewrite Hc.
    split; [reflexivity |]. right. simpl. repeat split; auto. }
  assert (Hsame : apart_from_ideology a = apart_from_ideology a /\
                  converted_or_same r a a)
    by (split; [reflexivity | now left]).
  assert (Hd : forall pb g',
             apart_from_ideology (fst (dissonance r pb a g'))
             = apart_from_ideology a /\
             converted_or_same r a (fst (dissonance r pb a g'))).
  { intros pb g'. unfold dissonance.
    destruct (in_P_F (ideology a)) eqn:Epf; [| exact Hsame].
    destruct (Qltb pb (-0.1)); [| exact Hsame].
    unfold bind, random_random. cbn [fst snd].
    destruct (Qltb _ 0.1); cbn [ret fst]; [| exact Hsame].
    apply Hch. revert Epf. unfold in_P_F.
    destruct (ideology a); simpl; congruence. }
  assert (Hr : forall pb g',
             apart_from_ideology (fst (rational_choice r pb a g'))
             = apart_from_ideology a /\
             converted_or_same r a (fst (rational_choice r pb a g'))).
  { intros pb g'. unfold rational_choice.
    destruct (Ideology_eqb (ideology a) U) eqn:Eu; [| apply Hd].
    assert (Hu : ideology a = U)
      by (revert Eu; destruct (ideology a); simpl; congruence).
    destruct (Gender_eqb (gender a) male
              && (ClassLevel_eqb (class_level a) middle
                  || ClassLevel_eqb (class_level a) high)).
    - unfold bind, random_random. cbn [fst snd].
      destruct (Qltb _ 0.2); cbn [ret fst]; [| apply Hd].
      apply Hch. congruence.
    - destruct (Gender_eqb (gender a) female); [| exact Hsame].
      unfold bind, random_random. cbn [fst snd].
      destruct (Qltb _ 0.2); cbn [ret fst]; [| apply Hd].
      apply Hch. congruence. }
  destruct (in_P_F (ideology a) && Qltb _ (-0.2)) eqn:Ef; [| apply Hr].
  unfold bind, random_random. cbn [fst snd].
  destruct (Qltb _ 0.3); cbn [ret fst]; [| apply Hr].
  apply Hch. apply andb_prop in Ef as [Epf _]. revert Epf. unfold in_P_F.
  destruct (ideology a); simpl; congruence.
Qed.

Lemma mapM_Forall2 {A B} (R : A -> B -> Prop) (h : A -> Rand B)
    (l : list A) (g : RandomState) :
  (forall x g', R x (fst (h x g'))) -> Forall2 R l (fst (mapM h l g)).
Proof.
  intros H. revert g. induction l as [| x l IH]; intros g; simpl;
    [constructor |].
  unfold bind. pose proof (H x g) as Hx.
  destruct (h x g) as [y g1]. specialize (IH g1).
  destruct (mapM h l g1) as [ys g2]. simpl in *. now constructor.
Qed.

(** X19.  The conversion step leaves every member either exactly as it was
    or converted: with an ideology other than the one it had, the numeric
    code of the new ideology, the current round as the round of its last
    change and the new ideology appended to its history; a member is only
    converted when its last change is at least three rounds old, and
    nothing but the ideology and its bookkeeping is written. *)
Theorem conversion_step_outcome (s : Society) (g : RandomState) :
  Forall2
    (fun a a' =>
       apart_from_ideology a' = apart_from_ideology a /\
       converted_or_same (current_round s) a a')
    (agents s) (agents (fst (_execute_ideology_conversion s g))).
Proof.
  unfold _execute_ideology_conversion, bind.
  pose proof (mapM_Forall2
                (fun a a' =>
                   apart_from_ideology a' = apart_from_ideology a /\
                   converted_or_same (current_round s) a a')
                (convert_agent (current_round s)) (agents s) g
                (convert_agent_outcome (current_round s))) as H.
  destruct (mapM _ (agents s) g) as [l g1]. exact H.
Qed.

(** X20.  Two kinds of member pass the conversion loop untouched and
    without a random draw being consumed for them: a member whose last
    change of ideology is less than three rounds old, and an undecided
    (U) male member of the low class, for whom no rule has a target. *)
Theorem conversion_skips (r : Z) (a : Agent) (g : RandomState) :
  (r - last_ideology_change a < 3)%Z \/
  (ideology a = U /\ gender a = male /\ class_level a = low) ->
  convert_agent r a g = (a, g).
Proof.
  intros [H | (Hi & Hg & Hc)]; unfold convert_agent.
  - replace (r - last_ideology_change a <? 3)%Z with true
      by (symmetry; apply Z.ltb_lt; lia).
    reflexivity.
  - destruct (r - last_ideology_change a <? 3)%Z; [reflexivity |].
    unfold rational_choice, in_P_F. rewrite Hi, Hg, Hc. reflexivity.
Qed.

Lemma conversion_skips_witness :
  convert_agent 10 recent_convert (oracle [] [])
  = (recent_convert, oracle [] []).
Proof.
  apply (conversion_skips 10 recent_convert (oracle [] [])).
  left. vm_compute. reflexivity.
Defined.

(** ** Learning *)

Lemma mapM_nth_error {A B} (h : A -> Rand B) (l : list A) (g : RandomState)
    (i : nat) (x : A) :
  nth_error l i = Some x ->
  exists g', nth_error (fst (mapM h l g)) i = Some (fst (h x g')).
Proof.
  revert g i. induction l as [| y l IH]; intros g [| i] H; simpl in *;
    try discriminate.
  - injection H as ->. exists g. unfold bind.
    destruct (h x g) as [z g1]. destruct (mapM h l g1) as [zs g2].
    reflexivity.
  - unfold bind. destruct (h y g) as [z g1].
    destruct (IH g1 i H) as [g' Hg'].
    destruct (mapM h l g1) as [zs g2]. exists g'. exact Hg'.
Qed.

Lemma enumerate_from_nth_error {A} (k i : nat) (l : list A) (a : A) :
  nth_error l i = Some a ->
  nth_error (enumerate_from k l) i = Some ((k + i)%nat, a).
Proof.
  revert k i. induction l as [| x l IH]; intros k [| i] H; simpl in *;
    try discriminate.
  - injection H as ->. now rewrite Nat.add_0_r.
  - rewrite (IH (S k) i H). f_equal. f_equal. lia.
Qed.

Lemma py_int_fifth_small {A} (l : list A) :
  (length l < 5)%nat -> py_int (len l * 0.2) = 0%Z.
Proof.
  intros H.
  destruct l as [| ? [| ? [| ? [| ? [| ? ?]]]]]; simpl in H; try lia;
    reflexivity.
Qed.

(** X21.  Learning writes the two skills of the learners only: every other
    attribute of every member is as before, and the members of the success
    cohort -- the first fifth, truncated, of the ranking by power -- are
    left exactly as they were.  A population of fewer than five members
    has an empty cohort: the step changes nothing and draws nothing. *)
Theorem learning_spares_cohort (s : Society) (g : RandomState) :
  let s' := fst (_execute_learning_imitation s g) in
  map apart_from_skills (agents s') = map apart_from_skills (agents s) /\
  (forall i, In i (success_cohort s) ->
             nth_error (agents s') i = nth_error (agents s) i) /\
  ((length (agents s) < 5)%nat -> _execute_learning_imitation s g = (s, g)).
Proof.
  cbv zeta. unfold _execute_learning_imitation.
  fold (success_cohort s).
  split; [| split].
  - destruct (deref _ _) as [| t0 succ]; [reflexivity |].
    unfold bind.
    pose proof (mapM_frame apart_from_skills
                  (learn_one (get_default (learning_rate (config s)) 0.1)
                     (success_cohort s) (t0 :: succ))
                  snd (enumerate (agents s)) g) as H.
    destruct (mapM _ (enumerate (agents s)) g) as [l g1]. simpl in *.
    rewrite H.
    + unfold enumerate. now rewrite enumerate_from_snd.
    + intros x g'. apply learn_one_frame; reflexivity.
  - intros i Hi.
    destruct (deref _ _) as [| t0 succ]; [reflexivity |].
    unfold bind.
    assert (Hlen : length (fst (mapM
                      (learn_one (get_default (learning_rate (config s)) 0.1)
                         (success_cohort s) (t0 :: succ))
                      (enumerate (agents s)) g))
                   = length (agents s)).
    { pose proof (mapM_frame (fun _ => tt)
                    (learn_one (get_default (learning_rate (config s)) 0.1)
                       (success_cohort s) (t0 :: succ))
                    snd (enumerate (agents s)) g
                    (fun _ _ => eq_refl)) as H.
      apply (f_equal (@length unit)) in H.
      rewrite !length_map in H. rewrite H.
      unfold enumerate. clear H.
      generalize 0%nat. induction (agents s); intros k; simpl; auto. }
    destruct (nth_error (agents s) i) as [a |] eqn:Ea.
    + pose proof (enumerate_from_nth_error 0 i (agents s) a Ea) as He.
      destruct (mapM_nth_error
                  (learn_one (get_default (learning_rate (config s)) 0.1)
                     (success_cohort s) (t0 :: succ))
                  (enumerate (agents s)) g i (i, a) He) as [g' Hg'].
      destruct (mapM _ (enumerate (agents s)) g) as [l g1]. simpl in *.
      rewrite Hg'. unfold learn_one.
      replace (existsb (Nat.eqb i) (success_cohort s)) with true;
        [reflexivity |].
      symmetry. apply existsb_exists. exists i.
      split; [exact Hi | apply Nat.eqb_refl].
    + destruct (mapM _ (enumerate (agents s)) g) as [l g1]. simpl in *.
      apply nth_error_None. rewrite Hlen. now apply nth_error_None.
  - intros Hs. unfold success_cohort.
    rewrite (py_int_fifth_small (agents s) Hs). reflexivity.
Qed.

Lemma learning_spares_cohort_witness :
  _execute_learning_imitation society_of_one (oracle [] [])
  = (society_of_one, oracle [] []).
Proof.
  apply (proj2 (proj2 (learning_spares_cohort society_of_one
                         (oracle [] [])))).
  simpl. lia.
Defined.

(** ** Counts and percentages *)

Lemma count_up_step {K} (eqb : K -> K -> bool) (key : Agent -> K)
    (l : list Agent) (c0 : K -> Z) (k : K) :
  fold_left
    (fun counts agent =>
       fun k => if eqb k (key agent) then (counts k + 1)%Z else counts k)
    l c0 k
  = (c0 k + Z.of_nat (length (filter (fun a => eqb k (key a)) l)))%Z.
Proof.
  revert c0. induction l as [| a l IH]; intros c0; simpl; [lia |].
  rewrite IH. destruct (eqb k (key a)); simpl length; lia.
Qed.

Lemma count_up_filter {K} (eqb : K -> K -> bool) (key : Agent -> K)
    (l : list Agent) (k : K) :
  count_up eqb key l k
  = Z.of_nat (length (filter (fun a => eqb k (key a)) l)).
Proof. unfold count_up. now rewrite count_up_step. Qed.

Lemma count_up_ideology_total (l : list Agent) :
  (count_up Ideology_eqb ideology l P + count_up Ideology_eqb ideology l F
   + count_up Ideology_eqb ideology l U)%Z
  = Z.of_nat (length l).
Proof.
  rewrite !count_up_filter.
  induction l as [| a l IH]; [reflexivity |].
  cbn [filter]. destruct (ideology a); cbn [Ideology_eqb length] in *; lia.
Qed.

Lemma count_up_class_total (l : list Agent) :
  (count_up ClassLevel_eqb class_level l low
   + count_up ClassLevel_eqb class_level l middle
   + count_up ClassLevel_eqb class_level l high)%Z
  = Z.of_nat (length l).
Proof.
  rewrite !count_up_filter.
  induction l as [| a l IH]; [reflexivity |].
  cbn [filter].
  destruct (class_level a); cbn [ClassLevel_eqb length] in *; lia.
Qed.

Lemma percentages_sum (a b c t : Z) :
  (0 < t)%Z -> (a + b + c)%Z = t ->
  inject_Z a / inject_Z t + inject_Z b / inject_Z t + inject_Z c / inject_Z t
  == 1.
Proof.
  intros Ht <-.
  assert (H : ~ inject_Z (a + b + c) == 0).
  { change 0 with (inject_Z 0). rewrite inject_Z_injective. lia. }
  rewrite !inject_Z_plus in *. field. exact H.
Qed.

(** X22.  The ideology statistics count every member once: the three
    counts add up to the size of the population, and the three percentages
    add up to 1, or to 0 for an empty population. *)
Theorem ideology_stats_total (s : Society) :
  let stats := _update_ideology_stats s in
  (share_count (stats P) + share_count (stats F) + share_count (stats U))%Z
  = Z.of_nat (length (agents s)) /\
  share_percentage (stats P) + share_percentage (stats F)
  + share_percentage (stats U)
  == (if (0 <? Z.of_nat (length (agents s)))%Z then 1 else 0).
Proof.
  cbv zeta. unfold _update_ideology_stats. cbn [share_count share_percentage].
  split; [apply count_up_ideology_total |].
  destruct (0 <? Z.of_nat (length (agents s)))%Z eqn:E; [| lra].
  apply percentages_sum; [now apply Z.ltb_lt |].
  apply count_up_ideology_total.
Qed.

Lemma ranked_by_power_length (l : list Agent) :
  length (ranked_by_power l) = length l.
Proof.
  unfold ranked_by_power. rewrite length_map.
  rewrite (Permutation_length (sorted_desc_perm _ _)).
  unfold enumerate. generalize 0%nat.
  induction l; intros k; simpl; auto.
Qed.

(** X23.  For a circle just rebuilt over a population that is not empty,
    [get_core_circle_composition] returns a composition in which the
    gender counts, the ideology counts and the class counts each add up to
    the size of the circle, and the percentages of each of the three
    breakdowns add up to 1.  For an empty circle it returns the empty
    composition. *)
Theorem circle_composition_total (s : Society) :
  (core_decision_circle s = [] -> get_core_circle_composition s = None) /\
  (agents s <> [] ->
   exists comp,
     get_core_circle_composition (update_core_decision_circle s)
     = Some comp /\
     let total :=
       Z.of_nat (length (circle_members (update_core_decision_circle s))) in
     (0 < total)%Z /\
     (share_count (of_gender comp male)
      + share_count (of_gender comp female))%Z = total /\
     (share_count (of_ideology comp P) + share_count (of_ideology comp F)
      + share_count (of_ideology comp U))%Z = total /\
     (share_count (of_class comp low) + share_count (of_class comp middle)
      + share_count (of_class comp high))%Z = total /\
     share_percentage (of_gender comp male)
     + share_percentage (of_gender comp female) == 1 /\
     share_percentage (of_ideology comp P)
     + share_percentage (of_ideology comp F)
     + share_percentage (of_ideology comp U) == 1 /\
     share_percentage (of_class comp low)
     + share_percentage (of_class comp middle)
     + share_percentage (of_class comp high) == 1).
Proof.
  split.
  - intros H. unfold get_core_circle_composition. now rewrite H.
  - intros Hne.
    set (s' := update_core_decision_circle s).
    assert (Hm : circle_members s'
                 = firstn (Z.to_nat (circle_size s))
                     (sorted_desc power (agents s))).
    { unfold s', circle_members, update_core_decision_circle. simpl.
      apply ranked_by_power_deref. }
    assert (Hl : length (core_decision_circle s')
                 = length (circle_members s')).
    { rewrite Hm. unfold s', update_core_decision_circle. simpl.
      rewrite !length_firstn, ranked_by_power_length.
      now rewrite (Permutation_length (sorted_desc_perm power (agents s))). }
    assert (Hpos : (0 < length (core_decision_circle s'))%nat).
    { unfold s', update_core_decision_circle. simpl.
      rewrite length_firstn, ranked_by_power_length.
      assert (0 < length (agents s))%nat
        by (destruct (agents s); [congruence | simpl; lia]).
      unfold circle_size. lia. }
    unfold get_core_circle_composition.
    destruct (core_decision_circle s') as [| i0 c0] eqn:Ec;
      [simpl in Hpos; lia |].
    rewrite <- Ec in *. clear Ec i0 c0.
    eexists. split; [reflexivity |].
    cbv zeta. cbn [of_gender of_ideology of_class share_count
                     share_percentage].
    rewrite Hl.
    set (t := Z.of_nat (length (circle_members s'))).
    assert (Ht : (0 < t)%Z) by (unfold t; lia).
    assert (Hq : ~ inject_Z t == 0).
    { change 0 with (inject_Z 0). rewrite inject_Z_injective. lia. }
    repeat split.
    + exact Ht.
    + lia.
    + apply count_up_ideology_total.
    + apply count_up_class_total.
    + unfold Z.sub. rewrite inject_Z_plus, inject_Z_opp. field. exact Hq.
    + apply percentages_sum; [exact Ht | apply count_up_ideology_total].
    + apply percentages_sum; [exact Ht | apply count_up_class_total].
Qed.

Lemma circle_composition_total_witness :
  exists comp,
    get_core_circle_composition (update_core_decision_circle society_of_one)
    = Some comp /\
    share_percentage (of_gender comp male)
    + share_percentage (of_gender comp female) == 1.
Proof.
  destruct (proj2 (circle_composition_total society_of_one)
              ltac:(discriminate))
    as (comp & E & _ & _ & _ & _ & H & _).
  exists comp. split; [exact E | exact H].
Defined.

(** ** The kind of event *)

(** X24.  On the statistics that [update_statistics] stores, whose
    equality index is in [0,1], a draw below 0.4 always triggers a social
    event and a draw above 0.6 always an economic one.  A draw of exactly
    0.6 is left out: the probability 0.4 + 0.2 * social_equality reaches 0.6
    at an equality index of 1, where the sum computed in binary64 is the
    number just above 0.6. *)
Theorem event_type_thresholds (s : Society) (g : RandomState) :
  let s' := update_statistics s in
  let u := py_draws g (py_pos g) in
  (u < 0.4 -> fst (_trigger_event s' g) = social_type) /\
  (0.6 < u -> fst (_trigger_event s' g) = economic_type).
Proof.
  cbv zeta. unfold _trigger_event, bind, random_random, ret. cbn [fst snd].
  assert (H : 0 <= social_equality (update_statistics s) /\
              social_equality (update_statistics s) <= 1).
  { unfold update_statistics, _calculate_social_equality. simpl.
    apply equality_index_range. }
  split; intros Hu.
  - replace (Qltb _ _) with true; [reflexivity |].
    symmetry. apply Qltb_lt. lra.
  - replace (Qltb _ _) with false; [reflexivity |].
    symmetry. apply Qltb_ge. lra.
Qed.

(** The boundary in binary64: at an equality index of 1.0 the probability is
    0.6000000000000001, so the draw 0.6 triggers a social event, and the
    next draw above it an economic one. *)
Lemma social_event_prob_binary64_at_one :
  social_event_prob_binary64 1 = 0x1.3333333333334p-1%float /\
  _trigger_event_binary64 1 draw_of_six_tenths = social_type /\
  _trigger_event_binary64 1 (next_up draw_of_six_tenths) = economic_type.
Proof. repeat split; vm_compute; reflexivity. Qed.

Lemma event_type_thresholds_witness :
  fst (_trigger_event (update_statistics society_of_one) (oracle [0.3] []))
  = social_type.
Proof.
  apply (proj1 (event_type_thresholds society_of_one (oracle [0.3] []))).
  vm_compute. reflexivity.
Defined.

(** ** The Gini coefficient and the unit of wealth *)

Lemma py_sum_map_scale {A} (k : Q) (f : A -> Q) (l : list A) :
  py_sum (map (fun x => k * f x) l) == k * py_sum (map f l).
Proof.
  induction l as [| x l IH]; simpl map.
  - unfold py_sum. simpl. lra.
  - rewrite !py_sum_cons, IH. ring.
Qed.

Lemma py_sum_map_ext {A} (f h : A -> Q) (l : list A) :
  (forall x, f x == h x) -> py_sum (map f l) == py_sum (map h l).
Proof.
  intros H. induction l as [| x l IH]; simpl map; [reflexivity |].
  now rewrite !py_sum_cons, IH, H.
Qed.

Lemma total_diff_scale (k : Q) (ws : list Q) :
  0 <= k -> total_diff (map (Qmult k) ws) == k * total_diff ws.
Proof.
  intros Hk. rewrite !total_diff_sum, map_map.
  rewrite <- py_sum_map_scale. apply py_sum_map_ext. intros w.
  rewrite map_map, <- py_sum_map_scale. apply py_sum_map_ext. intros w'.
  setoid_replace (k * w - k * w') with (k * (w - w')) by ring.
  rewrite Qabs_Qmult, (Qabs_pos k Hk). reflexivity.
Qed.

Lemma np_mean_scale (k : Q) (ws : list Q) :
  np_mean (map (Qmult k) ws) == k * np_mean ws.
Proof.
  unfold np_mean, len. rewrite length_map.
  change (map (Qmult k) ws) with (map (fun x => k * (fun y => y) x) ws).
  rewrite py_sum_map_scale, map_id. unfold Qdiv. ring.
Qed.

Lemma py_min_compat (a x y : Q) : x == y -> py_min a x == py_min a y.
Proof.
  intros H.
  destruct (py_min_case a x) as [[H1 ->] | [H1 ->]];
    destruct (py_min_case a y) as [[H2 ->] | [H2 ->]]; lra.
Qed.

Lemma py_max_compat (a x y : Q) : x == y -> py_max a x == py_max a y.
Proof.
  intros H.
  destruct (py_max_case a x) as [[H1 ->] | [H1 ->]];
    destruct (py_max_case a y) as [[H2 ->] | [H2 ->]]; lra.
Qed.

Lemma _calculate_gini_coefficient_scale (k : Q) (ws : list Q) :
  0 < k ->
  _calculate_gini_coefficient (map (Qmult k) ws)
  == _calculate_gini_coefficient ws.
Proof.
  intros Hk. unfold _calculate_gini_coefficient. rewrite length_map.
  destruct (length ws <? 2)%nat eqn:El; [reflexivity |].
  apply Nat.ltb_ge in El.
  assert (Hn : 0 < len ws).
  { unfold len. change 0 with (inject_Z 0). rewrite <- Zlt_Qlt. lia. }
  assert (Elen : len (map (Qmult k) ws) = len ws)
    by (unfold len; now rewrite length_map).
  rewrite Elen.
  destruct (Qeq_bool (np_mean ws) 0) eqn:Em.
  - apply Qeq_bool_iff in Em.
    replace (Qeq_bool (np_mean (map (Qmult k) ws)) 0) with true;
      [reflexivity |].
    symmetry. apply Qeq_bool_iff. rewrite np_mean_scale, Em. ring.
  - apply Qeq_bool_neq in Em.
    assert (Em' : ~ np_mean (map (Qmult k) ws) == 0).
    { rewrite np_mean_scale. intros H.
      apply Qmult_integral in H as [H | H]; [lra | contradiction]. }
    replace (Qeq_bool (np_mean (map (Qmult k) ws)) 0) with false
      by (symmetry; apply not_true_is_false; intros H;
          apply Qeq_bool_iff in H; contradiction).
    apply py_min_compat.
    rewrite total_diff_scale by lra. rewrite np_mean_scale.
    field. repeat split; lra.
Qed.

(** X25.  The Gini coefficient and the equality index do not depend on the
    unit in which wealth is counted: multiplying every wealth by the same
    positive factor leaves both unchanged. *)
Theorem equality_index_scale_invariant (k : Q) (ws : list Q) :
  0 < k ->
  _calculate_gini_coefficient (map (Qmult k) ws)
  == _calculate_gini_coefficient ws /\
  equality_index (map (Qmult k) ws) == equality_index ws.
Proof.
  intros Hk. split; [now apply _calculate_gini_coefficient_scale |].
  destruct ws as [| w ws]; [reflexivity |].
  unfold equality_index. cbn [map].
  change (k * w :: map (Qmult k) ws) with (map (Qmult k) (w :: ws)).
  apply py_max_compat, py_min_compat.
  rewrite (_calculate_gini_coefficient_scale k (w :: ws) Hk). reflexivity.
Qed.

Lemma equality_index_scale_invariant_witness :
  equality_index (map (Qmult 2) [1; 3]) == equality_index [1; 3].
Proof.
  apply (proj2 (equality_index_scale_invariant 2 [1; 3]
                  ltac:(vm_compute; reflexivity))).
Defined.

(** ** The histories *)

Lemma Forall2_map_via {X} (f : Agent -> X) (h : Agent -> Agent)
    (R : Agent -> Agent -> Prop) :
  (forall a a4, f a4 = f a -> R a (h a4)) ->
  forall l l4, map f l4 = map f l -> Forall2 R l (map h l4).
Proof.
  intros H l. induction l as [| a l IH]; intros [| a4 l4] E; simpl in *;
    try discriminate; constructor.
  - apply H. now injection E.
  - apply IH. now injection E.
Qed.

(** X26.  A round appends exactly one entry to the wealth history and one
    to the power history of every member, and none to its ideology
    history.  The new wealth entry is the wealth the member has when the
    round ends; the new power entry is the value of the power formula on
    the member's wealth and skills at that point, before the sanction power
    loss is taken off, so it can exceed the power the member is left with. *)
Theorem round_extends_histories (s : Society) (g : RandomState) :
  Forall2
    (fun a a' =>
       wealth_history a' = wealth_history a ++ [wealth a'] /\
       power_history a' = power_history a ++ [_calculate_power a'] /\
       ideology_history a' = ideology_history a)
    (agents s) (agents (fst (_run_single_round s g))).
Proof.
  rewrite _run_single_round_steps, update_statistics_agents.
  unfold _execute_social_sanctions, _update_wealth_power.
  cbn [agents set_agents]. rewrite map_map.
  apply (Forall2_map_via histories).
  - intros a a4 E. unfold histories in E. injection E as E1 E2 E3.
    unfold sanction_agent.
    destruct (Qltb _ _);
      unfold add_sanction_effect, grow_agent, _calculate_power; simpl;
      rewrite E1, E2, E3; auto.
  - apply (steps_1_to_4_frame histories); reflexivity.
Qed.

(** ** The choice of a learning target *)

Lemma random_choice_In {A} (seq : list A) (g : RandomState) :
  seq <> [] ->
  exists x, fst (random_choice seq g) = Some x /\ In x seq.
Proof.
  intros Hne. destruct seq as [| y seq]; [congruence |].
  unfold random_choice, randbelow, bind, random_random, ret. cbn [fst snd].
  set (j := index_below (length (y :: seq)) (py_draws g (py_pos g))).
  assert (Hj : (j < length (y :: seq))%nat).
  { unfold j, index_below. simpl length. lia. }
  destruct (nth_error (y :: seq) j) as [x |] eqn:E.
  - exists x. split; [reflexivity |]. eapply nth_error_In; eauto.
  - apply nth_error_None in E. lia.
Qed.

Lemma filter_nil_Exists {A} (f : A -> bool) (l : list A) :
  filter f l = [] -> Exists (fun x => f x = true) l -> False.
Proof.
  intros E H. apply Exists_exists in H as (x & Hx & Hf).
  assert (In x (filter f l)) by (apply filter_In; auto).
  rewrite E in H. contradiction.
Qed.

Lemma Gender_eqb_eq (a b : Gender) : Gender_eqb a b = true -> a = b.
Proof. destruct a, b; simpl; congruence. Qed.

Lemma ClassLevel_eqb_eq (a b : ClassLevel) :
  ClassLevel_eqb a b = true -> a = b.
Proof. destruct a, b; simpl; congruence. Qed.

(** X27.  [_find_learning_target] returns no target, and draws nothing,
    only for an empty list of successful members; otherwise it returns one
    of them, following its order of preference: a target of the learner's
    gender whenever the list holds one, of the learner's gender and class
    whenever it holds one, and, when it holds nobody of the learner's
    gender, of the learner's class whenever it holds one. *)
Theorem learning_target_preference (a : Agent) (succ : list Agent)
    (g : RandomState) :
  (succ = [] -> _find_learning_target a succ g = (None, g)) /\
  (succ <> [] ->
   exists t,
     fst (_find_learning_target a succ g) = Some t /\ In t succ /\
     (Exists (fun x => Gender_eqb (gender x) (gender a) = true) succ ->
      gender t = gender a) /\
     (Exists (fun x => Gender_eqb (gender x) (gender a)
                       && ClassLevel_eqb (class_level x) (class_level a)
                       = true) succ ->
      gender t = gender a /\ class_level t = class_level a) /\
     (~ Exists (fun x => Gender_eqb (gender x) (gender a) = true) succ ->
      Exists (fun x => ClassLevel_eqb (class_level x) (class_level a) = true)
        succ ->
      class_level t = class_level a)).
Proof.
  split; [intros ->; reflexivity |].
  intros Hne. unfold _find_learning_target.
  set (fb := fun x : Agent =>
               Gender_eqb (gender x) (gender a)
               && ClassLevel_eqb (class_level x) (class_level a)).
  set (fg := fun x : Agent => Gender_eqb (gender x) (gender a)).
  set (fc := fun x : Agent => ClassLevel_eqb (class_level x) (class_level a)).
  destruct (filter fb succ) as [| b0 bs] eqn:Eb.
  - destruct (filter fg succ) as [| g0 gs] eqn:Eg.
    + destruct (filter fc succ) as [| c0 cs] eqn:Ec.
      * destruct succ as [| s0 ss] eqn:Es; [congruence |].
        rewrite <- Es in *.
        destruct (random_choice_In succ g Hne) as (t & Et & Ht).
        exists t. repeat split; auto.
        -- intros H. exfalso. exact (filter_nil_Exists fg succ Eg H).
        -- exfalso. exact (filter_nil_Exists fb succ Eb H).
        -- exfalso. exact (filter_nil_Exists fb succ Eb H).
        -- intros _ H. exfalso. exact (filter_nil_Exists fc succ Ec H).
      * rewrite <- Ec.
        destruct (random_choice_In (filter fc succ) g) as (t & Et & Ht);
          [rewrite Ec; discriminate |].
        apply filter_In in Ht as [Ht Hc].
        exists t. repeat split; auto.
        -- intros H. exfalso. exact (filter_nil_Exists fg succ Eg H).
        -- exfalso. exact (filter_nil_Exists fb succ Eb H).
        -- exfalso. exact (filter_nil_Exists fb succ Eb H).
        -- intros _ _. now apply ClassLevel_eqb_eq.
    + rewrite <- Eg.
      destruct (random_choice_In (filter fg succ) g) as (t & Et & Ht);
        [rewrite Eg; discriminate |].
      apply filter_In in Ht as [Ht Hg].
      exists t. repeat split; auto.
      * intros _. now apply Gender_eqb_eq.
      * exfalso. exact (filter_nil_Exists fb succ Eb H).
      * exfalso. exact (filter_nil_Exists fb succ Eb H).
      * intros Hn _. exfalso. apply Hn. apply Exists_exists. eauto.
  - rewrite <- Eb.
    destruct (random_choice_In (filter fb succ) g) as (t & Et & Ht);
      [rewrite Eb; discriminate |].
    apply filter_In in Ht as [Ht Hb].
    apply andb_prop in Hb as [Hg Hc].
    apply Gender_eqb_eq in Hg. apply ClassLevel_eqb_eq in Hc.
    exists t. repeat split; auto.
Qed.

Lemma learning_target_preference_witness :
  exists t,
    fst (_find_learning_target frustrated_member [rich_middle_member]
           (oracle [] []))
    = Some t /\
    In t [rich_middle_member].
Proof.
  destruct (proj2 (learning_target_preference frustrated_member
                     [rich_middle_member] (oracle [] []))
              ltac:(discriminate))
    as (t & E & H & _).
  exists t. split; [exact E | exact H].
Defined.

(** ** The statistics of a snapshot *)

Lemma gender_partition (l : list Agent) :
  (length (filter (fun a => Gender_eqb (gender a) male) l)
   + length (filter (fun a => Gender_eqb (gender a) female) l))%nat
  = length l.
Proof.
  induction l as [| a l IH]; [reflexivity |].
  cbn [filter]. destruct (gender a); cbn [Gender_eqb length] in *; lia.
Qed.

Lemma filter_to_dict_class (c : ClassLevel) (l : list Agent) :
  length (filter (fun d => ClassLevel_eqb (d_class_level d) c)
            (map Agent_to_dict l))
  = length (filter (fun a => ClassLevel_eqb (class_level a) c) l).
Proof.
  induction l as [| a l IH]; [reflexivity |].
  cbn [map filter]. cbn [Agent_to_dict d_class_level].
  destruct (ClassLevel_eqb (class_level a) c); cbn [length]; now rewrite IH.
Qed.

Lemma update_statistics_values (s : Society) :
  social_equality (update_statistics s)
  = equality_index (map wealth (agents s)) /\
  (agents s <> [] ->
   average_wealth (update_statistics s) = np_mean (map wealth (agents s)) /\
   average_power (update_statistics s) = np_mean (map power (agents s)) /\
   average_ideology (update_statistics s)
   = np_mean (map (fun a => inject_Z (ideology_value a)) (agents s))) /\
  (forall c,
     class_stats (update_statistics s) c
     = match filter (fun a => ClassLevel_eqb (class_level a) c) (agents s)
       with
       | [] => mkClassStat 0 0 0 0 0
       | group =>
           mkClassStat (length group)
             (np_mean (map wealth group))
             (np_mean (map power group))
             (length (filter (fun a => Gender_eqb (gender a) male) group))
             (length (filter (fun a => Gender_eqb (gender a) female) group))
       end).
Proof.
  unfold update_statistics, _calculate_social_equality, _update_class_stats,
    _update_basic_stats.
  destruct (agents s) as [| a l] eqn:E.
  - split; [| split].
    + cbn [set_social_equality set_class_stats social_equality agents].
      now rewrite E.
    + intros H. now elim H.
    + intros c.
      cbn [set_social_equality set_class_stats class_stats agents].
      now rewrite E.
  - split; [| split]; [reflexivity | intros _; repeat split | reflexivity].
Qed.

Lemma update_statistics_consistent (s : Society) :
  snapshot_consistent (to_dict (update_statistics s)).
Proof.
  destruct (update_statistics_values s) as (He & Ha & Hc).
  unfold snapshot_consistent. cbv zeta.
  cbn [to_dict snap_agents snap_social_equality snap_average_wealth
         snap_average_power snap_average_ideology snap_class_stats].
  rewrite update_statistics_agents, !map_map.
  split; [exact He | split].
  - intros Hne. apply Ha. intros E. apply Hne. now rewrite E.
  - intros c. rewrite (filter_to_dict_class c (agents s)), Hc.
    destruct (filter (fun a => ClassLevel_eqb (class_level a) c) (agents s))
      as [| a0 grp]; cbn [count male_count female_count];
      [split; reflexivity |].
    split; [reflexivity | apply gender_partition].
Qed.

(** X28.  Every snapshot of a complete run is consistent: its equality
    index is the index of the wealths it lists, its average wealth, power
    and ideology are the means over the members it lists (for a population
    that is not empty), and for every class its count is the number of
    listed members of that class, split into its male and female counts.
    The snapshot of a round is taken when [update_statistics] has just run
    and before the operations of every tenth round move anybody. *)
Theorem snapshots_are_consistent (c : Config) (g : RandomState) :
  Forall snapshot_consistent (rounds (fst (complete_run c g))).
Proof.
  unfold complete_run, bind, run_simulation.
  destruct (_initialize_society_shape c g) as (combos & g1 & _ & Es & Er).
  destruct (_initialize_society c g) as [sim g2]. simpl in Er, Es.
  destruct (run_rounds_invariant (fun _ => True)
              (fun _ snap => snapshot_consistent snap))
    with (n := Z.to_nat (max_rounds c)) (sim := sim) (first := 1%Z) (g := g2)
    as (_ & new & E & F); auto.
  - intros s r g0 _. rewrite _run_single_round_steps.
    apply update_statistics_consistent.
  - rewrite E, Er. apply Forall_app. split.
    + constructor; [| constructor]. rewrite Es.
      apply update_statistics_consistent.
    + now apply Forall2_right in F as [F _].
Qed.
